(** * Kansas SOS crawler: extraction, validation and persistence

    A shallow embedding of [sos_crawler.py] (class [KansasSOSCrawler]).

    - Python strings are modelled as Rocq [string]s (ASCII range).
    - Python values are the inductive [pyvalue]; a [dict] is an insertion-ordered
      association list with string keys, as [str()] and [json.dumps] observe
      the order.
    - Every call into Playwright can raise; the browser is an abstract state
      machine given by the class [PageDriver].  The file system and the clock
      are explicit parts of the [world].
    - Methods are computations in a state-and-exception monad [M]: an
      exception keeps the side effects made before it, as in Python.
    - [print], [logging] and [time.sleep] calls change neither results nor
      control flow and are left out; [input()] returns immediately.  The
      files of the [world] are those the crawler opens itself: the session
      log [crawler.log], which only the handlers of [logging] append to, is
      not among them. *)

From Stdlib Require Import String Ascii List Arith Lia Bool Sorted.
From stdpp Require Import gmap strings.
Import ListNotations.

Local Open Scope string_scope.
Local Open Scope list_scope.
Local Open Scope nat_scope.

(** ** Strings, the way the Python methods used by the crawler treat them *)

Module PyStr.

Definition dquote : ascii := ascii_of_nat 34.
Definition newline : ascii := ascii_of_nat 10.

  (** [str.isspace] on the ASCII range: TAB..CR, FS..US and the blank. *)
Definition is_space (c : ascii) : bool :=
    let n := nat_of_ascii c in
    ((9 <=? n) && (n <=? 13)) || ((28 <=? n) && (n <=? 32)).

Definition is_upper (c : ascii) : bool :=
    let n := nat_of_ascii c in (65 <=? n) && (n <=? 90).
Definition is_lower (c : ascii) : bool :=
    let n := nat_of_ascii c in (97 <=? n) && (n <=? 122).
Definition is_digit (c : ascii) : bool :=
    let n := nat_of_ascii c in (48 <=? n) && (n <=? 57).

  (** The class [\w] of [re]: letters, digits and the underscore. *)
Definition is_word (c : ascii) : bool :=
    is_upper c || is_lower c || is_digit c || Ascii.eqb c "_"%char.

Definition lower_char (c : ascii) : ascii :=
    if is_upper c then ascii_of_nat (nat_of_ascii c + 32) else c.

  (** [s.lower()] *)
Fixpoint lower (s : string) : string :=
    match s with
    | EmptyString => EmptyString
    | String c s' => String (lower_char c) (lower s')
    end.

Fixpoint map_chars (f : ascii -> ascii) (s : string) : string :=
    match s with
    | EmptyString => EmptyString
    | String c s' => String (f c) (map_chars f s')
    end.

Fixpoint rev_onto (s acc : string) : string :=
    match s with
    | EmptyString => acc
    | String c s' => rev_onto s' (String c acc)
    end.
Definition rev (s : string) : string := rev_onto s EmptyString.

  (** Drop the leading characters that satisfy [p]. *)
Fixpoint lstrip_by (p : ascii -> bool) (s : string) : string :=
    match s with
    | EmptyString => EmptyString
    | String c s' => if p c then lstrip_by p s' else s
    end.

Definition strip_by (p : ascii -> bool) (s : string) : string :=
    rev (lstrip_by p (rev (lstrip_by p s))).

  (** [s.strip()] *)
Definition strip (s : string) : string := strip_by is_space s.

Fixpoint mem_char (c : ascii) (cs : string) : bool :=
    match cs with
    | EmptyString => false
    | String d cs' => Ascii.eqb c d || mem_char c cs'
    end.

  (** [s.strip(chars)] *)
Definition strip_chars (chars s : string) : string :=
    strip_by (fun c => mem_char c chars) s.

  (** [s[:n]] *)
Fixpoint take (n : nat) (s : string) : string :=
    match n, s with
    | S n', String c s' => String c (take n' s')
    | _, _ => EmptyString
    end.

  (** [s[n:]] *)
Fixpoint drop (n : nat) (s : string) : string :=
    match n, s with
    | S n', String _ s' => drop n' s'
    | _, _ => s
    end.

Fixpoint starts_with (p s : string) : bool :=
    match p, s with
    | EmptyString, _ => true
    | String a p', String b s' => Ascii.eqb a b && starts_with p' s'
    | String _ _, EmptyString => false
    end.

  (** [needle in hay] *)
Fixpoint contains (needle hay : string) : bool :=
    starts_with needle hay ||
    match hay with
    | EmptyString => false
    | String _ hay' => contains needle hay'
    end.

  (** [s.replace(old, new)] for a non-empty [old]: the occurrences are
      replaced from the left, without overlap.  [skip] counts the characters
      of an occurrence that are still to be passed over. *)
Fixpoint replace_from (old new : string) (skip : nat) (s : string) : string :=
    match s with
    | EmptyString => EmptyString
    | String c s' =>
        match skip with
        | S k => replace_from old new k s'
        | O =>
            if starts_with old s
            then new +:+ replace_from old new (String.length old - 1) s'
            else String c (replace_from old new 0 s')
        end
    end.
Definition replace (old new s : string) : string := replace_from old new 0 s.

  (** [sep.join(parts)] *)
Fixpoint join (sep : string) (parts : list string) : string :=
    match parts with
    | [] => EmptyString
    | [p] => p
    | p :: rest => p +:+ sep +:+ join sep rest
    end.

Definition digit_char (d : nat) : ascii := ascii_of_nat (48 + d).

  (** The last [width] decimal digits of [n], most significant first. *)
Fixpoint digits (width n : nat) : string :=
    match width with
    | O => EmptyString
    | S w => digits w (n / 10) +:+ String (digit_char (n mod 10)) EmptyString
    end.

  (** Decimal numeral of [n], zero-padded to at least [width] digits. *)
Fixpoint numeral_fuel (fuel width n : nat) : string :=
    match fuel with
    | O => digits width n
    | S f =>
        if n <? Nat.pow 10 width then digits width n
        else numeral_fuel f (S width) n
    end.
Definition zpad (width n : nat) : string := numeral_fuel n width n.

  (** [re.sub(r'[^\w]', '_', s)]: every character outside [\w] becomes one
      underscore; the pattern has no repetition operator. *)
Definition sub_non_word (s : string) : string :=
    map_chars (fun c => if is_word c then c else "_"%char) s.

  (** Case-insensitive literal prefix, as [re.IGNORECASE] on ASCII. *)
Definition starts_with_ci (lit s : string) : bool :=
    starts_with (lower lit) (lower (take (String.length lit) s)).

  (** The characters up to, not including, the first one satisfying [p]. *)
Fixpoint span_until (p : ascii -> bool) (s : string) : string :=
    match s with
    | EmptyString => EmptyString
    | String c s' => if p c then EmptyString else String c (span_until p s')
    end.

  (** What follows the first occurrence of [c], if there is one. *)
Fixpoint after_first (c : ascii) (s : string) : option string :=
    match s with
    | EmptyString => None
    | String d s' => if Ascii.eqb c d then Some s' else after_first c s'
    end.

  (** One attempt of the pattern [lit[^>]*>([^<]+)] anchored at the start of
      [s]: after the literal, [[^>]*>] ends at the first [>], and the group is
      the longest run without [<] that follows, which must not be empty. *)
Definition match_here (lit s : string) : option string :=
    if starts_with_ci lit s then
      match after_first ">"%char (drop (String.length lit) s) with
      | Some rest =>
          match span_until (Ascii.eqb "<"%char) rest with
          | EmptyString => None
          | g => Some g
          end
      | None => None
      end
    else None.

  (** [re.search(lit + r'[^>]*>([^<]+)', s, re.IGNORECASE)]: the leftmost
      position where the pattern matches; the result is [group(1)]. *)
Fixpoint re_search (lit s : string) : option string :=
    match match_here lit s with
    | Some g => Some g
    | None =>
        match s with
        | EmptyString => None
        | String _ s' => re_search lit s'
        end
    end.

End PyStr.

(** ** Python values *)

(** The exception classes the crawler distinguishes.  All of them derive from
    [Exception]; [except (TypeError, ValueError)] catches the first two only. *)
Inductive exn_class :=
| TypeError | ValueError | AttributeError | KeyError | OSError | DriverError.

Record exn := Exn { exn_cls : exn_class; exn_msg : string }.

(** [str(e)] *)
Definition str_of_exn (e : exn) : string := exn_msg e.

Definition is_serialization_error (e : exn) : bool :=
  match exn_cls e with
  | TypeError | ValueError => true
  | _ => false
  end.

Inductive result (A : Type) :=
| Val (a : A)
| Raise (e : exn).
Arguments Val {A} a.
Arguments Raise {A} e.

#[local] Unset Elimination Schemes.

(** [PObj ty repr truthy] stands for an object of a type that [json] cannot
    encode (a set, bytes, a datetime, ...), given by its type name, its
    [str()] and its truth value. *)
Inductive pyvalue :=
| PNone
| PBool (b : bool)
| PInt (z : Z)
| PStr (s : string)
| PList (l : list pyvalue)
| PDict (d : list (string * pyvalue))
| PObj (tyname repr : string) (truthy : bool).

#[local] Set Elimination Schemes.

Abbreviation dict := (list (string * pyvalue)).

Module Dict.

  (** [d[k]] as an option; keys are unique in every dict the crawler builds. *)
Fixpoint get (k : string) (d : dict) : option pyvalue :=
    match d with
    | [] => None
    | (k', v) :: d' => if String.eqb k k' then Some v else get k d'
    end.

  (** [d[k] = v]: an existing key keeps its position, a new one goes last. *)
Fixpoint set (k : string) (v : pyvalue) (d : dict) : dict :=
    match d with
    | [] => [(k, v)]
    | (k', v') :: d' =>
        if String.eqb k k' then (k, v) :: d' else (k', v') :: set k v d'
    end.

  (** [k in d] *)
Definition mem (k : string) (d : dict) : bool :=
    match get k d with Some _ => true | None => false end.

Definition keys (d : dict) : list string := map fst d.

  (** [d.get(k)]: [None] for a missing key. *)
Definition get_or_none (k : string) (d : dict) : pyvalue :=
    match get k d with Some v => v | None => PNone end.

End Dict.

(** [type(v).__name__] *)
Definition type_name (v : pyvalue) : string :=
  match v with
  | PNone => "NoneType"
  | PBool _ => "bool"
  | PInt _ => "int"
  | PStr _ => "str"
  | PList _ => "list"
  | PDict _ => "dict"
  | PObj tyname _ _ => tyname
  end.

(** Truth value of a Python object, as [if x] and [not x] use it. *)
Definition truthy (v : pyvalue) : bool :=
  match v with
  | PNone => false
  | PBool b => b
  | PInt z => negb (Z.eqb z 0)
  | PStr s => negb (String.eqb s "")
  | PList l => match l with [] => false | _ => true end
  | PDict d => match d with [] => false | _ => true end
  | PObj _ _ t => t
  end.

(** [a == b] where [b] is a string literal. *)
Definition eq_str (v : pyvalue) (s : string) : bool :=
  match v with
  | PStr s' => String.eqb s' s
  | _ => false
  end.

Definition is_dict (v : pyvalue) : bool :=
  match v with PDict _ => true | _ => false end.

(** [json.dumps(v, ensure_ascii=False)] either produces text or raises
    [TypeError] at the first object, in document order, that it cannot
    encode.  Only the outcome is modelled, not the text. *)
Fixpoint json_check (v : pyvalue) : result unit :=
  match v with
  | PList l =>
      (fix items (l : list pyvalue) : result unit :=
         match l with
         | [] => Val tt
         | x :: l' =>
             match json_check x with
             | Val _ => items l'
             | Raise e => Raise e
             end
         end) l
  | PDict d =>
      (fix items (d : dict) : result unit :=
         match d with
         | [] => Val tt
         | (_, x) :: d' =>
             match json_check x with
             | Val _ => items d'
             | Raise e => Raise e
             end
         end) d
  | PObj ty _ _ =>
      Raise (Exn TypeError ("Object of type " +:+ ty +:+ " is not JSON serializable"))
  | _ => Val tt
  end.

Module PyRepr.
Import PyStr.

Definition hex_digit (n : nat) : ascii :=
    if n <? 10 then ascii_of_nat (48 + n) else ascii_of_nat (87 + n).

  (** One character inside a string literal delimited by [q]. *)
Definition escape_char (q c : ascii) : string :=
    let n := nat_of_ascii c in
    if Ascii.eqb c q || Ascii.eqb c "\"%char then String "\"%char (String c "")
    else if n =? 9 then "\t"
    else if n =? 10 then "\n"
    else if n =? 13 then "\r"
    else if (n <? 32) || (n =? 127)
         then "\x" +:+ String (hex_digit (n / 16)) (String (hex_digit (n mod 16)) "")
    else String c "".

Fixpoint escape (q : ascii) (s : string) : string :=
    match s with
    | EmptyString => EmptyString
    | String c s' => escape_char q c +:+ escape q s'
    end.

  (** [repr(s)]: single quotes, unless the string holds a single quote and no
      double quote. *)
Definition repr_str (s : string) : string :=
    let q := if mem_char "'"%char s && negb (mem_char dquote s)
             then dquote else "'"%char in
    String q (escape q s +:+ String q "").

Definition repr_int (z : Z) : string :=
    (if Z.ltb z 0 then "-" else "") +:+ zpad 1 (Z.abs_nat z).

  (** [repr(v)] *)
Fixpoint repr (v : pyvalue) : string :=
    match v with
    | PNone => "None"
    | PBool b => if b then "True" else "False"
    | PInt z => repr_int z
    | PStr s => repr_str s
    | PList l =>
        "[" +:+ join ", " ((fix items (l : list pyvalue) : list string :=
                             match l with
                             | [] => []
                             | x :: l' => repr x :: items l'
                             end) l) +:+ "]"
    | PDict d =>
        "{" +:+ join ", " ((fix items (d : dict) : list string :=
                             match d with
                             | [] => []
                             | (k, x) :: d' => (repr_str k +:+ ": " +:+ repr x) :: items d'
                             end) d) +:+ "}"
    | PObj _ r _ => r
    end.

  (** [str(v)]: a string is itself, everything else prints as its [repr]. *)
Definition str (v : pyvalue) : string :=
    match v with
    | PStr s => s
    | _ => repr v
    end.

End PyRepr.

(** ** Time *)

Record datetime := DateTime {
  year : nat; month : nat; day : nat;
  hour : nat; minute : nat; second : nat; microsecond : nat
}.

Module Time.
Import PyStr.

  (** [strftime("%Y%m%d_%H%M%S")] *)
Definition stamp (t : datetime) : string :=
    zpad 4 (year t) +:+ zpad 2 (month t) +:+ zpad 2 (day t) +:+ "_" +:+
    zpad 2 (hour t) +:+ zpad 2 (minute t) +:+ zpad 2 (second t).

  (** [strftime('%H%M%S')] *)
Definition hms (t : datetime) : string :=
    zpad 2 (hour t) +:+ zpad 2 (minute t) +:+ zpad 2 (second t).

  (** [isoformat()] *)
Definition isoformat (t : datetime) : string :=
    zpad 4 (year t) +:+ "-" +:+ zpad 2 (month t) +:+ "-" +:+ zpad 2 (day t) +:+ "T" +:+
    zpad 2 (hour t) +:+ ":" +:+ zpad 2 (minute t) +:+ ":" +:+ zpad 2 (second t) +:+
    (if microsecond t =? 0 then "" else "." +:+ zpad 6 (microsecond t)).

End Time.

(** ** Files *)

(** What one [write] or [json.dump] call leaves in a file.  [JsonText v] is
    the indented JSON text of [v]; [JsonPartial v] is the prefix of it that was
    written before the encoder raised. *)
Inductive chunk :=
| Text (s : string)
| JsonText (v : pyvalue)
| JsonPartial (v : pyvalue).

(** [can_open p] is the outcome of [open(p, 'w')]: it succeeds or raises (no
    such directory, no permission, ...); [files] maps each path to what was
    written to it. *)
Record filesystem := FileSystem {
  can_open : string -> result unit;
  files : gmap string (list chunk)
}.

Module Path.
Import PyStr.

  (** [os.path.join(a, b)] on POSIX. *)
Definition join (a b : string) : string :=
    if starts_with "/" b then b
    else if String.eqb a "" then b
    else if starts_with "/" (rev a) then a +:+ b
    else a +:+ "/" +:+ b.

  (** [os.path.dirname(p)] *)
Definition dirname (p : string) : string :=
    match after_first "/"%char (rev p) with
    | Some d => rev d
    | None => ""
    end.

End Path.

(** ** The browser *)

(** The part of Playwright's synchronous API the crawler calls.  [B] is the
    state of the browser session and [H] the type of element handles.  Every
    call may raise and may change the session; [page.url] is a plain
    attribute. *)
Class PageDriver (B H : Type) := {
  goto : string -> B -> result unit * B;
  go_back : B -> result unit * B;
  page_url : B -> string;
  page_title : B -> result string * B;
  page_content : B -> result string * B;
  query_selector : string -> B -> result (option H) * B;
  query_selector_all : string -> B -> result (list H) * B;
  el_query_selector : H -> string -> B -> result (option H) * B;
  el_query_selector_all : H -> string -> B -> result (list H) * B;
  text_content : H -> B -> result (option string) * B;
  click : H -> B -> result unit * B;
  fill : H -> string -> B -> result unit * B;
  is_checked : H -> B -> result bool * B;
  close_session : B -> result unit * B
}.

(** The three extraction strategies of [extract_business_details_robust]. *)
Inductive tier := ElementIds | Tables | PageText.

(** ** The world and the monad of methods *)

Record world (B : Type) := World {
  browser : B;
  fs : filesystem;
  clock : nat -> datetime;
  ticks : nat;
  tiers_run : list tier
}.
Arguments World {B} _ _ _ _ _.
Arguments browser {B} _.
Arguments fs {B} _.
Arguments clock {B} _.
Arguments ticks {B} _.
Arguments tiers_run {B} _.

(** A method is a function from the world before the call to its outcome and
    the world after it.  [clock] is the sequence of readings that successive
    [datetime.now()] calls return and [ticks] the number of readings taken so
    far.  [tiers_run] is ghost state: the extraction strategies entered so
    far, oldest first. *)
Definition M (B A : Type) : Type := world B -> result A * world B.

Section Monad.

Context {B : Type}.

Definition ret {A} (a : A) : M B A := fun w => (Val a, w).

Definition bind {A C} (c : M B A) (k : A -> M B C) : M B C :=
    fun w =>
      match c w with
      | (Val a, w') => k a w'
      | (Raise e, w') => (Raise e, w')
      end.

Definition raise {A} (e : exn) : M B A := fun w => (Raise e, w).

  (** [try: c  except <classes> as e: handler e], where [catches] tells
      which exceptions the clause names.  The effects of [c] up to the
      exception stay. *)
Definition try_except {A} (c : M B A) (catches : exn -> bool)
      (handler : exn -> M B A) : M B A :=
    fun w =>
      match c w with
      | (Val a, w') => (Val a, w')
      | (Raise e, w') => if catches e then handler e w' else (Raise e, w')
      end.

  (** Run [c] and hand its outcome over as a value: what an
      [except Exception] clause finds when it takes over. *)
Definition attempt {A} (c : M B A) : M B (result A) :=
    fun w => let '(r, w') := c w in (Val r, w').

Definition of_result {A} (r : result A) : M B A := fun w => (r, w).

Definition drive {A} (op : B -> result A * B) : M B A :=
    fun w =>
      let '(r, b') := op (browser w) in
      (r, World b' (fs w) (clock w) (ticks w) (tiers_run w)).

  (** [datetime.now()] *)
Definition now : M B datetime :=
    fun w =>
      (Val (clock w (ticks w)),
       World (browser w) (fs w) (clock w) (S (ticks w)) (tiers_run w)).

  (** Ghost step: note that a strategy was entered. *)
Definition enter (t : tier) : M B unit :=
    fun w =>
      (Val tt,
       World (browser w) (fs w) (clock w) (ticks w) (tiers_run w ++ [t])).

Definition with_files (f : gmap string (list chunk) -> gmap string (list chunk))
      (w : world B) : world B :=
    World (browser w) (FileSystem (can_open (fs w)) (f (files (fs w))))
          (clock w) (ticks w) (tiers_run w).

  (** [open(path, 'w', encoding='utf-8')]: creates or truncates the file. *)
Definition open_w (path : string) : M B unit :=
    fun w =>
      match can_open (fs w) path with
      | Val _ => (Val tt, with_files (fun m => <[path := []]> m) w)
      | Raise e => (Raise e, w)
      end.

  (** [f.write(...)] on the file opened at [path]. *)
Definition write (path : string) (c : chunk) : M B unit :=
    fun w =>
      (Val tt,
       with_files (fun m => <[path := default [] (m !! path) ++ [c]]> m) w).

  (** [json.dump(v, f, indent=2, ensure_ascii=False)]: what the encoder
      produced before it raised stays in the file. *)
Definition json_dump (v : pyvalue) (path : string) : M B unit :=
    match json_check v with
    | Val _ => write path (JsonText v)
    | Raise e => bind (write path (JsonPartial v)) (fun _ => raise e)
    end.

End Monad.

(** [except Exception] and a bare [except]. *)
Definition any_exception (e : exn) : bool := true.

Declare Scope py_scope.
Delimit Scope py_scope with py.
Notation "x <-- c ;; k" := (bind c (fun x => k))
  (at level 100, c at next level, right associativity) : py_scope.
Notation "c ;;; k" := (bind c (fun _ => k))
  (at level 100, right associativity) : py_scope.
Local Open Scope py_scope.

(** ** Evidence store *)

Section Crawler.

Context {B H : Type} `{PageDriver B H}.

Definition output_dir : string := "kansas_business_data".

Definition nl : string := String PyStr.newline "".

  (** [save_html_fallback(self, html_content, filename_prefix, error_type)] *)
Definition save_html_fallback (html_content filename_prefix error_type : string)
      : M B pyvalue :=
    try_except
      (t <-- now ;;
       let timestamp := Time.stamp t in
       let filename :=
         output_dir +:+ "/html_fallback/" +:+ filename_prefix +:+ "_" +:+
         error_type +:+ "_" +:+ timestamp +:+ ".html" in
       open_w filename ;;;
       write filename (Text ("<!-- Error Type: " +:+ error_type +:+ " -->" +:+ nl)) ;;;
       write filename (Text ("<!-- Timestamp: " +:+ timestamp +:+ " -->" +:+ nl)) ;;;
       url <-- (fun w => (Val (page_url (browser w)), w)) ;;
       write filename (Text ("<!-- URL: " +:+ url +:+ " -->" +:+ nl)) ;;;
       write filename (Text html_content) ;;;
       ret (PStr filename))
      any_exception
      (fun _ => ret PNone).

  (** [save_error_log(self, search_term, error_message, page_source)]; every
      caller passes the page markup as [page_source]. *)
Definition save_error_log (search_term error_message page_source : string)
      : M B pyvalue :=
    try_except
      (t <-- now ;;
       let timestamp := Time.stamp t in
       url <-- (fun w => (Val (page_url (browser w)), w)) ;;
       let error_data :=
         [("search_term", PStr search_term);
          ("error_message", PStr error_message);
          ("timestamp", PStr timestamp);
          ("url", PStr url);
          ("error_type", PStr "crawling_error")] in
       let error_json_file :=
         output_dir +:+ "/errors/error_" +:+ search_term +:+ "_" +:+ timestamp +:+
         ".json" in
       open_w error_json_file ;;;
       json_dump (PDict error_data) error_json_file ;;;
       (if negb (String.eqb page_source "")
        then html_file <-- save_html_fallback page_source
                             ("error_" +:+ search_term) "page_capture" ;;
             ret tt
        else ret tt) ;;;
       ret (PStr error_json_file))
      any_exception
      (fun _ => ret PNone).

  (** The metadata [safe_extract_json_data] attaches to a dict. *)
Definition add_metadata (d : dict) (search_term : string) (t : datetime) : dict :=
    Dict.set "status" (PStr "success")
      (Dict.set "extracted_at" (PStr (Time.isoformat t))
         (Dict.set "search_term" (PStr search_term) d)).

  (** [str(business_data)[:500] if business_data else None] *)
Definition preview (business_data : pyvalue) : pyvalue :=
    if truthy business_data
    then PStr (PyStr.take 500 (PyRepr.str business_data))
    else PNone.

  (** [safe_extract_json_data(self, business_data, search_term)] returns the
      pair [(record, html_file)].  The three assignments at the head of the
      [try] block cannot raise and mutate the caller's dict in place, so the
      handler sees the dict with the metadata, as here. *)
Definition safe_extract_json_data (business_data : pyvalue) (search_term : string)
      : M B (pyvalue * pyvalue) :=
    business_data <--
      match business_data with
      | PDict d => t <-- now ;; ret (PDict (add_metadata d search_term t))
      | _ => ret business_data
      end ;;
    try_except
      (of_result (json_check business_data) ;;;
       ret (business_data, PNone))
      is_serialization_error
      (fun e =>
         html <-- drive page_content ;;
         html_file <-- save_html_fallback html ("json_fail_" +:+ search_term)
                         "serialization_error" ;;
         t <-- now ;;
         let error_data :=
           [("search_term", PStr search_term);
            ("status", PStr "error");
            ("error_type", PStr "json_serialization_failed");
            ("error_message", PStr (str_of_exn e));
            ("scraped_at", PStr (Time.isoformat t));
            ("html_fallback_file", html_file);
            ("partial_business_data", preview business_data)] in
         ret (PDict error_data, html_file)).

  (** [f.write(data['html_content'])]: [write] accepts a [str] only. *)
Definition write_value (path : string) (v : pyvalue) : M B unit :=
    match v with
    | PStr s => write path (Text s)
    | _ =>
        raise (Exn TypeError ("write() argument must be str, not " +:+ type_name v))
    end.

  (** [save_data_with_fallback(self, data, filename)] *)
Definition save_data_with_fallback (data : pyvalue) (filename : string)
      : M B pyvalue :=
    try_except
      (let filepath := Path.join output_dir filename in
       match data with
       | PDict d =>
           match Dict.get "html_content" d with
           | Some html =>
               open_w filepath ;;;
               write_value filepath html ;;;
               ret (PStr filepath)
           | None =>
               open_w filepath ;;;
               json_dump data filepath ;;;
               ret (PStr filepath)
           end
       | _ =>
           open_w filepath ;;;
           json_dump data filepath ;;;
           ret (PStr filepath)
       end)
      is_serialization_error
      (fun e =>
         html <-- drive page_content ;;
         html_file <-- save_html_fallback html
                         ("save_fail_" +:+ PyStr.replace ".json" "" filename)
                         "save_error" ;;
         t <-- now ;;
         let error_data :=
           [("filename", PStr filename);
            ("error", PStr (str_of_exn e));
            ("timestamp", PStr (Time.isoformat t));
            ("html_fallback_file", html_file)] in
         let error_file :=
           output_dir +:+ "/errors/save_error_" +:+
           PyStr.replace ".json" "" filename +:+ ".json" in
         open_w error_file ;;;
         json_dump (PDict error_data) error_file ;;;
         ret html_file).

  (** ** Field extractor *)

  (** [x.text_content().strip()]: [text_content] may return [None], on which
      [.strip()] raises. *)
Definition stripped_text (el : H) : M B string :=
    t <-- drive (text_content el) ;;
    match t with
    | Some s => ret (PyStr.strip s)
    | None => raise (Exn AttributeError "'NoneType' object has no attribute 'strip'")
    end.

  (** [get_element_text(self, selector)] *)
Definition get_element_text (selector : string) : M B string :=
    try_except
      (element <-- drive (query_selector selector) ;;
       match element with
       | Some el =>
           text <-- stripped_text el ;;
           ret (if negb (String.eqb text "") then text else "")
       | None => ret ""
       end)
      any_exception
      (fun _ => ret "").

  (** What [get_element_text] yields, read off the answers of the browser in
      state [b]: the stripped text of the element, and the empty string when
      the query raises, finds nothing, or the text cannot be read. *)
Definition element_text (selector : string) (b : B) : string :=
    match query_selector selector b with
    | (Val (Some el), b') =>
        match text_content el b' with
        | (Val (Some s), _) => PyStr.strip s
        | _ => ""
        end
    | _ => ""
    end.

  (** The body shared by the two branches of [extract_office_address], which
      differ in the element ids only. *)
Definition office_address_parts (prefix : string) : M B string :=
    address1 <-- get_element_text (prefix +:+ "Address") ;;
    city <-- get_element_text (prefix +:+ "AddressCity") ;;
    state <-- get_element_text (prefix +:+ "AddressState") ;;
    zip_code <-- get_element_text (prefix +:+ "AddressZip") ;;
    let address_parts := if negb (String.eqb address1 "") then [address1] else [] in
    let address_parts :=
      if negb (String.eqb city "") || negb (String.eqb state "")
         || negb (String.eqb zip_code "")
      then
        let location :=
          PyStr.strip_chars " ," (city +:+ ", " +:+ state +:+ " " +:+ zip_code) in
        if negb (String.eqb location "") then address_parts ++ [location]
        else address_parts
      else address_parts in
    ret (match address_parts with
         | [] => ""
         | _ => PyStr.join " | " address_parts
         end).

  (** [extract_office_address(self, office_type)] *)
Definition extract_office_address (office_type : string) : M B string :=
    try_except
      (if String.eqb office_type "principal"
       then office_address_parts "#MainContent_lblPO"
       else office_address_parts "#MainContent_lblRO")
      any_exception
      (fun _ => ret "").

  (** The attribute names and element ids of [extract_by_element_ids], in the
      order of the assignments. *)
Definition element_ids : list (string * string) :=
    [("business_id", "#MainContent_lblEntityID");
     ("business_name", "#MainContent_lblEntityName");
     ("type", "#MainContent_lblEntityType");
     ("formation_date", "#MainContent_lblFormationDate");
     ("jurisdiction", "#MainContent_lblStateOfOrganization");
     ("status", "#MainContent_lblEntityStatus");
     ("resident_agent", "#MainContent_lblResidentAgentName");
     ("last_reporting_year", "#MainContent_lblLastIROnFile");
     ("next_report_due_date", "#MainContent_lblNextIRDue");
     ("forfeiture_date", "#MainContent_lblForfeitureDate")].

Fixpoint fetch_texts (ids : list (string * string)) (business_data : dict)
      : M B dict :=
    match ids with
    | [] => ret business_data
    | (key, selector) :: rest =>
        text <-- get_element_text selector ;;
        fetch_texts rest (Dict.set key (PStr text) business_data)
    end.

  (** [extract_by_element_ids(self)] *)
Definition extract_by_element_ids : M B dict :=
    enter ElementIds ;;;
    business_data <-- fetch_texts element_ids [] ;;
    principal <-- extract_office_address "principal" ;;
    let business_data :=
      Dict.set "principal_office_address" (PStr principal) business_data in
    registered <-- extract_office_address "registered" ;;
    ret (Dict.set "registered_office_address" (PStr registered) business_data).

  (** [any(term in label_lower for term in terms)] *)
Definition any_in (terms : list string) (label_lower : string) : bool :=
    existsb (fun term => PyStr.contains term label_lower) terms.

  (** The keyword groups of [extract_from_tables] in the order of the
      [if]/[elif] chain. *)
Definition keyword_groups : list (list string * string) :=
    [(["business id"; "entity id"], "business_id");
     (["business name"; "entity name"], "business_name");
     (["entity type"; "type"], "type");
     (["formation date"], "formation_date");
     (["jurisdiction"], "jurisdiction");
     (["status"], "status");
     (["resident agent"], "resident_agent");
     (["last report"], "last_reporting_year");
     (["next report"], "next_report_due_date");
     (["forfeiture"], "forfeiture_date")].

  (** The branch of the chain that a lower-cased label selects. *)
Fixpoint classify_in (groups : list (list string * string)) (label_lower : string)
      : option string :=
    match groups with
    | [] => None
    | (terms, key) :: rest =>
        if any_in terms label_lower then Some key else classify_in rest label_lower
    end.

Definition classify (label : string) : option string :=
    classify_in keyword_groups (PyStr.lower label).

  (** The statements under [if len(cells) >= 2] once both texts are read. *)
Definition table_row_update (label value : string) (table_data : dict) : dict :=
    if negb (String.eqb label "") && negb (String.eqb value "")
    then match classify label with
         | Some key => Dict.set key (PStr value) table_data
         | None => table_data
         end
    else table_data.

  (** One turn of the inner loop. *)
Definition scan_row (row : H) (table_data : dict) : M B dict :=
    cells <-- drive (el_query_selector_all row "td, th") ;;
    match cells with
    | cell0 :: cell1 :: _ =>
        label <-- stripped_text cell0 ;;
        value <-- stripped_text cell1 ;;
        ret (table_row_update label value table_data)
    | _ => ret table_data
    end.

  (** The loops thread [table_data] and stop at the first exception: the
      result is the dict as it stood then, with the exception if there was
      one. *)
Fixpoint scan_rows (rows : list H) (table_data : dict)
      : M B (dict * option exn) :=
    match rows with
    | [] => ret (table_data, None)
    | row :: rest =>
        r <-- attempt (scan_row row table_data) ;;
        match r with
        | Val table_data' => scan_rows rest table_data'
        | Raise e => ret (table_data, Some e)
        end
    end.

Fixpoint scan_tables (tables : list H) (table_data : dict)
      : M B (dict * option exn) :=
    match tables with
    | [] => ret (table_data, None)
    | table :: rest =>
        r <-- attempt (drive (el_query_selector_all table "tr")) ;;
        match r with
        | Val rows =>
            s <-- scan_rows rows table_data ;;
            match s with
            | (table_data', None) => scan_tables rest table_data'
            | (table_data', Some e) => ret (table_data', Some e)
            end
        | Raise e => ret (table_data, Some e)
        end
    end.

  (** [extract_from_tables(self)]: the [except Exception] clause only logs,
      and the function returns [table_data] as it stands. *)
Definition extract_from_tables : M B dict :=
    enter Tables ;;;
    r <-- attempt (drive (query_selector_all "table")) ;;
    match r with
    | Val tables =>
        s <-- scan_tables tables [] ;;
        ret (fst s)
    | Raise _ => ret []
    end.

  (** The [patterns] dict of [extract_from_page_text]: each pattern is its
      literal head followed by [[^>]*>([^<]+)]. *)
Definition patterns : list (string * list string) :=
    [("business_id", ["Business ID"; "Entity ID"]);
     ("business_name", ["Business Name"; "Entity Name"]);
     ("type", ["Entity Type"; "Type"]);
     ("formation_date", ["Formation Date"]);
     ("jurisdiction", ["Jurisdiction"]);
     ("status", ["Status"]);
     ("resident_agent", ["Resident Agent"]);
     ("last_reporting_year", ["Last Report"]);
     ("next_report_due_date", ["Next Report"]);
     ("forfeiture_date", ["Forfeiture Date"])].

  (** The inner loop: the first pattern that matches gives the value. *)
Fixpoint first_match (field_patterns : list string) (page_text : string)
      : option string :=
    match field_patterns with
    | [] => None
    | pattern :: rest =>
        match PyStr.re_search pattern page_text with
        | Some g => Some (PyStr.strip g)
        | None => first_match rest page_text
        end
    end.

Fixpoint scan_text (fields : list (string * list string)) (page_text : string)
      (text_data : dict) : dict :=
    match fields with
    | [] => text_data
    | (field, field_patterns) :: rest =>
        match first_match field_patterns page_text with
        | Some v => scan_text rest page_text (Dict.set field (PStr v) text_data)
        | None => scan_text rest page_text text_data
        end
    end.

  (** [extract_from_page_text(self)] *)
Definition extract_from_page_text : M B dict :=
    enter PageText ;;;
    try_except
      (page_text <-- drive page_content ;;
       ret (scan_text patterns page_text []))
      any_exception
      (fun _ => ret []).

  (** [business_data.get(key)] used as a condition. *)
Definition has (key : string) (business_data : dict) : bool :=
    truthy (Dict.get_or_none key business_data).

  (** The first three steps of [extract_business_details_robust]: the
      strategies in their order, each later one only if the mapping at hand
      has no [business_name]. *)
Definition extract_fields : M B dict :=
    business_data <-- extract_by_element_ids ;;
    business_data <--
      (if negb (has "business_name" business_data)
       then extract_from_tables else ret business_data) ;;
    if negb (has "business_name" business_data)
    then extract_from_page_text else ret business_data.

  (** [extract_business_details_robust(self, search_term)] *)
Definition extract_business_details_robust (search_term : string) : M B pyvalue :=
    try_except
      (business_data <-- extract_fields ;;
       if has "business_name" business_data && has "business_id" business_data
       then
         r <-- safe_extract_json_data (PDict business_data) search_term ;;
         ret (fst r)
       else
         html_content <-- drive page_content ;;
         t <-- now ;;
         let error_data :=
           [("html_content", PStr html_content);
            ("error", PStr "Essential data missing");
            ("timestamp", PStr (Time.isoformat t));
            ("search_term", PStr search_term);
            ("status", PStr "data_extraction_failed")] in
         r <-- safe_extract_json_data (PDict error_data) search_term ;;
         ret (fst r))
      any_exception
      (fun e =>
         page_source <-- drive page_content ;;
         save_error_log search_term ("Extraction error: " +:+ str_of_exn e)
           page_source ;;;
         t <-- now ;;
         ret (PDict [("error", PStr (str_of_exn e));
                     ("timestamp", PStr (Time.isoformat t));
                     ("search_term", PStr search_term);
                     ("status", PStr "extraction_error")])).

  (** ** Crawl coordinator *)

Definition home_url : string := "https://sos.ks.gov/".
Definition search_url : string :=
    "https://www.sos.ks.gov/eforms/BusinessEntity/Search.aspx".

Definition captcha_indicators : list string :=
    [".g-recaptcha"; "iframe[src*='recaptcha']"; "text=CAPTCHA";
     "text=recaptcha"; "text=verify you are human"].

Fixpoint find_indicator (indicators : list string) : M B bool :=
    match indicators with
    | [] => ret false
    | indicator :: rest =>
        e <-- drive (query_selector indicator) ;;
        match e with
        | Some _ => ret true
        | None => find_indicator rest
        end
    end.

  (** [check_and_solve_captcha(self)]; the operator answers the prompt. *)
Definition check_and_solve_captcha : M B bool :=
    find_indicator captcha_indicators.

  (** [navigate_to_homepage_first(self)] *)
Definition navigate_to_homepage_first : M B bool :=
    try_except
      (drive (goto home_url) ;;;
       drive page_title ;;;
       check_and_solve_captcha ;;;
       drive (goto search_url) ;;;
       check_and_solve_captcha ;;;
       drive page_title ;;;
       ret true)
      any_exception
      (fun _ =>
         try_except
           (drive (goto search_url) ;;;
            check_and_solve_captcha ;;;
            ret true)
           any_exception
           (fun _ => ret false)).

  (** [if radio and not radio.is_checked(): radio.click()] *)
Definition select_radio (selector : string) : M B unit :=
    radio <-- drive (query_selector selector) ;;
    match radio with
    | Some r =>
        checked <-- drive (is_checked r) ;;
        if negb checked then drive (click r) else ret tt
    | None => ret tt
    end.

  (** [automated_search_setup(self, search_term)] *)
Definition automated_search_setup (search_term : string) : M B bool :=
    try_except
      (select_radio "#MainContent_rblSearchType_0" ;;;
       select_radio "#MainContent_rblNameSearchType_0" ;;;
       search_input <-- drive (query_selector "#MainContent_txtSearchEntityName") ;;
       match search_input with
       | Some inp =>
           drive (fill inp "") ;;;
           drive (fill inp search_term) ;;;
           ret true
       | None =>
           page_source <-- drive page_content ;;
           save_error_log search_term "Search input not found" page_source ;;;
           ret false
       end)
      any_exception
      (fun e =>
         page_source <-- drive page_content ;;
         save_error_log search_term ("Search setup error: " +:+ str_of_exn e)
           page_source ;;;
         ret false).

  (** [perform_search(self, search_term)] *)
Definition perform_search (search_term : string) : M B bool :=
    try_except
      (check_and_solve_captcha ;;;
       search_btn <-- drive (query_selector "#MainContent_btnSearchEntity") ;;
       match search_btn with
       | Some btn =>
           drive (click btn) ;;;
           check_and_solve_captcha ;;;
           ret true
       | None =>
           page_source <-- drive page_content ;;
           save_error_log search_term "Search button not found" page_source ;;;
           ret false
       end)
      any_exception
      (fun e =>
         page_source <-- drive page_content ;;
         save_error_log search_term ("Search failed: " +:+ str_of_exn e)
           page_source ;;;
         ret false).

  (** An entry of the list that [extract_business_links_from_results]
      returns: the keys ['name'], ['business_id'] and ['row_index']. *)
Record business_info := BusinessInfo {
    bi_name : string;
    bi_business_id : string;
    bi_row_index : nat
  }.

  (** The body of the [try] inside the row loop. *)
Definition read_result_row (row : H) (i : nat) : M B (option business_info) :=
    cells <-- drive (el_query_selector_all row "td") ;;
    match cells with
    | cell0 :: cell1 :: _ :: _ =>
        business_id <-- stripped_text cell0 ;;
        business_name <-- stripped_text cell1 ;;
        ret (if negb (String.eqb business_name "")
                && (1 <? String.length business_name)
             then Some (BusinessInfo business_name business_id i)
             else None)
    | _ => ret None
    end.

  (** [for i in range(1, len(rows))]: [rows] are the rows from index [i] on;
      a row that raises is skipped. *)
Fixpoint collect_rows (rows : list H) (i : nat) (businesses : list business_info)
      : M B (list business_info) :=
    match rows with
    | [] => ret businesses
    | row :: rest =>
        r <-- attempt (read_result_row row i) ;;
        match r with
        | Val (Some b) => collect_rows rest (S i) (businesses ++ [b])
        | _ => collect_rows rest (S i) businesses
        end
    end.

  (** [extract_business_links_from_results(self, search_term)]: the outer
      handler can only be reached before the loop, with [businesses] empty. *)
Definition extract_business_links_from_results (search_term : string)
      : M B (list business_info) :=
    try_except
      (results_table <-- drive (query_selector "table.gvResults") ;;
       match results_table with
       | None => ret []
       | Some table =>
           rows <-- drive (el_query_selector_all table "tr") ;;
           collect_rows (tl rows) 1 []
       end)
      any_exception
      (fun e =>
         page_source <-- drive page_content ;;
         save_error_log search_term
           ("Business links extraction error: " +:+ str_of_exn e) page_source ;;;
         ret []).

  (** [click_business_by_index(self, business_info, search_term)] *)
Definition click_business_by_index (business : business_info) (search_term : string)
      : M B bool :=
    try_except
      (results_table <-- drive (query_selector "table.gvResults") ;;
       match results_table with
       | None => ret false
       | Some table =>
           rows <-- drive (el_query_selector_all table "tr") ;;
           match nth_error rows (bi_row_index business) with
           | Some target_row =>
               select_button <--
                 drive (el_query_selector target_row "input[value='Select Business']") ;;
               match select_button with
               | Some btn =>
                   drive (click btn) ;;;
                   check_and_solve_captcha ;;;
                   business_id_element <--
                     drive (query_selector "#MainContent_lblEntityID") ;;
                   match business_id_element with
                   | Some _ => ret true
                   | None =>
                       page_source <-- drive page_content ;;
                       save_error_log search_term
                         ("Failed to reach detail page for " +:+ bi_name business)
                         page_source ;;;
                       ret false
                   end
               | None =>
                   page_source <-- drive page_content ;;
                   save_error_log search_term
                     ("Select button not found for " +:+ bi_name business)
                     page_source ;;;
                   ret false
               end
           | None => ret false
           end
       end)
      any_exception
      (fun e =>
         page_source <-- drive page_content ;;
         save_error_log search_term
           ("Click business error for " +:+ bi_name business +:+ ": " +:+
            str_of_exn e) page_source ;;;
         ret false).

  (** [return_to_search_results(self)] *)
Definition return_to_search_results : M B bool :=
    try_except
      (return_btn <-- drive (query_selector "#MainContent_btnReturnToSearchResults") ;;
       match return_btn with
       | Some btn => drive (click btn)
       | None => drive go_back
       end ;;;
       ret true)
      any_exception
      (fun _ => ret false).

  (** [re.sub(r'[^\w]', '_', name)[:30]] *)
Definition clean_name (business_name : string) : string :=
    PyStr.take 30 (PyStr.sub_non_word business_name).

  (** The choice of the file name for one record, as in the row loop of
      [run_fully_automated_crawler]. *)
Definition artifact_filename (details : dict) (search_term : string) : M B string :=
    match Dict.get "business_name" details with
    | Some v =>
        if truthy v then
          match v with
          | PStr business_name =>
              ret ("json/business_" +:+ clean_name business_name +:+ ".json")
          | _ => raise (Exn TypeError "expected string or bytes-like object")
          end
        else
          t <-- now ;;
          ret ("json/error_" +:+ search_term +:+ "_" +:+ Time.hms t +:+ ".json")
    | None =>
        t <-- now ;;
        ret ("json/error_" +:+ search_term +:+ "_" +:+ Time.hms t +:+ ".json")
    end.

  (** What the loops of the coordinator carry along: [all_business_data] and
      [total_companies_collected]. *)
Definition tally : Type := list pyvalue * nat.

  (** The statements of the row loop under a successful click, up to the
      return to the result list. *)
Definition process_details (search_term : string) (business : business_info)
      (acc : tally) : M B tally :=
    details <-- extract_business_details_robust search_term ;;
    match details with
    | PDict d =>
        if truthy details then
          filename <-- artifact_filename d search_term ;;
          save_data_with_fallback details filename ;;;
          if eq_str (Dict.get_or_none "status" d) "success"
          then ret (fst acc ++ [details], S (snd acc))
          else ret acc
        else
          page_source <-- drive page_content ;;
          save_error_log search_term ("Invalid data for " +:+ bi_name business)
            page_source ;;;
          ret acc
    | _ =>
        page_source <-- drive page_content ;;
        save_error_log search_term ("Invalid data for " +:+ bi_name business)
          page_source ;;;
        ret acc
    end.

  (** [for i, business in enumerate(businesses[:3])]: [todo] are the entries
      still to visit.  The loop leaves by [break] when the return to the
      result list fails. *)
Fixpoint process_rows (search_term : string) (todo : list business_info)
      (acc : tally) : M B tally :=
    match todo with
    | [] => ret acc
    | business :: rest =>
        clicked <-- click_business_by_index business search_term ;;
        if clicked then
          acc <-- process_details search_term business acc ;;
          match rest with
          | [] => ret acc
          | _ :: _ =>
              back <-- return_to_search_results ;;
              if back then process_rows search_term rest acc else ret acc
          end
        else process_rows search_term rest acc
    end.

  (** [try: goto(search page); check captcha  except Exception: log] *)
Definition back_to_search_page : M B unit :=
    try_except
      (drive (goto search_url) ;;;
       check_and_solve_captcha ;;;
       ret tt)
      any_exception
      (fun _ => ret tt).

  (** One turn of the loop over the search terms; [is_last] stands for
      [search_term == search_terms[-1]]. *)
Definition process_term (search_term : string) (is_last : bool) (acc : tally)
      : M B tally :=
    ready <-- automated_search_setup search_term ;;
    if negb ready then
      page_source <-- drive page_content ;;
      save_error_log search_term "Search setup failed" page_source ;;;
      ret acc
    else
      searched <-- perform_search search_term ;;
      if negb searched then ret acc
      else
        businesses <-- extract_business_links_from_results search_term ;;
        match businesses with
        | [] => back_to_search_page ;;; ret acc
        | _ :: _ =>
            acc <-- process_rows search_term (firstn 3 businesses) acc ;;
            (if is_last then ret tt else back_to_search_page) ;;;
            ret acc
        end.

Definition search_terms : list string :=
    ["AA"; "AAB"; "AAC"; "LLC"; "INC"; "CORP"; "SERVICE"; "KANSAS"].

Fixpoint process_terms (terms : list string) (last_term : string) (acc : tally)
      : M B tally :=
    match terms with
    | [] => ret acc
    | search_term :: rest =>
        acc <-- process_term search_term (String.eqb search_term last_term) acc ;;
        process_terms rest last_term acc
    end.

  (** The closing block: the combined artifact, written only when some record
      was collected.  The summary printed after the save reads
      [biz['business_name']] inside the same [try]. *)
Definition save_combined (all_business_data : list pyvalue) : M B unit :=
    match all_business_data with
    | [] => ret tt
    | _ :: _ =>
        t <-- now ;;
        let combined_filename := "all_businesses_" +:+ Time.stamp t +:+ ".json" in
        try_except
          (t' <-- now ;;
           let combined_data :=
             [("total_companies", PInt (Z.of_nat (length all_business_data)));
              ("search_terms_used", PList (map PStr search_terms));
              ("extraction_date", PStr (Time.isoformat t'));
              ("companies", PList all_business_data)] in
           save_data_with_fallback (PDict combined_data) combined_filename ;;;
           if forallb (fun biz =>
                         match biz with
                         | PDict d => Dict.mem "business_name" d
                         | _ => false
                         end)
                (firstn 5 (List.filter (fun biz =>
                                     match biz with
                                     | PDict d => eq_str (Dict.get_or_none "status" d) "success"
                                     | _ => false
                                     end) all_business_data))
           then ret tt
           else raise (Exn KeyError "'business_name'"))
          any_exception
          (fun _ => ret tt)
    end.

  (** [close(self)] *)
Definition close : M B unit :=
    try_except (drive close_session) any_exception (fun _ => ret tt).

  (** [run_fully_automated_crawler(self)] *)
Definition run_fully_automated_crawler : M B unit :=
    reached <-- navigate_to_homepage_first ;;
    if negb reached then ret tt
    else
      acc <-- process_terms search_terms (List.last search_terms "") ([], 0) ;;
      save_combined (fst acc) ;;;
      close.

End Crawler.

(** ** A scripted site

    A concrete [PageDriver] for running the crawler: every page is a table
    of answers to the queries made on it, an element is its own handle, and
    navigation follows a fixed map. *)

Module Sim.

  #[local] Unset Elimination Schemes.

Inductive elem := Elem {
    el_text : result (option string);
    el_checked : bool;
    el_sub : list (string * result (list elem));
    el_click : option page
  }
  with page := Page {
    pg_url : string;
    pg_title : string;
    pg_markup : result string;
    pg_query : list (string * result (list elem))
  }.

  #[local] Set Elimination Schemes.

Record session := Session {
    current : page;
    sitemap : list (string * page);
    history : list page
  }.

Fixpoint answer (selector : string) (table : list (string * result (list elem)))
      : result (list elem) :=
    match table with
    | [] => Val []
    | (s, r) :: rest => if String.eqb selector s then r else answer selector rest
    end.

Definition first_of (r : result (list elem)) : result (option elem) :=
    match r with
    | Val els => Val (head els)
    | Raise e => Raise e
    end.

Fixpoint find_page (url : string) (m : list (string * page)) : option page :=
    match m with
    | [] => None
    | (u, p) :: rest => if String.eqb url u then Some p else find_page url rest
    end.

Definition show (p : page) (s : session) : session :=
    Session p (sitemap s) (current s :: history s).

Definition sim_goto (url : string) (s : session) : result unit * session :=
    match find_page url (sitemap s) with
    | Some p => (Val tt, show p s)
    | None => (Raise (Exn DriverError ("net::ERR_NAME_NOT_RESOLVED at " +:+ url)), s)
    end.

Definition sim_go_back (s : session) : result unit * session :=
    match history s with
    | p :: h => (Val tt, Session p (sitemap s) h)
    | [] => (Val tt, s)
    end.

Definition sim_click (el : elem) (s : session) : result unit * session :=
    match el_click el with
    | Some p => (Val tt, show p s)
    | None => (Val tt, s)
    end.

#[global] Instance driver : PageDriver session elem := {
    goto := sim_goto;
    go_back := sim_go_back;
    page_url := fun s => pg_url (current s);
    page_title := fun s => (Val (pg_title (current s)), s);
    page_content := fun s => (pg_markup (current s), s);
    query_selector := fun sel s => (first_of (answer sel (pg_query (current s))), s);
    query_selector_all := fun sel s => (answer sel (pg_query (current s)), s);
    el_query_selector := fun el sel s => (first_of (answer sel (el_sub el)), s);
    el_query_selector_all := fun el sel s => (answer sel (el_sub el), s);
    text_content := fun el s => (el_text el, s);
    click := sim_click;
    fill := fun _ _ s => (Val tt, s);
    is_checked := fun el s => (Val (el_checked el), s);
    close_session := fun s => (Val tt, s)
  }.

  (** An element that only carries text. *)
Definition text_el (s : string) : elem := Elem (Val (Some s)) false [] None.

  (** A table row with the given cell texts. *)
Definition row_of (cells : list string) : elem :=
    Elem (Val (Some "")) false
      [("td, th", Val (map text_el cells)); ("td", Val (map text_el cells))] None.

Definition table_of (rows : list (list string)) : elem :=
    Elem (Val (Some "")) false [("tr", Val (map row_of rows))] None.

  (** [open] succeeds exactly in the directories listed. *)
Definition posix (dirs : list string) (path : string) : result unit :=
    if existsb (String.eqb (Path.dirname path)) dirs then Val tt
    else Raise (Exn OSError ("[Errno 2] No such file or directory: " +:+
                             PyRepr.repr_str path)).

  (** The directories that [setup_directories] creates. *)
Definition output_dirs : list string :=
    ["kansas_business_data"; "kansas_business_data/json";
     "kansas_business_data/html_fallback"; "kansas_business_data/errors"].

Definition seconds (n : nat) : datetime := DateTime 2026 11 4 10 (n / 60) (n mod 60) 0.

Definition start (p : page) (site : list (string * page)) (dirs : list string)
      : world session :=
    World (Session p site []) (FileSystem (posix dirs) ∅) seconds 0 [].

  (** What was written at [path]. *)
Definition file_at (path : string) (w : world session) : option (list chunk) :=
    files (fs w) !! path.

End Sim.

(** ** The sanitizer as the specification words it

    Each run of characters outside [\w] collapses to one filler character;
    the result is cut to the bound.  [in_run] tells whether the previous
    character already produced the filler. *)

Fixpoint collapse_non_word (in_run : bool) (s : string) : string :=
  match s with
  | EmptyString => EmptyString
  | String c s' =>
      if PyStr.is_word c then String c (collapse_non_word false s')
      else if in_run then collapse_non_word true s'
      else String "_"%char (collapse_non_word true s')
  end.

Definition spec_sanitized_name (business_name : string) : string :=
  PyStr.take 30 (collapse_non_word false business_name).

(** The table scan as the specification words it: an attribute that is
    already set is not overwritten. *)
Definition spec_first_wins_update (label value : string) (table_data : dict) : dict :=
  if negb (String.eqb label "") && negb (String.eqb value "")
  then match classify label with
       | Some key =>
           if Dict.mem key table_data then table_data
           else Dict.set key (PStr value) table_data
       | None => table_data
       end
  else table_data.

(** The rows of a page that the table scan acts on, as pairs of the stripped
    texts of the first two cells; rows with fewer than two cells are left
    out. *)
Definition labelled_rows (tables : list (list (list string)))
    : list (string * string) :=
  flat_map
    (fun rows =>
       flat_map
         (fun cells =>
            match cells with
            | c0 :: c1 :: _ => [(PyStr.strip c0, PyStr.strip c1)]
            | _ => []
            end) rows) tables.

(** The table scan on rows that were read without an exception. *)
Definition scan_pairs (rows : list (string * string)) (table_data : dict) : dict :=
  fold_left (fun d r => table_row_update (fst r) (snd r) d) rows table_data.

Definition spec_scan_pairs (rows : list (string * string)) (table_data : dict) : dict :=
  fold_left (fun d r => spec_first_wins_update (fst r) (snd r) d) rows table_data.

(** Whether a row reaches an assignment to [key]. *)
Definition assigns (key : string) (r : string * string) : bool :=
  negb (String.eqb (fst r) "") && negb (String.eqb (snd r) "") &&
  match classify (fst r) with
  | Some k => String.eqb k key
  | None => false
  end.

(** Every character of [s] satisfies [p]. *)
Fixpoint all_chars (p : ascii -> bool) (s : string) : bool :=
  match s with
  | EmptyString => true
  | String c s' => p c && all_chars p s'
  end.

(** ** Scenarios *)

Module Scenario.
Import Sim.

  (** A detail page on which no strategy finds anything. *)
Definition blank_page : page :=
    Page "https://www.sos.ks.gov/eforms/BusinessEntity/Detail.aspx" "Detail"
      (Val "<html><body>Nothing here</body></html>") [].

  (** A detail page without the element ids, whose table names the entity id
      twice. *)
Definition two_ids_tables : list (list (list string)) :=
    [[["Entity ID"; "1"]; ["Entity Name"; "Acme LLC"]; ["Entity ID"; "2"]]].

Definition two_ids_page : page :=
    Page "https://www.sos.ks.gov/eforms/BusinessEntity/Detail.aspx" "Detail"
      (Val "<html></html>")
      [("table", Val (map table_of two_ids_tables))].

  (** A page whose markup cannot be read. *)
Definition dead_page : page :=
    Page "about:blank" "" (Raise (Exn DriverError "Target page has been closed")) [].

  (** A detail page with the element ids of the portal. *)
Definition detail_page : page :=
    Page "https://www.sos.ks.gov/eforms/BusinessEntity/Detail.aspx" "Detail"
      (Val "<html><span id='MainContent_lblEntityName'>Acme, LLC</span></html>")
      [("#MainContent_lblEntityID", Val [text_el "1234567"]);
       ("#MainContent_lblEntityName", Val [text_el "Acme, LLC"]);
       ("#MainContent_lblEntityType", Val [text_el "LLC"])].

  (** The result list: a header row and one entity whose button leads to
      [detail_page]. *)
Definition result_row : elem :=
    Elem (Val (Some "")) false
      [("td", Val [text_el "1234567"; text_el "Acme, LLC"; text_el ""]);
       ("input[value='Select Business']",
        Val [Elem (Val (Some "")) false [] (Some detail_page)])]
      None.

Definition results_page : page :=
    Page "https://www.sos.ks.gov/eforms/BusinessEntity/Search.aspx" "Results"
      (Val "<html></html>")
      [("table.gvResults",
        Val [Elem (Val (Some "")) false
               [("tr", Val [row_of ["ID"; "Name"; ""]; result_row])] None])].

Definition search_page : page :=
    Page "https://www.sos.ks.gov/eforms/BusinessEntity/Search.aspx" "Business Search"
      (Val "<html></html>")
      [("#MainContent_rblSearchType_0", Val [Elem (Val (Some "")) true [] None]);
       ("#MainContent_rblNameSearchType_0", Val [Elem (Val (Some "")) true [] None]);
       ("#MainContent_txtSearchEntityName", Val [text_el ""]);
       ("#MainContent_btnSearchEntity",
        Val [Elem (Val (Some "")) false [] (Some results_page)])].

Definition home_page : page :=
    Page "https://sos.ks.gov/" "Kansas Secretary of State" (Val "<html></html>") [].

Definition portal : list (string * page) :=
    [("https://sos.ks.gov/", home_page);
     ("https://www.sos.ks.gov/eforms/BusinessEntity/Search.aspx", search_page)].

  (** A record that [json] cannot encode. *)
Definition unencodable : pyvalue :=
    PDict [("business_name", PStr "Acme"); ("filed", PObj "datetime" "datetime.datetime(2020, 1, 1, 0, 0)" true)].

Definition first_filing : dict :=
    [("business_id", PStr "1111111"); ("business_name", PStr "Acme LLC")].

Definition second_filing : dict :=
    [("business_id", PStr "2222222"); ("business_name", PStr "Acme LLC")].

  (** Name and save one record after the other, as the row loop does, under
      two search terms. *)
Definition persist_both : M session (string * string) :=
    f1 <-- artifact_filename first_filing "AA" ;;
    save_data_with_fallback (PDict first_filing) f1 ;;;
    f2 <-- artifact_filename second_filing "LLC" ;;
    save_data_with_fallback (PDict second_filing) f2 ;;;
    ret (f1, f2).


  (** The output directories without [json/]. *)
Definition no_json_dir : list string :=
    ["kansas_business_data"; "kansas_business_data/html_fallback";
     "kansas_business_data/errors"].

  (** A detail page without the element ids: in the first row of its table
      the label can be read and the value cannot; the rows after it name the
      entity. *)
Definition broken_row : elem :=
    Elem (Val (Some "")) false
      [("td, th",
        Val [text_el "Entity ID";
             Elem (Raise (Exn DriverError "Element is not attached to the DOM"))
               false [] None])]
      None.

Definition broken_row_page : page :=
    Page "https://www.sos.ks.gov/eforms/BusinessEntity/Detail.aspx" "Detail"
      (Val "<html></html>")
      [("table",
        Val [Elem (Val (Some "")) false
               [("tr", Val [broken_row;
                            row_of ["Entity Name"; "Acme LLC"];
                            row_of ["Entity ID"; "7"]])]
               None])].

End Scenario.

(** ** Vocabulary of the statements *)

Section Vocabulary.

Context {B El : Type} `{PageDriver B El}.

  (** [c] ends with a value in every world: it never raises. *)
Definition returns {A} (c : M B A) : Prop :=
    forall w, exists a w', c w = (Val a, w').

  (** [c] enters no extraction strategy. *)
Definition quiet {A} (c : M B A) : Prop :=
    forall w, tiers_run (snd (c w)) = tiers_run w.

End Vocabulary.

Definition address_keys : list string :=
    ["principal_office_address"; "registered_office_address"].

(** All keys of [d] are among [allowed]. *)
Definition within (allowed : list string) (d : dict) : Prop :=
  forall k, In k (Dict.keys d) -> In k allowed.

(** The attributes the table scan and the text patterns can produce. *)
Definition scanned_keys : list string := map snd keyword_groups.

(** The keys a record returned by [extract_business_details_robust] can have
    when its mapping comes from a scan. *)
Definition scanned_record_keys : list string :=
  scanned_keys ++
  ["search_term"; "extracted_at"; "status"; "html_content"; "error"; "timestamp";
   "error_type"; "error_message"; "scraped_at"; "html_fallback_file";
   "partial_business_data"].

(** The name [save_html_fallback] gives the capture taken at time [t]. *)
Definition fallback_path (filename_prefix error_type : string) (t : datetime) : string :=
  output_dir +:+ "/html_fallback/" +:+ filename_prefix +:+ "_" +:+ error_type +:+
  "_" +:+ Time.stamp t +:+ ".html".

(** The contents [save_html_fallback] writes. *)
Definition fallback_chunks (url html_content error_type : string) (t : datetime)
    : list chunk :=
  [Text ("<!-- Error Type: " +:+ error_type +:+ " -->" +:+ nl);
   Text ("<!-- Timestamp: " +:+ Time.stamp t +:+ " -->" +:+ nl);
   Text ("<!-- URL: " +:+ url +:+ " -->" +:+ nl);
   Text html_content].

(** The value under the sentinel key that marks raw-markup content. *)
Definition sentinel (data : pyvalue) : option pyvalue :=
  match data with
  | PDict d => Dict.get "html_content" d
  | _ => None
  end.


(** ** Further vocabulary *)

(** The name [save_error_log] gives the error record taken at time [t]. *)
Definition error_log_path (search_term : string) (t : datetime) : string :=
  output_dir +:+ "/errors/error_" +:+ search_term +:+ "_" +:+ Time.stamp t +:+ ".json".

(** The record [save_error_log] dumps. *)
Definition error_log_record (search_term error_message url : string) (t : datetime)
    : pyvalue :=
  PDict [("search_term", PStr search_term);
         ("error_message", PStr error_message);
         ("timestamp", PStr (Time.stamp t));
         ("url", PStr url);
         ("error_type", PStr "crawling_error")].

(** Every value of [d] is a string. *)
Definition all_text (d : dict) : bool :=
  forallb (fun kv => match snd kv with PStr _ => true | _ => false end) d.

Section Outcomes.

Context {B : Type}.

(** Whenever [c] ends with a value, the value satisfies [Q]. *)
Definition ensures {A} (c : M B A) (Q : A -> Prop) : Prop :=
  forall w a w', c w = (Val a, w') -> Q a.

(** [c] leaves the part [f] of the world as it is, whether it returns or
    raises. *)
Definition keeps {X A} (f : world B -> X) (c : M B A) : Prop :=
  forall w, f (snd (c w)) = f w.

(** The part [f] of the world does not depend on the browser session, or on
    the ghost trace. *)
Definition ignores_browser {X} (f : world B -> X) : Prop :=
  forall b w, f (World b (fs w) (clock w) (ticks w) (tiers_run w)) = f w.

Definition ignores_trace {X} (f : world B -> X) : Prop :=
  forall t w, f (World (browser w) (fs w) (clock w) (ticks w) t) = f w.

End Outcomes.

(** What the result list of a search promises about its entries: the header
    row is never among them, a name has at least two characters, and the row
    indices grow strictly. *)
Definition well_formed_links (businesses : list business_info) : Prop :=
  Forall (fun b => 1 <= bi_row_index b /\ 2 <= String.length (bi_name b)) businesses
  /\ StronglySorted lt (map bi_row_index businesses).

(** A record tagged as a success. *)
Definition tagged_success (v : pyvalue) : Prop :=
  exists d, v = PDict d /\ Dict.get "status" d = Some (PStr "success").

(** The coordinator's accumulators [after] extend those [before] by at most
    [n] records, each tagged as a success, and the counter moves with the
    list. *)
Definition grows_by (n : nat) (before after : list pyvalue * nat) : Prop :=
  exists new,
    fst after = fst before ++ new
    /\ snd after = snd before + length new
    /\ length new <= n
    /\ Forall tagged_success new.

Section Original.

Context {B H : Type} `{PageDriver B H}.

(** [save_data(self, data, filename)], the save method kept beside the
    enhanced one: the same writes, without any [try]. *)
Definition save_data (data : pyvalue) (filename : string) : M B pyvalue :=
  let filepath := Path.join output_dir filename in
  match data with
  | PDict d =>
      match Dict.get "html_content" d with
      | Some html =>
          open_w filepath ;;;
          write_value filepath html ;;;
          ret (PStr filepath)
      | None =>
          open_w filepath ;;;
          json_dump data filepath ;;;
          ret (PStr filepath)
      end
  | _ =>
      open_w filepath ;;;
      json_dump data filepath ;;;
      ret (PStr filepath)
  end.

(** What a successful save leaves in the file. *)
Definition stored (data : pyvalue) : chunk :=
  match data with
  | PDict d =>
      match Dict.get "html_content" d with
      | Some (PStr s) => Text s
      | _ => JsonText data
      end
  | _ => JsonText data
  end.

(** The page markup can be read in every state of the browser. *)
Definition markup_readable : Prop :=
  forall b : B, exists html b', page_content b = (Val html, b').

End Original.

(** A browser that shows one empty page: every query finds nothing, every
    action is accepted, and the markup can always be read. *)
Module Still.

#[global] Instance driver : PageDriver unit unit := {
  goto := fun _ b => (Val tt, b);
  go_back := fun b => (Val tt, b);
  page_url := fun _ => "about:blank";
  page_title := fun b => (Val "", b);
  page_content := fun b => (Val "<html><head></head><body></body></html>", b);
  query_selector := fun _ b => (Val None, b);
  query_selector_all := fun _ b => (Val [], b);
  el_query_selector := fun _ _ b => (Val None, b);
  el_query_selector_all := fun _ _ b => (Val [], b);
  text_content := fun _ b => (Val (Some ""), b);
  click := fun _ b => (Val tt, b);
  fill := fun _ _ b => (Val tt, b);
  is_checked := fun _ b => (Val false, b);
  close_session := fun b => (Val tt, b)
}.

Definition start : world unit :=
  World tt (FileSystem (Sim.posix Sim.output_dirs) ∅) Sim.seconds 0 [].

End Still.

Section Entry.

Context {B H : Type} `{PageDriver B H}.

(** [try: c  finally: f]: [f] runs whatever [c] did; the outcome of [c]
    stands unless [f] raises. *)
Definition finally {A} (c : M B A) (f : M B unit) : M B A :=
  r <-- attempt c ;;
  f ;;;
  of_result r.

(** [main()], from its [try] statement on; the constructor call before it
    builds the session and the output directories, the world [main] starts
    in.  Both [except] clauses only print and log. *)
Definition main : M B unit :=
  finally
    (try_except run_fully_automated_crawler any_exception (fun _ => ret tt))
    close.

End Entry.

(** No ['<'] occurs in [s]. *)
Definition markup_free (s : string) : bool :=
  all_chars (fun c => negb (Ascii.eqb "<"%char c)) s.

(** Every value of [d] is a string that satisfies [p]. *)
Definition all_values (p : string -> bool) (d : dict) : bool :=
  forallb (fun kv => match snd kv with PStr s => p s | _ => false end) d.

(** A record with a [status] and the search term it belongs to. *)
Definition tagged_record (search_term : string) (record : pyvalue) : Prop :=
  exists d, record = PDict d
            /\ Dict.mem "status" d = true
            /\ Dict.get "search_term" d = Some (PStr search_term).

(** ** What the strategies read

    The answers of the browser that the strategies act on, read off the
    driver directly: each function below makes the same queries in the same
    order as the strategy it describes and threads the state of the browser
    through them. *)

Section Readings.

Context {B H : Type} `{PageDriver B H}.

(** The lookup of [selector] fails in state [b]: the query raises or finds
    nothing, or the text of the element found cannot be read. *)
Definition lookup_fails (selector : string) (b : B) : Prop :=
  match query_selector selector b with
  | (Val (Some el), b') =>
      match text_content el b' with
      | (Val (Some _), _) => False
      | _ => True
      end
  | _ => True
  end.

(** The browser after the lookup of [selector]. *)
Definition after_lookup (selector : string) (b : B) : B :=
  match query_selector selector b with
  | (Val (Some el), b') => snd (text_content el b')
  | (_, b') => b'
  end.

(** The texts of the elements [ids], looked up one after the other from
    state [b] on, with the state after the last lookup. *)
Fixpoint texts_at (ids : list (string * string)) (b : B)
    : list (string * string) * B :=
  match ids with
  | [] => ([], b)
  | (key, selector) :: rest =>
      let '(texts, b') := texts_at rest (after_lookup selector b) in
      ((key, element_text selector b) :: texts, b')
  end.

(** An address from its four texts: the address line and the line
    ["city, state zip"] with blanks and commas stripped off its ends, joined
    by [" | "], each left out when empty. *)
Definition assemble_address (address1 city state zip_code : string) : string :=
  let address_parts := if negb (String.eqb address1 "") then [address1] else [] in
  let address_parts :=
    if negb (String.eqb city "") || negb (String.eqb state "")
       || negb (String.eqb zip_code "")
    then
      let location :=
        PyStr.strip_chars " ," (city +:+ ", " +:+ state +:+ " " +:+ zip_code) in
      if negb (String.eqb location "") then address_parts ++ [location]
      else address_parts
    else address_parts in
  match address_parts with
  | [] => ""
  | _ => PyStr.join " | " address_parts
  end.

(** The address with the element ids [prefix...], looked up from state [b]
    on. *)
Definition address_at (prefix : string) (b : B) : string * B :=
  let b1 := after_lookup (prefix +:+ "Address") b in
  let b2 := after_lookup (prefix +:+ "AddressCity") b1 in
  let b3 := after_lookup (prefix +:+ "AddressState") b2 in
  (assemble_address
     (element_text (prefix +:+ "Address") b)
     (element_text (prefix +:+ "AddressCity") b1)
     (element_text (prefix +:+ "AddressState") b2)
     (element_text (prefix +:+ "AddressZip") b3),
   after_lookup (prefix +:+ "AddressZip") b3).

(** The mapping of the direct-locator strategy in state [b]: the twelve
    attributes in the order of the assignments, each with the text that its
    lookup gave, and the state after the last lookup. *)
Definition ids_reading (b : B) : dict * B :=
  let '(texts, b1) := texts_at element_ids b in
  let '(principal, b2) := address_at "#MainContent_lblPO" b1 in
  let '(registered, b3) := address_at "#MainContent_lblRO" b2 in
  (map (fun kv => (fst kv, PStr (snd kv)))
     (texts ++ [("principal_office_address", principal);
                ("registered_office_address", registered)]),
   b3).

(** [cell.text_content().strip()] *)
Definition cell_text (cell : H) (b : B) : result string * B :=
  match text_content cell b with
  | (Val (Some s), b') => (Val (PyStr.strip s), b')
  | (Val None, b') =>
      (Raise (Exn AttributeError "'NoneType' object has no attribute 'strip'"), b')
  | (Raise e, b') => (Raise e, b')
  end.

(** One row of a table as the scan reads it: the stripped texts of its first
    two cells, nothing for a row with fewer than two cells; the exception if
    the cells or a text cannot be read. *)
Definition read_row (row : H) (b : B) : result (list (string * string)) * B :=
  match el_query_selector_all row "td, th" b with
  | (Val (cell0 :: cell1 :: _), b1) =>
      match cell_text cell0 b1 with
      | (Val label, b2) =>
          match cell_text cell1 b2 with
          | (Val value, b3) => (Val [(label, value)], b3)
          | (Raise e, b3) => (Raise e, b3)
          end
      | (Raise e, b2) => (Raise e, b2)
      end
  | (Val _, b1) => (Val [], b1)
  | (Raise e, b1) => (Raise e, b1)
  end.

(** The rows read, in document order, up to the first read that raises;
    with that exception, if there was one. *)
Fixpoint read_rows (rows : list H) (b : B)
    : list (string * string) * option exn * B :=
  match rows with
  | [] => ([], None, b)
  | row :: rest =>
      match read_row row b with
      | (Val pairs, b1) =>
          let '(later, x, b2) := read_rows rest b1 in (pairs ++ later, x, b2)
      | (Raise e, b1) => ([], Some e, b1)
      end
  end.

Fixpoint read_tables (tables : list H) (b : B)
    : list (string * string) * option exn * B :=
  match tables with
  | [] => ([], None, b)
  | table :: rest =>
      match el_query_selector_all table "tr" b with
      | (Val rows, b1) =>
          match read_rows rows b1 with
          | (pairs, None, b2) =>
              let '(later, x, b3) := read_tables rest b2 in (pairs ++ later, x, b3)
          | (pairs, Some e, b2) => (pairs, Some e, b2)
          end
      | (Raise e, b1) => ([], Some e, b1)
      end
  end.

(** The rows of the page in state [b] that the table scan gets to read, with
    the state after the scan. *)
Definition page_rows (b : B) : list (string * string) * B :=
  match query_selector_all "table" b with
  | (Val tables, b1) =>
      let '(pairs, _, b2) := read_tables tables b1 in (pairs, b2)
  | (Raise _, b1) => ([], b1)
  end.

Definition rows_read (b : B) : list (string * string) := fst (page_rows b).

(** The mapping of the table scan in state [b]. *)
Definition tables_reading (b : B) : dict * B :=
  (scan_pairs (rows_read b) [], snd (page_rows b)).

(** The mapping of the text patterns in state [b]: nothing when the markup
    cannot be read. *)
Definition text_reading (b : B) : dict * B :=
  match page_content b with
  | (Val page_text, b') => (scan_text patterns page_text [], b')
  | (Raise _, b') => ([], b')
  end.

(** The mapping of the chain of strategies in state [b]: that of the first
    strategy, in their order, that gives a [business_name]; that of the text
    patterns otherwise. *)
Definition fields_reading (b : B) : dict :=
  let '(d1, b1) := ids_reading b in
  if has "business_name" d1 then d1
  else
    let '(d2, b2) := tables_reading b1 in
    if has "business_name" d2 then d2
    else fst (text_reading b2).

End Readings.

(** The session log, which the handlers of [logging] append to.  The crawler
    never opens it itself, and [files] does not follow it: what is said below
    about files that stay as they are leaves this path out. *)
Definition log_path : string := output_dir +:+ "/crawler.log".

(** The files [after] are the files [before], the session log apart. *)
Definition apart_from_log (before after : gmap string (list chunk)) : Prop :=
  forall p, p <> log_path -> after !! p = before !! p.

(** * Properties *)

(** ** Strings and dicts *)

Lemma take_length (n : nat) (s : string) :
  String.length (PyStr.take n s) = Nat.min n (String.length s).
Proof.
  revert s; induction n as [|n IH]; intros [|c s]; simpl; auto.
Qed.

Lemma map_chars_length (f : ascii -> ascii) (s : string) :
  String.length (PyStr.map_chars f s) = String.length s.
Proof. induction s as [|c s IH]; simpl; congruence. Qed.

Lemma take_map_chars (f : ascii -> ascii) (n : nat) (s : string) :
  PyStr.take n (PyStr.map_chars f s) = PyStr.map_chars f (PyStr.take n s).
Proof.
  revert s; induction n as [|n IH]; intros [|c s]; simpl; auto.
  now rewrite IH.
Qed.

Lemma all_chars_take (p : ascii -> bool) (n : nat) (s : string) :
  all_chars p s = true -> all_chars p (PyStr.take n s) = true.
Proof.
  revert s; induction n as [|n IH]; intros [|c s]; simpl; auto.
  intros Hc. apply andb_true_iff in Hc as [Hc Hs].
  rewrite Hc. simpl. auto.
Qed.

Lemma sub_non_word_words (s : string) :
  all_chars PyStr.is_word (PyStr.sub_non_word s) = true.
Proof.
  unfold PyStr.sub_non_word.
  induction s as [|c s IH]; simpl; auto.
  rewrite IH, andb_true_r.
  destruct (PyStr.is_word c) eqn:Hc; [exact Hc | reflexivity].
Qed.

Lemma dict_get_set_same (k : string) (v : pyvalue) (d : dict) :
  Dict.get k (Dict.set k v d) = Some v.
Proof.
  induction d as [|[k' v'] d IH]; simpl.
  - now rewrite String.eqb_refl.
  - destruct (String.eqb k k') eqn:E; simpl; rewrite ?String.eqb_refl, ?E; auto.
Qed.

Lemma dict_get_set_other (k k' : string) (v : pyvalue) (d : dict) :
  k <> k' -> Dict.get k (Dict.set k' v d) = Dict.get k d.
Proof.
  intros Hne. induction d as [|[k0 v0] d IH]; simpl.
  - apply String.eqb_neq in Hne. now rewrite Hne.
  - destruct (String.eqb k' k0) eqn:E; simpl.
    + apply String.eqb_eq in E. subst k0.
      apply String.eqb_neq in Hne. now rewrite Hne.
    + destruct (String.eqb k k0); auto.
Qed.

Lemma dict_keys_set_new (k : string) (v : pyvalue) (d : dict) :
  Dict.get k d = None -> Dict.keys (Dict.set k v d) = Dict.keys d ++ [k].
Proof.
  unfold Dict.keys. induction d as [|[k' v'] d IH]; simpl; auto.
  destruct (String.eqb k k') eqn:E; [discriminate|].
  intros Hd. simpl. now rewrite IH.
Qed.

(** Setting a key adds at most that key. *)
Lemma dict_set_keys_incl (k : string) (v : pyvalue) (d : dict) (x : string) :
  In x (Dict.keys (Dict.set k v d)) -> x = k \/ In x (Dict.keys d).
Proof.
  unfold Dict.keys. induction d as [|[k' v'] d IH]; simpl.
  - intros [<-|[]]; auto.
  - destruct (String.eqb k k') eqn:E; simpl.
    + apply String.eqb_eq in E. subst k'. intros [<-|Hin]; auto.
    + intros [<-|Hin]; auto. destruct (IH Hin); auto.
Qed.

Lemma dict_get_none_keys (k : string) (d : dict) :
  ~ In k (Dict.keys d) -> Dict.get k d = None.
Proof.
  unfold Dict.keys. induction d as [|[k' v'] d IH]; simpl; auto.
  intros Hn. destruct (String.eqb k k') eqn:E.
  - apply String.eqb_eq in E. subst. tauto.
  - apply IH. tauto.
Qed.

Lemma val_pair_inj {A W : Type} (a b : A) (w w' : W) :
  (Val a, w) = (Val b, w') -> a = b /\ w = w'.
Proof. intros E. inversion E. auto. Qed.

(** [json.dumps] fails with a [TypeError] only. *)
Lemma json_check_type_error (v : pyvalue) (e : exn) :
  json_check v = Raise e -> is_serialization_error e = true.
Proof.
  revert v e.
  fix IH 1. intros [| | | |l|d|ty r t] e; simpl; try discriminate.
  - induction l as [|x l IHl]; [discriminate|].
    destruct (json_check x) eqn:Ex.
    + exact IHl.
    + intros [= <-]. exact (IH x _ Ex).
  - induction d as [|[k x] d IHd]; [discriminate|].
    destruct (json_check x) eqn:Ex.
    + exact IHd.
    + intros [= <-]. exact (IH x _ Ex).
  - intros [= <-]. reflexivity.
Qed.

(** ** C6: the file name derived from a business name *)

(** C6, as the code has it: the identifier derived from a business name
    replaces every character outside [\w] by one underscore, character by
    character (a run of [k] such characters becomes [k] underscores), and is
    cut to at most 30 characters; its length is the smaller of 30 and the
    length of the name, and it consists of word characters only. *)
Theorem clean_name_replaces_each_character (business_name : string) :
  clean_name business_name =
    PyStr.map_chars (fun c => if PyStr.is_word c then c else "_"%char)
      (PyStr.take 30 business_name)
  /\ String.length (clean_name business_name) =
       Nat.min 30 (String.length business_name)
  /\ all_chars PyStr.is_word (clean_name business_name) = true.
Proof.
  unfold clean_name. repeat split.
  - unfold PyStr.sub_non_word. apply take_map_chars.
  - rewrite take_length. unfold PyStr.sub_non_word.
    now rewrite map_chars_length.
  - apply all_chars_take, sub_non_word_words.
Qed.

(** C6 fails as stated: on ["Acme, LLC & Co."] the code keeps one underscore
    per character, where collapsing the runs would give ["Acme_LLC_Co_"]. *)
Lemma clean_name_keeps_runs :
  clean_name "Acme, LLC & Co." = "Acme__LLC___Co_"
  /\ spec_sanitized_name "Acme, LLC & Co." = "Acme_LLC_Co_"
  /\ clean_name "Acme, LLC & Co." <> spec_sanitized_name "Acme, LLC & Co.".
Proof. repeat split. vm_compute. discriminate. Qed.

(** ** Methods that return, and methods that leave the ghost trace alone *)

Section Facts.

Context {B El : Type} `{PageDriver B El}.

Lemma returns_ret {A} (a : A) : returns (ret a : M B A).
  Proof. intros w. now exists a, w. Qed.

Lemma returns_bind {A C} (c : M B A) (k : A -> M B C) :
    returns c -> (forall a, returns (k a)) -> returns (bind c k).
  Proof.
    intros Hc Hk w. destruct (Hc w) as (a & w' & E).
    unfold bind. rewrite E. apply Hk.
  Qed.

Lemma returns_guarded {A} (c : M B A) (handler : exn -> M B A) :
    (forall e, returns (handler e)) -> returns (try_except c any_exception handler).
  Proof.
    intros Hh w. unfold try_except.
    destruct (c w) as [[a|e] w'].
    - now exists a, w'.
    - simpl. apply Hh.
  Qed.

Lemma returns_attempt {A} (c : M B A) : returns (attempt c).
  Proof.
    intros w. unfold attempt. destruct (c w) as [r w']. now exists r, w'.
  Qed.

Lemma returns_now : returns (now : M B datetime).
  Proof. intros w. eexists _, _. reflexivity. Qed.

Lemma returns_enter (t : tier) : returns (enter t : M B unit).
  Proof. intros w. eexists _, _. reflexivity. Qed.

Lemma quiet_ret {A} (a : A) : quiet (ret a : M B A).
  Proof. intros w. reflexivity. Qed.

Lemma quiet_raise {A} (e : exn) : quiet (raise e : M B A).
  Proof. intros w. reflexivity. Qed.

Lemma quiet_of_result {A} (r : result A) : quiet (of_result r : M B A).
  Proof. intros w. reflexivity. Qed.

Lemma quiet_bind {A C} (c : M B A) (k : A -> M B C) :
    quiet c -> (forall a, quiet (k a)) -> quiet (bind c k).
  Proof.
    intros Hc Hk w. unfold bind. specialize (Hc w).
    destruct (c w) as [[a|e] w']; simpl in *.
    - now rewrite Hk.
    - exact Hc.
  Qed.

Lemma quiet_try {A} (c : M B A) (p : exn -> bool) (handler : exn -> M B A) :
    quiet c -> (forall e, quiet (handler e)) -> quiet (try_except c p handler).
  Proof.
    intros Hc Hh w. unfold try_except. specialize (Hc w).
    destruct (c w) as [[a|e] w']; simpl in *; auto.
    destruct (p e); simpl; auto. now rewrite Hh.
  Qed.

Lemma quiet_attempt {A} (c : M B A) : quiet c -> quiet (attempt c).
  Proof.
    intros Hc w. unfold attempt. specialize (Hc w).
    destruct (c w) as [r w']. exact Hc.
  Qed.

Lemma quiet_drive {A} (op : B -> result A * B) : quiet (drive op).
  Proof. intros w. unfold drive. now destruct (op (browser w)). Qed.

Lemma quiet_now : quiet (now : M B datetime).
  Proof. intros w. reflexivity. Qed.

Lemma quiet_open_w (path : string) : quiet (open_w path : M B unit).
  Proof. intros w. unfold open_w. now destruct (can_open (fs w) path). Qed.

Lemma quiet_write (path : string) (c : chunk) : quiet (write path c : M B unit).
  Proof. intros w. reflexivity. Qed.

Lemma quiet_read {A} (f : world B -> A) : quiet (fun w : world B => (Val (f w), w)).
  Proof. intros w. reflexivity. Qed.

Lemma quiet_json_dump (v : pyvalue) (path : string) :
    quiet (json_dump v path : M B unit).
  Proof.
    unfold json_dump. destruct (json_check v).
    - apply quiet_write.
    - apply quiet_bind; [apply quiet_write | intros; apply quiet_raise].
  Qed.

End Facts.

(** Decompose a goal [quiet c] or [returns c] along the structure of [c]. *)
Ltac quiet_step :=
  first
    [ apply quiet_ret | apply quiet_raise | apply quiet_of_result
    | apply quiet_now | apply quiet_drive | apply quiet_open_w
    | apply quiet_write | apply quiet_json_dump | apply quiet_read
    | assumption
    | apply quiet_bind; [| intros ?]
    | apply quiet_try; [| intros ?]
    | apply quiet_attempt
    | match goal with
      | |- quiet (match ?x with _ => _ end) => destruct x
      | |- quiet (if ?b then _ else _) => destruct b
      end ].

Ltac quiet_auto := cbv zeta; repeat quiet_step.

Ltac returns_step :=
  first
    [ apply returns_ret | apply returns_now | apply returns_enter
    | apply returns_attempt | assumption
    | apply returns_guarded; intros ?
    | apply returns_bind; [| intros ?]
    | match goal with
      | |- returns (match ?x with _ => _ end) => destruct x
      | |- returns (if ?b then _ else _) => destruct b
      end ].

Ltac returns_auto := cbv zeta; repeat returns_step.

Section Extraction.

Context {B El : Type} `{PageDriver B El}.

Lemma quiet_save_html_fallback (html pre ty : string) :
    quiet (save_html_fallback html pre ty).
  Proof. unfold save_html_fallback. quiet_auto. Qed.

Lemma quiet_save_error_log (st msg src : string) :
    quiet (save_error_log st msg src).
  Proof.
    unfold save_error_log. quiet_auto; apply quiet_save_html_fallback.
  Qed.

Lemma quiet_safe_extract_json_data (v : pyvalue) (st : string) :
    quiet (safe_extract_json_data v st).
  Proof.
    unfold safe_extract_json_data. quiet_auto; apply quiet_save_html_fallback.
  Qed.

Lemma quiet_stripped_text (el : El) : quiet (stripped_text el).
  Proof. unfold stripped_text. quiet_auto. Qed.

Lemma quiet_get_element_text (selector : string) :
    quiet (get_element_text selector).
  Proof. unfold get_element_text. quiet_auto; apply quiet_stripped_text. Qed.

Lemma quiet_extract_office_address (office_type : string) :
    quiet (extract_office_address office_type).
  Proof.
    unfold extract_office_address, office_address_parts.
    quiet_auto; apply quiet_get_element_text.
  Qed.

Lemma quiet_fetch_texts (ids : list (string * string)) (d : dict) :
    quiet (fetch_texts ids d).
  Proof.
    revert d; induction ids as [|[k sel] ids IH]; intros d; simpl.
    - apply quiet_ret.
    - apply quiet_bind; [apply quiet_get_element_text | intros; apply IH].
  Qed.

Lemma quiet_scan_row (row : El) (d : dict) : quiet (scan_row row d).
  Proof. unfold scan_row. quiet_auto; apply quiet_stripped_text. Qed.

Lemma quiet_scan_rows (rows : list El) (d : dict) : quiet (scan_rows rows d).
  Proof.
    revert d; induction rows as [|row rows IH]; intros d; simpl.
    - apply quiet_ret.
    - apply quiet_bind; [apply quiet_attempt, quiet_scan_row|].
      intros [d'|e]; [apply IH | apply quiet_ret].
  Qed.

Lemma quiet_scan_tables (tables : list El) (d : dict) :
    quiet (scan_tables tables d).
  Proof.
    revert d; induction tables as [|t tables IH]; intros d; simpl.
    - apply quiet_ret.
    - apply quiet_bind; [apply quiet_attempt, quiet_drive|].
      intros [rows|e]; [|apply quiet_ret].
      apply quiet_bind; [apply quiet_scan_rows|].
      intros [d' [e|]]; [apply quiet_ret | apply IH].
  Qed.

  (** *** The strategies never raise *)

Lemma returns_get_element_text (selector : string) :
    returns (get_element_text selector).
  Proof. unfold get_element_text. returns_auto. Qed.

Lemma returns_extract_office_address (office_type : string) :
    returns (extract_office_address office_type).
  Proof. unfold extract_office_address. returns_auto. Qed.

Lemma returns_fetch_texts (ids : list (string * string)) (d : dict) :
    returns (fetch_texts ids d).
  Proof.
    revert d; induction ids as [|[k sel] ids IH]; intros d; simpl.
    - apply returns_ret.
    - apply returns_bind; [apply returns_get_element_text | intros; apply IH].
  Qed.

Lemma returns_extract_by_element_ids : returns extract_by_element_ids.
  Proof.
    unfold extract_by_element_ids.
    returns_auto;
      first [apply returns_fetch_texts | apply returns_extract_office_address].
  Qed.

Lemma returns_scan_rows (rows : list El) (d : dict) : returns (scan_rows rows d).
  Proof.
    revert d; induction rows as [|row rows IH]; intros d; simpl.
    - apply returns_ret.
    - apply returns_bind; [apply returns_attempt|].
      intros [d'|e]; [apply IH | apply returns_ret].
  Qed.

Lemma returns_scan_tables (tables : list El) (d : dict) :
    returns (scan_tables tables d).
  Proof.
    revert d; induction tables as [|t tables IH]; intros d; simpl.
    - apply returns_ret.
    - apply returns_bind; [apply returns_attempt|].
      intros [rows|e]; [|apply returns_ret].
      apply returns_bind; [apply returns_scan_rows|].
      intros [d' [e|]]; [apply returns_ret | apply IH].
  Qed.

Lemma returns_extract_from_tables : returns extract_from_tables.
  Proof.
    unfold extract_from_tables. returns_auto. apply returns_scan_tables.
  Qed.

Lemma returns_extract_from_page_text : returns extract_from_page_text.
  Proof. unfold extract_from_page_text. returns_auto. Qed.

Lemma returns_extract_fields : returns extract_fields.
  Proof.
    unfold extract_fields.
    apply returns_bind; [apply returns_extract_by_element_ids | intros d1].
    apply returns_bind.
    - destruct (negb (has "business_name" d1));
        [apply returns_extract_from_tables | apply returns_ret].
    - intros d2. destruct (negb (has "business_name" d2));
        [apply returns_extract_from_page_text | apply returns_ret].
  Qed.

End Extraction.

(** ** C8: the field extractor never raises *)

Section NeverRaises.

Context {B El : Type} `{PageDriver B El}.

Lemma get_element_text_run (selector : string) (w : world B) :
    exists w',
      get_element_text selector w = (Val (element_text selector (browser w)), w').
  Proof.
    cbv [get_element_text element_text try_except bind drive stripped_text
         ret raise any_exception]; simpl.
    destruct (query_selector selector (browser w)) as [[[el|]|e] b']; simpl;
      try (eexists; reflexivity).
    destruct (text_content el b') as [[[s|]|e] b'']; simpl;
      try (eexists; reflexivity).
    destruct (String.eqb (PyStr.strip s) "") eqn:E; simpl.
    - apply String.eqb_eq in E. rewrite E. eexists; reflexivity.
    - eexists; reflexivity.
  Qed.

End NeverRaises.

(** *** The strategies and what they read *)

Lemma scan_pairs_app (r1 r2 : list (string * string)) (d : dict) :
  scan_pairs (r1 ++ r2) d = scan_pairs r2 (scan_pairs r1 d).
Proof. unfold scan_pairs. apply fold_left_app. Qed.

Section ReadingFacts.

Context {B El : Type} `{PageDriver B El}.

Lemma get_element_text_exact (selector : string) (w : world B) :
  get_element_text selector w
  = (Val (element_text selector (browser w)),
     World (after_lookup selector (browser w)) (fs w) (clock w) (ticks w)
       (tiers_run w)).
Proof.
  cbv [get_element_text element_text after_lookup try_except bind drive
       stripped_text ret raise any_exception].
  destruct (query_selector selector (browser w)) as [[[el|]|e] b'];
    cbn [browser fs clock ticks tiers_run]; try reflexivity.
  destruct (text_content el b') as [[[s|]|e] b''];
    cbn [browser fs clock ticks tiers_run snd]; try reflexivity.
  destruct (String.eqb (PyStr.strip s) "") eqn:E; cbn [negb].
  - apply String.eqb_eq in E. rewrite E. reflexivity.
  - reflexivity.
Qed.

Lemma lookup_fails_empty (selector : string) (b : B) :
  lookup_fails selector b -> element_text selector b = "".
Proof.
  unfold lookup_fails, element_text.
  destruct (query_selector selector b) as [[[el|]|e] b']; try reflexivity.
  destruct (text_content el b') as [[[s|]|e] b'']; try reflexivity.
  intros [].
Qed.

Lemma fetch_texts_exact (ids : list (string * string)) (d : dict) (w : world B) :
  fetch_texts ids d w
  = (Val (fold_left (fun d kv => Dict.set (fst kv) (PStr (snd kv)) d)
            (fst (texts_at ids (browser w))) d),
     World (snd (texts_at ids (browser w))) (fs w) (clock w) (ticks w)
       (tiers_run w)).
Proof.
  revert d w. induction ids as [|[key selector] ids IH]; intros d w;
    cbn [fetch_texts texts_at].
  - destruct w; reflexivity.
  - unfold bind. rewrite get_element_text_exact. cbv beta iota.
    rewrite IH. cbn [browser fs clock ticks tiers_run].
    destruct (texts_at ids (after_lookup selector (browser w))) as [texts b'].
    reflexivity.
Qed.

Lemma office_address_parts_exact (prefix : string) (w : world B) :
  office_address_parts prefix w
  = (Val (fst (address_at prefix (browser w))),
     World (snd (address_at prefix (browser w))) (fs w) (clock w) (ticks w)
       (tiers_run w)).
Proof.
  unfold office_address_parts, address_at.
  unfold bind at 1. rewrite get_element_text_exact. cbv beta iota.
  unfold bind at 1. rewrite get_element_text_exact. cbv beta iota.
  unfold bind at 1. rewrite get_element_text_exact. cbv beta iota.
  unfold bind at 1. rewrite get_element_text_exact. cbv beta iota.
  cbn [browser fs clock ticks tiers_run]. reflexivity.
Qed.

Lemma extract_office_address_exact (w : world B) :
  extract_office_address "principal" w
  = (Val (fst (address_at "#MainContent_lblPO" (browser w))),
     World (snd (address_at "#MainContent_lblPO" (browser w))) (fs w) (clock w)
       (ticks w) (tiers_run w))
  /\ extract_office_address "registered" w
     = (Val (fst (address_at "#MainContent_lblRO" (browser w))),
        World (snd (address_at "#MainContent_lblRO" (browser w))) (fs w) (clock w)
          (ticks w) (tiers_run w)).
Proof.
  unfold extract_office_address, try_except.
  change (String.eqb "principal" "principal") with true.
  change (String.eqb "registered" "principal") with false.
  cbv beta iota. rewrite !office_address_parts_exact. split; reflexivity.
Qed.

Lemma extract_by_element_ids_exact (w : world B) :
  extract_by_element_ids w
  = (Val (fst (ids_reading (browser w))),
     World (snd (ids_reading (browser w))) (fs w) (clock w) (ticks w)
       (tiers_run w ++ [ElementIds])).
Proof.
  unfold extract_by_element_ids, ids_reading.
  unfold bind at 1. cbv [enter]. cbv beta iota.
  unfold bind at 1. rewrite fetch_texts_exact. cbv beta iota.
  cbn [browser fs clock ticks tiers_run].
  unfold bind at 1.
  rewrite (proj1 (extract_office_address_exact _)). cbv beta iota.
  cbn [browser fs clock ticks tiers_run].
  unfold bind at 1.
  rewrite (proj2 (extract_office_address_exact _)). cbv beta iota.
  cbn [browser fs clock ticks tiers_run].
  unfold ret.
  cbv [address_at texts_at element_ids fst snd].
  reflexivity.
Qed.

Lemma scan_row_exact (row : El) (d : dict) (w : world B) :
  scan_row row d w
  = match read_row row (browser w) with
    | (Val pairs, b') =>
        (Val (scan_pairs pairs d),
         World b' (fs w) (clock w) (ticks w) (tiers_run w))
    | (Raise e, b') =>
        (Raise e, World b' (fs w) (clock w) (ticks w) (tiers_run w))
    end.
Proof.
  cbv [scan_row read_row cell_text bind drive stripped_text ret raise].
  destruct (el_query_selector_all row "td, th" (browser w)) as [[cells|e] b1];
    [|reflexivity].
  destruct cells as [|c0 [|c1 cells]]; try reflexivity.
  cbn [browser fs clock ticks tiers_run].
  destruct (text_content c0 b1) as [[[s0|]|e] b2]; try reflexivity.
  cbn [browser fs clock ticks tiers_run].
  destruct (text_content c1 b2) as [[[s1|]|e] b3]; reflexivity.
Qed.

Lemma scan_rows_exact (rows : list El) (d : dict) (w : world B) :
  scan_rows rows d w
  = (let '(pairs, x, b') := read_rows rows (browser w) in
     (Val (scan_pairs pairs d, x),
      World b' (fs w) (clock w) (ticks w) (tiers_run w))).
Proof.
  revert d w. induction rows as [|row rows IH]; intros d w;
    cbn [scan_rows read_rows].
  - destruct w; reflexivity.
  - unfold bind, attempt. rewrite scan_row_exact.
    destruct (read_row row (browser w)) as [[pairs|e] b1]; [|reflexivity].
    rewrite IH. cbn [browser fs clock ticks tiers_run].
    destruct (read_rows rows b1) as [[later x] b2].
    now rewrite scan_pairs_app.
Qed.

Lemma scan_tables_exact (tables : list El) (d : dict) (w : world B) :
  scan_tables tables d w
  = (let '(pairs, x, b') := read_tables tables (browser w) in
     (Val (scan_pairs pairs d, x),
      World b' (fs w) (clock w) (ticks w) (tiers_run w))).
Proof.
  revert d w. induction tables as [|table tables IH]; intros d w;
    cbn [scan_tables read_tables].
  - destruct w; reflexivity.
  - unfold bind at 1. unfold attempt, drive.
    destruct (el_query_selector_all table "tr" (browser w)) as [[rows|e] b1];
      [|reflexivity].
    unfold bind. rewrite scan_rows_exact. cbn [browser fs clock ticks tiers_run].
    destruct (read_rows rows b1) as [[pairs [e|]] b2]; [reflexivity|].
    rewrite IH. cbn [browser fs clock ticks tiers_run].
    destruct (read_tables tables b2) as [[later x] b3].
    now rewrite scan_pairs_app.
Qed.

Lemma extract_from_tables_exact (w : world B) :
  extract_from_tables w
  = (Val (fst (tables_reading (browser w))),
     World (snd (tables_reading (browser w))) (fs w) (clock w) (ticks w)
       (tiers_run w ++ [Tables])).
Proof.
  unfold extract_from_tables, tables_reading, rows_read, page_rows.
  unfold bind at 1. cbv [enter]. cbv beta iota.
  unfold bind at 1. unfold attempt, drive. cbn [browser fs clock ticks tiers_run].
  destruct (query_selector_all "table" (browser w)) as [[tables|e] b1];
    [|reflexivity].
  unfold bind. rewrite scan_tables_exact. cbn [browser fs clock ticks tiers_run].
  destruct (read_tables tables b1) as [[pairs x] b2]. reflexivity.
Qed.

Lemma extract_from_page_text_exact (w : world B) :
  extract_from_page_text w
  = (Val (fst (text_reading (browser w))),
     World (snd (text_reading (browser w))) (fs w) (clock w) (ticks w)
       (tiers_run w ++ [PageText])).
Proof.
  cbv [extract_from_page_text text_reading bind enter try_except drive ret
       any_exception].
  cbn [browser fs clock ticks tiers_run].
  destruct (page_content (browser w)) as [[page_text|e] b1]; reflexivity.
Qed.

Lemma extract_fields_exact (w : world B) :
  exists w', extract_fields w = (Val (fields_reading (browser w)), w').
Proof.
  unfold extract_fields, fields_reading.
  unfold bind at 1. rewrite extract_by_element_ids_exact. cbv beta iota.
  destruct (ids_reading (browser w)) as [d1 b1]. cbn [fst snd].
  destruct (has "business_name" d1) eqn:E1; cbn [negb].
  - unfold bind, ret. cbv beta iota. rewrite E1. eexists; reflexivity.
  - unfold bind at 1. rewrite extract_from_tables_exact. cbv beta iota.
    cbn [browser fs clock ticks tiers_run].
    destruct (tables_reading b1) as [d2 b2]. cbn [fst snd].
    destruct (has "business_name" d2) eqn:E2; cbn [negb].
    + eexists; reflexivity.
    + rewrite extract_from_page_text_exact. eexists; reflexivity.
Qed.

End ReadingFacts.

Section Extractor.

Context {B El : Type} `{PageDriver B El}.

(** C8, as the code has it.  The field extraction never raises to its
    caller.  In the direct-locator strategy a lookup that fails gives the
    empty string for its attribute and the extraction goes on with the
    remaining attributes: the mapping always has all twelve, each with the
    text its lookup gave (in an address, a part whose lookup fails is left
    out).  In the table scan a read that raises ends the scan: the mapping
    holds what the rows read before it assigned, and the rows after it are
    not read.  The text patterns give the empty mapping when the markup
    cannot be read.  The chain returns the mapping of the first strategy, in
    their order, that gives a non-empty [business_name], and that of the text
    patterns otherwise. *)
Theorem field_extraction_never_raises (w : world B) :
  (forall selector,
      lookup_fails selector (browser w) ->
      exists w', get_element_text selector w = (Val "", w'))
  /\ (exists w',
        extract_by_element_ids w = (Val (fst (ids_reading (browser w))), w'))
  /\ Dict.keys (fst (ids_reading (browser w))) = map fst element_ids ++ address_keys
  /\ (exists w',
        extract_from_tables w = (Val (scan_pairs (rows_read (browser w)) []), w'))
  /\ (forall row rest table_data e b',
        read_row row (browser w) = (Raise e, b') ->
        exists w',
          scan_rows (row :: rest) table_data w = (Val (table_data, Some e), w'))
  /\ (exists w',
        extract_from_page_text w =
          (Val (match page_content (browser w) with
                | (Val page_text, _) => scan_text patterns page_text []
                | (Raise _, _) => []
                end), w'))
  /\ (exists w', extract_fields w = (Val (fields_reading (browser w)), w')).
Proof.
  split.
  { intros selector Hfail. rewrite get_element_text_exact.
    rewrite (lookup_fails_empty _ _ Hfail). eexists. reflexivity. }
  split.
  { rewrite extract_by_element_ids_exact. eexists. reflexivity. }
  split.
  { unfold ids_reading. cbv [address_at texts_at element_ids fst snd].
    reflexivity. }
  split.
  { rewrite extract_from_tables_exact. eexists. reflexivity. }
  split.
  { intros row rest table_data e b' Hrow. rewrite scan_rows_exact.
    cbn [read_rows]. rewrite Hrow. eexists. reflexivity. }
  split.
  { rewrite extract_from_page_text_exact. unfold text_reading.
    destruct (page_content (browser w)) as [[page_text|e] b1];
      eexists; reflexivity. }
  apply extract_fields_exact.
Qed.

End Extractor.

(** C8 on the blank page: the lookup of the entity name finds nothing and
    gives the empty string. *)
Lemma field_extraction_never_raises_witness :
  exists w',
    get_element_text "#MainContent_lblEntityName"
      (Sim.start Scenario.blank_page [] Sim.output_dirs)
    = (Val "", w').
Proof.
  apply (proj1 (field_extraction_never_raises
                  (Sim.start Scenario.blank_page [] Sim.output_dirs))).
  vm_compute. exact I.
Defined.

(** C8 fails as stated, for the two lower strategies.  On
    [Scenario.broken_row_page] the value of the row labelled ["Entity ID"]
    cannot be read: the table scan does not give [business_id] the empty
    string and go on to the rows that follow, which name the entity; it ends
    there, and the mapping has neither attribute.  On a page whose markup
    cannot be read the text patterns give no attribute at all. *)
Lemma failed_row_read_ends_scan :
  fst (extract_from_tables
         (Sim.start Scenario.broken_row_page [] Sim.output_dirs)) = Val []
  /\ fst (extract_fields
            (Sim.start Scenario.broken_row_page [] Sim.output_dirs)) = Val []
  /\ assigns "business_name" ("Entity Name", "Acme LLC") = true
  /\ fst (extract_from_page_text
            (Sim.start Scenario.dead_page [] Sim.output_dirs)) = Val [].
Proof. repeat split. Qed.

(** ** C3: the strategies run in priority order *)

Section Priority.

Context {B El : Type} `{PageDriver B El}.

Lemma trace_after_enter {A} (t : tier) (k : M B A) (w : world B) :
    quiet k -> tiers_run (snd ((enter t ;;; k) w)) = tiers_run w ++ [t].
  Proof.
    intros Hk. unfold bind, enter.
    match goal with |- context [k ?w0] => specialize (Hk w0) end.
    destruct (k _) as [[a|e] w']; exact Hk.
  Qed.

Lemma trace_extract_by_element_ids (w : world B) :
    tiers_run (snd (extract_by_element_ids w)) = tiers_run w ++ [ElementIds].
  Proof.
    unfold extract_by_element_ids. apply trace_after_enter.
    quiet_auto;
      first [apply quiet_fetch_texts | apply quiet_extract_office_address].
  Qed.

Lemma trace_extract_from_tables (w : world B) :
    tiers_run (snd (extract_from_tables w)) = tiers_run w ++ [Tables].
  Proof.
    unfold extract_from_tables. apply trace_after_enter.
    apply quiet_bind; [apply quiet_attempt, quiet_drive|].
    intros [tables|e]; [|apply quiet_ret].
    apply quiet_bind; [apply quiet_scan_tables | intros; apply quiet_ret].
  Qed.

Lemma trace_extract_from_page_text (w : world B) :
    tiers_run (snd (extract_from_page_text w)) = tiers_run w ++ [PageText].
  Proof.
    unfold extract_from_page_text. apply trace_after_enter. quiet_auto.
  Qed.

  (** What follows the strategies in [extract_business_details_robust], and
      its handler, enter no strategy. *)
Lemma trace_after_guarded_bind {A C} (c : M B A) (k : A -> M B C)
      (p : exn -> bool) (handler : exn -> M B C) (w : world B) :
    (forall a, quiet (k a)) -> (forall e, quiet (handler e)) ->
    tiers_run (snd (try_except (bind c k) p handler w)) = tiers_run (snd (c w)).
  Proof.
    intros Hk Hh. unfold try_except, bind.
    destruct (c w) as [[a|e] w']; simpl.
    - specialize (Hk a w'). destruct (k a w') as [[x|e] w'']; simpl in *; auto.
      destruct (p e); simpl; auto. now rewrite Hh.
    - destruct (p e); simpl; auto. now rewrite Hh.
  Qed.

Lemma trace_robust (search_term : string) (w : world B) :
    tiers_run (snd (extract_business_details_robust search_term w)) =
    tiers_run (snd (extract_fields w)).
  Proof.
    unfold extract_business_details_robust.
    apply trace_after_guarded_bind.
    - intros d. quiet_auto; try apply quiet_safe_extract_json_data.
    - intros e. quiet_auto; try apply quiet_save_error_log.
  Qed.

  (** The chain of strategies, spelled out on the outcomes of its parts. *)
Lemma extract_fields_run (w : world B) :
    exists d1 w1 d2 w2 d3 w3,
      extract_by_element_ids w = (Val d1, w1)
      /\ extract_from_tables w1 = (Val d2, w2)
      /\ extract_from_page_text w2 = (Val d3, w3)
      /\ extract_fields w =
           if has "business_name" d1 then (Val d1, w1)
           else if has "business_name" d2 then (Val d2, w2)
           else (Val d3, w3).
  Proof.
    destruct (returns_extract_by_element_ids w) as (d1 & w1 & E1).
    destruct (returns_extract_from_tables w1) as (d2 & w2 & E2).
    destruct (returns_extract_from_page_text w2) as (d3 & w3 & E3).
    exists d1, w1, d2, w2, d3, w3. repeat split; auto.
    unfold extract_fields, bind. rewrite E1.
    destruct (has "business_name" d1) eqn:N1; simpl.
    - now rewrite N1.
    - rewrite E2. destruct (has "business_name" d2); simpl; auto.
  Qed.

  (** C3: in every world, the strategies that [extract_business_details_robust]
      enters are the direct-locator one alone when it yields a non-empty
      [business_name]; the table scan is entered only when it does not, and
      the text patterns only when the table scan yields no [business_name]
      either.  [d1] and [d2] are the mappings of the first two strategies. *)
Theorem tiers_run_in_priority_order (search_term : string) (w : world B) :
    exists d1 w1 d2 w2,
      extract_by_element_ids w = (Val d1, w1)
      /\ extract_from_tables w1 = (Val d2, w2)
      /\ tiers_run (snd (extract_business_details_robust search_term w)) =
           tiers_run w ++
             (if has "business_name" d1 then [ElementIds]
              else if has "business_name" d2 then [ElementIds; Tables]
              else [ElementIds; Tables; PageText]).
  Proof.
    destruct (extract_fields_run w) as (d1 & w1 & d2 & w2 & d3 & w3 & E1 & E2 & E3 & E).
    exists d1, w1, d2, w2. repeat split; auto.
    rewrite trace_robust, E.
    pose proof (trace_extract_by_element_ids w) as T1. rewrite E1 in T1.
    pose proof (trace_extract_from_tables w1) as T2. rewrite E2 in T2.
    pose proof (trace_extract_from_page_text w2) as T3. rewrite E3 in T3.
    simpl in *.
    destruct (has "business_name" d1); simpl; [exact T1|].
    destruct (has "business_name" d2); simpl.
    - now rewrite T2, T1, <- app_assoc.
    - now rewrite T3, T2, T1, <- !app_assoc.
  Qed.

End Priority.

(** ** C10: a lower strategy replaces the mapping *)

Lemma within_absent (allowed : list string) (d : dict) (k : string) :
  within allowed d -> ~ In k allowed -> Dict.mem k d = false.
Proof.
  intros Hw Hk. unfold Dict.mem.
  rewrite dict_get_none_keys; auto.
Qed.

Lemma within_set (allowed : list string) (d : dict) (k : string) (v : pyvalue) :
  within allowed d -> In k allowed -> within allowed (Dict.set k v d).
Proof.
  intros Hw Hk x Hx. destruct (dict_set_keys_incl _ _ _ _ Hx) as [->|]; auto.
Qed.

Lemma within_weaken (a a' : list string) (d : dict) :
  within a d -> incl a a' -> within a' d.
Proof. intros Hw Hi k Hk. auto. Qed.

Lemma classify_in_scanned (groups : list (list string * string))
    (label_lower key : string) :
  classify_in groups label_lower = Some key -> In key (map snd groups).
Proof.
  induction groups as [|[terms k] groups IH]; simpl; [discriminate|].
  destruct (any_in terms label_lower).
  - intros [= ->]. auto.
  - auto.
Qed.

Lemma within_table_row_update (label value : string) (d : dict) :
  within scanned_keys d -> within scanned_keys (table_row_update label value d).
Proof.
  intros Hw. unfold table_row_update.
  destruct (negb (String.eqb label "") && negb (String.eqb value "")); auto.
  destruct (classify label) as [key|] eqn:E; auto.
  apply within_set; auto.
  exact (classify_in_scanned _ _ _ E).
Qed.

Lemma within_scan_text (fields : list (string * list string)) (page_text : string)
    (allowed : list string) (d : dict) :
  incl (map fst fields) allowed -> within allowed d ->
  within allowed (scan_text fields page_text d).
Proof.
  revert d. induction fields as [|[field pats] fields IH]; intros d Hi Hw; simpl; auto.
  assert (In field allowed) by (apply Hi; simpl; auto).
  assert (incl (map fst fields) allowed) by (intros x Hx; apply Hi; simpl; auto).
  destruct (first_match pats page_text); apply IH; auto.
  apply within_set; auto.
Qed.

Section Replacement.

Context {B El : Type} `{PageDriver B El}.

Lemma within_scan_row (row : El) (d d' : dict) (w w' : world B) :
    within scanned_keys d -> scan_row row d w = (Val d', w') ->
    within scanned_keys d'.
  Proof.
    intros Hw. cbv [scan_row bind drive stripped_text ret raise].
    destruct (el_query_selector_all row "td, th" (browser w)) as [[cells|e] b1];
      [|discriminate].
    destruct cells as [|c0 [|c1 cells]]; try (intros [= <- _]; exact Hw).
    simpl.
    destruct (text_content c0 b1) as [[[s0|]|e] b2]; simpl; try discriminate.
    destruct (text_content c1 b2) as [[[s1|]|e] b3]; simpl; try discriminate.
    intros [= <- _]. now apply within_table_row_update.
  Qed.

Lemma within_scan_rows (rows : list El) (d d' : dict) (x : option exn)
      (w w' : world B) :
    within scanned_keys d -> scan_rows rows d w = (Val (d', x), w') ->
    within scanned_keys d'.
  Proof.
    revert d w. induction rows as [|row rows IH]; intros d w Hw; simpl.
    - intros [= <- _ _]. exact Hw.
    - unfold bind, attempt.
      destruct (scan_row row d w) as [[d1|e] w1] eqn:E; simpl.
      + apply IH. eapply within_scan_row; eauto.
      + intros [= <- _ _]. exact Hw.
  Qed.

Lemma within_scan_tables (tables : list El) (d d' : dict) (x : option exn)
      (w w' : world B) :
    within scanned_keys d -> scan_tables tables d w = (Val (d', x), w') ->
    within scanned_keys d'.
  Proof.
    revert d w. induction tables as [|t tables IH]; intros d w Hw; simpl.
    - intros [= <- _ _]. exact Hw.
    - unfold bind, attempt, drive.
      destruct (el_query_selector_all t "tr" (browser w)) as [[rows|e] b1]; simpl.
      + destruct (scan_rows rows d _) as [[[d1 [e|]]|e] w1] eqn:E; simpl.
        * intros [= <- _ _]. eapply within_scan_rows; eauto.
        * apply IH. eapply within_scan_rows; eauto.
        * discriminate.
      + intros [= <- _ _]. exact Hw.
  Qed.

Lemma within_extract_from_tables (d : dict) (w w' : world B) :
    extract_from_tables w = (Val d, w') -> within scanned_keys d.
  Proof.
    unfold extract_from_tables, bind, enter, attempt, drive. simpl.
    destruct (query_selector_all "table" (browser w)) as [[tables|e] b1]; simpl.
    - destruct (scan_tables tables [] _) as [[[d1 x]|e] w1] eqn:E; simpl;
        [|discriminate].
      intros [= <- _]. eapply within_scan_tables; [|exact E].
      intros k [].
    - intros [= <- _]. intros k [].
  Qed.

Lemma within_extract_from_page_text (d : dict) (w w' : world B) :
    extract_from_page_text w = (Val d, w') -> within scanned_keys d.
  Proof.
    cbv [extract_from_page_text bind enter try_except drive ret any_exception].
    cbn [browser].
    destruct (page_content (browser w)) as [[text|e] b1]; cbv beta iota.
    - intros E. apply val_pair_inj in E as [<- _]. apply within_scan_text.
      + intros k Hk. exact Hk.
      + intros k [].
    - intros [= <- _]. intros k [].
  Qed.

End Replacement.

Lemma within_of_check (allowed : list string) (d : dict) :
  forallb (fun k => existsb (String.eqb k) allowed) (Dict.keys d) = true ->
  within allowed d.
Proof.
  intros Hc k Hk.
  apply (proj1 (forallb_forall _ _) Hc) in Hk.
  apply existsb_exists in Hk as (x & Hx & E).
  apply String.eqb_eq in E. now subst.
Qed.

Lemma within_add_metadata (allowed : list string) (d : dict) (st : string)
    (t : datetime) :
  within allowed d ->
  incl ["search_term"; "extracted_at"; "status"] allowed ->
  within allowed (add_metadata d st t).
Proof.
  intros Hw Hi. unfold add_metadata.
  repeat apply within_set; auto; apply Hi; simpl; auto.
Qed.

Section ReplacementRecord.

Context {B El : Type} `{PageDriver B El}.

Lemma safe_extract_record_keys (d : dict) (st : string) (w w' : world B)
      (r : pyvalue * pyvalue) :
    within scanned_record_keys d ->
    safe_extract_json_data (PDict d) st w = (Val r, w') ->
    exists record, fst r = PDict record /\ within scanned_record_keys record.
  Proof.
    intros Hw.
    cbv [safe_extract_json_data bind now ret try_except of_result].
    destruct (json_check _) as [[]|e] eqn:Ej.
    - intros E. apply val_pair_inj in E as [<- _]. eexists; split; [reflexivity|].
      apply within_add_metadata; auto.
      apply incl_appr. intros k Hk. simpl in *. tauto.
    - rewrite (json_check_type_error _ _ Ej).
      cbv [drive]. cbn [browser].
      destruct (page_content (browser w)) as [[html|e'] b1]; [|discriminate].
      destruct (save_html_fallback html _ _ _) as [[hf|e'] w1]; [|discriminate].
      intros E. apply val_pair_inj in E as [<- _]. eexists; split; [reflexivity|].
      apply within_of_check. reflexivity.
  Qed.

End ReplacementRecord.

Section ReplacementTheorem.

Context {B El : Type} `{PageDriver B El}.

  (** Whatever mapping the strategies hand over, the record built from it has
      the keys of the mapping and those the validation adds. *)
Lemma robust_record_keys (search_term : string) (d record : dict)
      (w wf w' : world B) :
    extract_fields w = (Val d, wf) ->
    within scanned_keys d ->
    extract_business_details_robust search_term w = (Val (PDict record), w') ->
    within scanned_record_keys record.
  Proof.
    intros Ef Hd.
    assert (Hd' : within scanned_record_keys d)
      by (eapply within_weaken; [exact Hd | apply incl_appl, incl_refl]).
    unfold extract_business_details_robust, try_except.
    unfold bind at 1. rewrite Ef. cbv beta iota.
    assert (Hhandler : forall e (w1 w2 : world B) v,
      (page_source <-- drive page_content ;;
       save_error_log search_term ("Extraction error: " +:+ str_of_exn e)
         page_source ;;;
       t <-- now ;;
       ret (PDict [("error", PStr (str_of_exn e));
                   ("timestamp", PStr (Time.isoformat t));
                   ("search_term", PStr search_term);
                   ("status", PStr "extraction_error")])) w1 = (Val v, w2) ->
      exists r, v = PDict r /\ within scanned_record_keys r).
    { intros e w1 w2 v. cbv [bind drive now ret]. cbn [browser].
      destruct (page_content (browser w1)) as [[src|e'] b1]; [|discriminate].
      destruct (save_error_log _ _ _ _) as [[x|e'] w3]; [|discriminate].
      intros E. apply val_pair_inj in E as [<- _]. eexists; split; [reflexivity|].
      apply within_of_check. reflexivity. }
    destruct (has "business_name" d && has "business_id" d).
    - unfold bind.
      destruct (safe_extract_json_data (PDict d) search_term wf) as [[r|e] w1] eqn:Es.
      + cbv [ret]. intros E. apply val_pair_inj in E as [E _].
        destruct (safe_extract_record_keys _ _ _ _ _ Hd' Es) as (rec & Er & Hr).
        rewrite Er in E. now inversion E; subst.
      + cbv [any_exception]. intros E.
        destruct (Hhandler _ _ _ _ E) as (r & Er & Hr). now inversion Er; subst.
    - unfold bind at 1. cbv [drive]. cbn [browser].
      destruct (page_content (browser wf)) as [[html|e] b1]; cbv beta iota.
      + unfold bind at 1. cbv [now]. cbv beta iota. unfold bind.
        match goal with
        | |- context [safe_extract_json_data (PDict ?ed) ?st ?w0] =>
            destruct (safe_extract_json_data (PDict ed) st w0) as [[r|e] w1] eqn:Es
        end.
        * cbv [ret]. intros E. apply val_pair_inj in E as [E _].
          apply safe_extract_record_keys in Es as (rec & Er & Hr);
            [|apply within_of_check; reflexivity].
          rewrite Er in E. now inversion E; subst.
        * cbv [any_exception]. intros E.
          destruct (Hhandler _ _ _ _ E) as (r & Er & Hr). now inversion Er; subst.
      + cbv [any_exception]. intros E.
        destruct (Hhandler _ _ _ _ E) as (r & Er & Hr). now inversion Er; subst.
  Qed.

  (** C10: when the direct-locator strategy yields no [business_name], the
      mapping that [extract_business_details_robust] works on is exactly the
      mapping of the table scan (when that has a [business_name]) or exactly
      the mapping of the text patterns (otherwise): nothing of the first
      mapping is merged in.  Neither of the two has the keys
      [principal_office_address] and [registered_office_address], and neither
      has any record that is returned in this case. *)
Theorem lower_tier_replaces_mapping (search_term : string) (w w1 : world B)
      (d1 : dict) :
    extract_by_element_ids w = (Val d1, w1) ->
    has "business_name" d1 = false ->
    exists d2 w2 d3 w3,
      extract_from_tables w1 = (Val d2, w2)
      /\ extract_from_page_text w2 = (Val d3, w3)
      /\ extract_fields w =
           (if has "business_name" d2 then (Val d2, w2) else (Val d3, w3))
      /\ Dict.mem "principal_office_address" d2 = false
      /\ Dict.mem "registered_office_address" d2 = false
      /\ Dict.mem "principal_office_address" d3 = false
      /\ Dict.mem "registered_office_address" d3 = false
      /\ (forall record w',
            extract_business_details_robust search_term w = (Val (PDict record), w') ->
            Dict.mem "principal_office_address" record = false
            /\ Dict.mem "registered_office_address" record = false).
  Proof.
    intros E1 N1.
    destruct (extract_fields_run w)
      as (d1' & w1' & d2 & w2 & d3 & w3 & E1' & E2 & E3 & E).
    rewrite E1 in E1'. apply val_pair_inj in E1' as [<- <-].
    rewrite N1 in E.
    pose proof (within_extract_from_tables _ _ _ E2) as K2.
    pose proof (within_extract_from_page_text _ _ _ E3) as K3.
    assert (Hp : ~ In "principal_office_address" scanned_record_keys)
      by (simpl; intuition discriminate).
    assert (Hr : ~ In "registered_office_address" scanned_record_keys)
      by (simpl; intuition discriminate).
    assert (Hp' : ~ In "principal_office_address" scanned_keys)
      by (simpl; intuition discriminate).
    assert (Hr' : ~ In "registered_office_address" scanned_keys)
      by (simpl; intuition discriminate).
    exists d2, w2, d3, w3.
    repeat (split; [solve [auto | eapply within_absent; eauto]|]).
    intros record w' Er.
    assert (Krec : within scanned_record_keys record).
    { destruct (has "business_name" d2).
      - eapply robust_record_keys; eauto.
      - eapply robust_record_keys; eauto. }
    split; eapply within_absent; eauto.
  Qed.

End ReplacementTheorem.

(** The table page of [Scenario.two_ids_page] has none of the element ids, so
    the first strategy yields twelve empty strings and the table scan takes
    over. *)
Lemma lower_tier_replaces_mapping_witness :
  let w := Sim.start Scenario.two_ids_page [] Sim.output_dirs in
  has "business_name" (map (fun k => (k, PStr "")) (map fst element_ids ++ address_keys))
    = false
  /\ exists d w',
       extract_fields w = (Val d, w')
       /\ Dict.mem "principal_office_address" d = false
       /\ Dict.mem "registered_office_address" d = false.
Proof.
  intros w. split; [reflexivity|].
  destruct (lower_tier_replaces_mapping "AA" w (snd (extract_by_element_ids w))
              (map (fun k => (k, PStr "")) (map fst element_ids ++ address_keys)))
    as (d2 & w2 & d3 & w3 & E2 & E3 & E & P2 & R2 & P3 & R3 & _).
  - vm_compute. reflexivity.
  - reflexivity.
  - destruct (has "business_name" d2).
    + exists d2, w2. auto.
    + exists d3, w3. auto.
Defined.

(** ** C1: records tagged [success] *)

(** C1 at a failing input.  On a detail page where no strategy finds a name,
    [extract_business_details_robust] builds the error record with
    [status = 'data_extraction_failed'] and passes it to
    [safe_extract_json_data], which overwrites the status: the record that
    comes back is tagged [success] and has neither [business_id] nor
    [business_name]. *)
Theorem failed_extraction_is_tagged_success :
  let record :=
    [("html_content", PStr "<html><body>Nothing here</body></html>");
     ("error", PStr "Essential data missing");
     ("timestamp", PStr "2026-11-04T10:00:00");
     ("search_term", PStr "AA");
     ("status", PStr "success");
     ("extracted_at", PStr "2026-11-04T10:00:01")] in
  fst (extract_business_details_robust "AA"
         (Sim.start Scenario.blank_page [] Sim.output_dirs)) = Val (PDict record)
  /\ Dict.get "status" record = Some (PStr "success")
  /\ Dict.get "business_name" record = None
  /\ Dict.get "business_id" record = None.
Proof. repeat split. Qed.

Section TaggedSuccess.

Context {B El : Type} `{PageDriver B El}.

  (** The same for every browser: whenever the strategies end without a name
      or without an id and the page markup can be read, the record returned
      is tagged [success] and holds no [business_name]. *)
Lemma missing_data_is_tagged_success (search_term html : string) (d : dict)
      (w wf : world B) (b' : B) :
    extract_fields w = (Val d, wf) ->
    has "business_name" d && has "business_id" d = false ->
    page_content (browser wf) = (Val html, b') ->
    exists record w',
      extract_business_details_robust search_term w = (Val (PDict record), w')
      /\ Dict.get "status" record = Some (PStr "success")
      /\ Dict.get "business_name" record = None
      /\ Dict.get "business_id" record = None.
  Proof.
    intros Ef Hmiss Hc.
    unfold extract_business_details_robust, try_except.
    unfold bind at 1. rewrite Ef. cbv beta iota. rewrite Hmiss.
    unfold bind at 1. cbv [drive]. rewrite Hc. cbv beta iota.
    cbv [bind now safe_extract_json_data of_result try_except ret].
    cbn [json_check browser fs clock ticks tiers_run fst].
    eexists _, _. split; [reflexivity|]. repeat split.
  Qed.

End TaggedSuccess.

(** ** C4: which row of a table gives an attribute its value *)

(** A row that assigns [key] sets it, whatever was there. *)
Lemma table_row_update_assigns (key : string) (r : string * string) (d : dict) :
  assigns key r = true ->
  Dict.get key (table_row_update (fst r) (snd r) d) = Some (PStr (snd r)).
Proof.
  unfold assigns, table_row_update. intros Ha.
  apply andb_true_iff in Ha as [Hne Hk]. rewrite Hne.
  destruct (classify (fst r)) as [k|]; [|discriminate].
  apply String.eqb_eq in Hk. subst k. apply dict_get_set_same.
Qed.

(** A row that does not assign [key] leaves it alone. *)
Lemma table_row_update_other (key : string) (r : string * string) (d : dict) :
  assigns key r = false ->
  Dict.get key (table_row_update (fst r) (snd r) d) = Dict.get key d.
Proof.
  unfold assigns, table_row_update. intros Ha.
  destruct (negb (String.eqb (fst r) "") && negb (String.eqb (snd r) "")); auto.
  destruct (classify (fst r)) as [k|]; auto. simpl in Ha.
  apply dict_get_set_other. intros ->. now rewrite String.eqb_refl in Ha.
Qed.

Lemma scan_pairs_untouched (key : string) (rows : list (string * string)) (d : dict) :
  forallb (fun r => negb (assigns key r)) rows = true ->
  Dict.get key (scan_pairs rows d) = Dict.get key d.
Proof.
  revert d. induction rows as [|r rows IH]; intros d; simpl; auto.
  intros Hall. apply andb_true_iff in Hall as [Hr Hrest].
  change (Dict.get key (scan_pairs rows (table_row_update (fst r) (snd r) d)) =
          Dict.get key d).
  rewrite IH by exact Hrest. apply table_row_update_other.
  now apply negb_true_iff.
Qed.

Lemma scan_pairs_last_assignment (key : string) (before later : list (string * string))
    (r : string * string) (d : dict) :
  assigns key r = true ->
  forallb (fun r' => negb (assigns key r')) later = true ->
  Dict.get key (scan_pairs (before ++ r :: later) d) = Some (PStr (snd r)).
Proof.
  intros Ha Hlater. rewrite scan_pairs_app.
  change (scan_pairs (r :: later) (scan_pairs before d))
    with (scan_pairs later
            (table_row_update (fst r) (snd r) (scan_pairs before d))).
  rewrite scan_pairs_untouched by exact Hlater.
  now apply table_row_update_assigns.
Qed.

Section LastRow.

Context {B El : Type} `{PageDriver B El}.

(** C4, as the code has it.  The table scan reads the rows in document order
    until a read raises, which ends it.  Every row read that has at least two
    cells, a non-empty label and a non-empty value, and whose label selects
    an attribute, assigns that attribute, whatever it held: among the rows
    read, the last one that assigns an attribute gives it its value, and a
    later matching row overwrites an earlier one.  [before] may hold rows
    that assign the same attribute. *)
Theorem table_scan_last_row_wins (w : world B) :
  (exists w',
      extract_from_tables w = (Val (scan_pairs (rows_read (browser w)) []), w'))
  /\ (forall (key : string) (before later : list (string * string))
             (r : string * string),
        rows_read (browser w) = before ++ r :: later ->
        assigns key r = true ->
        forallb (fun r' => negb (assigns key r')) later = true ->
        Dict.get key (scan_pairs (rows_read (browser w)) []) = Some (PStr (snd r))).
Proof.
  split.
  - rewrite extract_from_tables_exact. eexists. reflexivity.
  - intros key before later r Hrows Ha Hlater. rewrite Hrows.
    now apply scan_pairs_last_assignment.
Qed.

End LastRow.

(** C4 at [Scenario.two_ids_page]: the third row assigns [business_id] as the
    first does and overwrites it. *)
Lemma table_scan_last_row_wins_witness :
  Dict.get "business_id"
    (scan_pairs
       (rows_read (browser (Sim.start Scenario.two_ids_page [] Sim.output_dirs)))
       [])
  = Some (PStr "2").
Proof.
  apply (proj2 (table_scan_last_row_wins
                  (Sim.start Scenario.two_ids_page [] Sim.output_dirs))
           "business_id" [("Entity ID", "1"); ("Entity Name", "Acme LLC")] []
           ("Entity ID", "2")); reflexivity.
Defined.

(** C4 fails as stated: the first row that matches [business_id] holds ["1"],
    which first-match-wins would keep, and the scan returns ["2"]. *)
Lemma table_scan_overwrites :
  fst (extract_from_tables (Sim.start Scenario.two_ids_page [] Sim.output_dirs))
    = Val [("business_id", PStr "2"); ("business_name", PStr "Acme LLC")]
  /\ spec_scan_pairs (labelled_rows Scenario.two_ids_tables) []
       = [("business_id", PStr "1"); ("business_name", PStr "Acme LLC")]
  /\ fst (extract_from_tables (Sim.start Scenario.two_ids_page [] Sim.output_dirs))
       <> Val (spec_scan_pairs (labelled_rows Scenario.two_ids_tables) []).
Proof. repeat split. vm_compute. discriminate. Qed.

(** ** C5: serialization failure in the validation step *)



Section Validation.

Context {B El : Type} `{PageDriver B El}.

  (** When the capture file can be opened, [save_html_fallback] writes it and
      returns its name; only the files and the clock reading change. *)
Lemma save_html_fallback_written (html pre ty : string) (w : world B) :
    can_open (fs w) (fallback_path pre ty (clock w (ticks w))) = Val tt ->
    exists w',
      save_html_fallback html pre ty w =
        (Val (PStr (fallback_path pre ty (clock w (ticks w)))), w')
      /\ files (fs w') =
           <[fallback_path pre ty (clock w (ticks w)) :=
               fallback_chunks (page_url (browser w)) html ty (clock w (ticks w))]>
             (files (fs w))
      /\ can_open (fs w') = can_open (fs w)
      /\ browser w' = browser w
      /\ clock w' = clock w
      /\ ticks w' = S (ticks w)
      /\ tiers_run w' = tiers_run w.
  Proof.
    intros Hopen.
    cbv [save_html_fallback try_except bind now open_w write ret with_files].
    cbn [fs can_open files browser clock ticks tiers_run].
    fold (fallback_path pre ty (clock w (ticks w))).
    rewrite Hopen. cbv beta iota.
    eexists. split; [reflexivity|].
    cbn [fs can_open files browser clock ticks tiers_run].
    repeat split.
    rewrite !lookup_insert_eq. cbn [default app].
    rewrite !insert_insert_eq. reflexivity.
  Qed.

  (** When the capture file cannot be opened, [save_html_fallback] returns
      [None]; it has read the clock once and touched nothing else. *)
Lemma save_html_fallback_unwritable (html pre ty : string) (w : world B) (e : exn) :
    can_open (fs w) (fallback_path pre ty (clock w (ticks w))) = Raise e ->
    save_html_fallback html pre ty w =
      (Val PNone, World (browser w) (fs w) (clock w) (S (ticks w)) (tiers_run w)).
  Proof.
    intros Hopen.
    cbv [save_html_fallback try_except bind now open_w write ret with_files
         any_exception].
    cbn [fs can_open files browser clock ticks tiers_run].
    fold (fallback_path pre ty (clock w (ticks w))).
    rewrite Hopen. reflexivity.
  Qed.


End Validation.



(** ** C2: what the persist operation returns *)




Section Persist.

Context {B El : Type} `{PageDriver B El}.


End Persist.



(** With the file name the coordinator builds, the replaced name keeps its
    [json/] prefix, neither companion file can be opened, and the second
    [open] is outside any guard. *)
Lemma persist_raises_for_coordinator_name :
  fst (save_data_with_fallback Scenario.unencodable "json/business_Acme.json"
         (Sim.start Scenario.blank_page [] Sim.output_dirs))
  = Raise (Exn OSError
             "[Errno 2] No such file or directory: 'kansas_business_data/errors/save_error_json/business_Acme.json'").
Proof. vm_compute. reflexivity. Qed.

(** ** C7: how artifacts are named, and what a second write does *)

Section Naming.

Context {B El : Type} `{PageDriver B El}.

  (** A structured save that succeeds leaves exactly the new text in the
      file, whatever the file held before. *)
Lemma structured_save_run (data : pyvalue) (filename : string) (w : world B) :
    sentinel data = None ->
    json_check data = Val tt ->
    can_open (fs w) (Path.join output_dir filename) = Val tt ->
    exists w',
      save_data_with_fallback data filename w =
        (Val (PStr (Path.join output_dir filename)), w')
      /\ files (fs w') =
           <[Path.join output_dir filename := [JsonText data]]> (files (fs w))
      /\ can_open (fs w') = can_open (fs w).
  Proof.
    intros Hs Hj Hopen.
    unfold save_data_with_fallback, try_except. cbv zeta.
    assert (Hrun : exists w',
      (open_w (Path.join output_dir filename) ;;;
       json_dump data (Path.join output_dir filename) ;;;
       ret (PStr (Path.join output_dir filename))) w
        = (Val (PStr (Path.join output_dir filename)), w')
      /\ files (fs w') =
           <[Path.join output_dir filename := [JsonText data]]> (files (fs w))
      /\ can_open (fs w') = can_open (fs w)).
    { cbv [bind open_w json_dump write ret with_files]. rewrite Hj, Hopen.
      cbv beta iota. cbn [fs files can_open].
      eexists. split; [reflexivity|]. cbn [fs files can_open]. split; auto.
      rewrite lookup_insert_eq. cbn [default app]. apply insert_insert_eq. }
    destruct Hrun as (w' & Hrun & Hfile). exists w'.
    destruct data as [| | | | |d|]; cbn [sentinel] in Hs; rewrite ?Hs;
      rewrite Hrun; auto.
  Qed.

  (** C7, as the code has it.  The artifact of a record with a non-empty
      [business_name] is named by the sanitized name alone, without any
      timestamp; the artifact of a record without one is named by the search
      term and the time of day; a raw-markup capture is named by its prefix,
      its error type and a timestamp to the second.  Files are opened for
      writing, not for appending: a second structured save under the same
      name leaves only the second record in the file. *)
Theorem artifact_names_and_overwriting :
    (forall (d : dict) (search_term name : string) (w : world B),
        Dict.get "business_name" d = Some (PStr name) ->
        name <> "" ->
        artifact_filename d search_term w =
          (Val ("json/business_" +:+ clean_name name +:+ ".json"), w))
    /\ (forall (d : dict) (search_term : string) (w : world B),
          has "business_name" d = false ->
          fst (artifact_filename d search_term w) =
            Val ("json/error_" +:+ search_term +:+ "_" +:+
                 Time.hms (clock w (ticks w)) +:+ ".json"))
    /\ (forall (html pre ty : string) (w : world B),
          can_open (fs w) (fallback_path pre ty (clock w (ticks w))) = Val tt ->
          fst (save_html_fallback html pre ty w) =
            Val (PStr (output_dir +:+ "/html_fallback/" +:+ pre +:+ "_" +:+ ty +:+
                       "_" +:+ Time.stamp (clock w (ticks w)) +:+ ".html")))
    /\ (forall (data1 data2 : pyvalue) (filename : string) (w : world B),
          sentinel data1 = None -> json_check data1 = Val tt ->
          sentinel data2 = None -> json_check data2 = Val tt ->
          can_open (fs w) (Path.join output_dir filename) = Val tt ->
          exists w1 w2,
            save_data_with_fallback data1 filename w =
              (Val (PStr (Path.join output_dir filename)), w1)
            /\ save_data_with_fallback data2 filename w1 =
                 (Val (PStr (Path.join output_dir filename)), w2)
            /\ files (fs w2) !! Path.join output_dir filename =
                 Some [JsonText data2]).
  Proof.
    split; [|split; [|split]].
    - intros d st name w Hget Hne. unfold artifact_filename. rewrite Hget.
      cbn [truthy]. apply String.eqb_neq in Hne. rewrite Hne. reflexivity.
    - intros d st w Hhas. unfold artifact_filename.
      unfold has, Dict.get_or_none in Hhas.
      destruct (Dict.get "business_name" d) as [v|]; [rewrite Hhas|]; reflexivity.
    - intros html pre ty w Hopen.
      destruct (save_html_fallback_written html pre ty w Hopen) as (w' & E & _).
      now rewrite E.
    - intros data1 data2 filename w Hs1 Hj1 Hs2 Hj2 Hopen.
      destruct (structured_save_run data1 filename w Hs1 Hj1 Hopen)
        as (w1 & E1 & Hf1 & Hc1).
      rewrite <- Hc1 in Hopen.
      destruct (structured_save_run data2 filename w1 Hs2 Hj2 Hopen)
        as (w2 & E2 & Hf2 & Hc2).
      exists w1, w2. repeat split; auto.
      rewrite Hf2. apply lookup_insert_eq.
  Qed.

End Naming.

(** C7 for two filings of the same entity, saved one after the other. *)
Lemma artifact_names_and_overwriting_witness :
  exists w1 w2,
    save_data_with_fallback (PDict Scenario.first_filing) "json/business_Acme_LLC.json"
      (Sim.start Scenario.blank_page [] Sim.output_dirs)
    = (Val (PStr "kansas_business_data/json/business_Acme_LLC.json"), w1)
    /\ save_data_with_fallback (PDict Scenario.second_filing)
         "json/business_Acme_LLC.json" w1
       = (Val (PStr "kansas_business_data/json/business_Acme_LLC.json"), w2)
    /\ files (fs w2) !! "kansas_business_data/json/business_Acme_LLC.json"
       = Some [JsonText (PDict Scenario.second_filing)].
Proof.
  destruct (proj2 (proj2 (proj2 artifact_names_and_overwriting))
              (PDict Scenario.first_filing) (PDict Scenario.second_filing)
              "json/business_Acme_LLC.json"
              (Sim.start Scenario.blank_page [] Sim.output_dirs))
    as (w1 & w2 & E1 & E2 & F); try reflexivity.
  exists w1, w2. repeat split; assumption.
Defined.

(** C7 fails as stated: two records with the same business name get the same
    file name, whatever the time and the search term, and the second write
    replaces the first artifact. *)
Lemma second_record_overwrites_first :
  fst (Scenario.persist_both (Sim.start Scenario.blank_page [] Sim.output_dirs))
    = Val ("json/business_Acme_LLC.json", "json/business_Acme_LLC.json")
  /\ Sim.file_at "kansas_business_data/json/business_Acme_LLC.json"
       (snd (Scenario.persist_both (Sim.start Scenario.blank_page [] Sim.output_dirs)))
     = Some [JsonText (PDict Scenario.second_filing)].
Proof. split; vm_compute; reflexivity. Qed.

(** ** C9: what aborts the crawl *)

(** C9 at a failing input.  The portal answers every step, the navigation
    bootstrap succeeds, and the first record is extracted; the directory
    [json/] cannot be written.  [save_data_with_fallback] catches
    [TypeError] and [ValueError] only, so the [OSError] of [open] leaves it,
    passes the row loop and the loop over the search terms, and ends the
    crawl.  With the directory in place the same crawl runs to its end. *)
Theorem persistence_failure_aborts_crawl :
  fst (navigate_to_homepage_first
         (Sim.start Scenario.home_page Scenario.portal Scenario.no_json_dir))
    = Val true
  /\ fst (run_fully_automated_crawler
            (Sim.start Scenario.home_page Scenario.portal Scenario.no_json_dir))
     = Raise (Exn OSError
                "[Errno 2] No such file or directory: 'kansas_business_data/json/business_Acme__LLC.json'")
  /\ fst (run_fully_automated_crawler
            (Sim.start Scenario.home_page Scenario.portal Sim.output_dirs))
     = Val tt.
Proof. repeat split; vm_compute; reflexivity. Qed.

(** * Further properties of the evidence store *)

Lemma error_log_path_not_fallback_path (st pre ty : string) (t t' : datetime) :
  error_log_path st t <> fallback_path pre ty t'.
Proof.
  unfold fallback_path, error_log_path, output_dir.
  cbn [String.append]. discriminate.
Qed.

Section EvidenceStore.

Context {B El : Type} `{PageDriver B El}.

Lemma save_html_fallback_outcome (html pre ty : string) (w : world B) :
  fst (save_html_fallback html pre ty w) =
    Val (match can_open (fs w) (fallback_path pre ty (clock w (ticks w))) with
         | Val _ => PStr (fallback_path pre ty (clock w (ticks w)))
         | Raise _ => PNone
         end)
  /\ files (fs (snd (save_html_fallback html pre ty w))) =
       match can_open (fs w) (fallback_path pre ty (clock w (ticks w))) with
       | Val _ =>
           <[fallback_path pre ty (clock w (ticks w)) :=
               fallback_chunks (page_url (browser w)) html ty (clock w (ticks w))]>
             (files (fs w))
       | Raise _ => files (fs w)
       end.
Proof.
  destruct (can_open (fs w) (fallback_path pre ty (clock w (ticks w))))
    as [[]|e] eqn:Hopen.
  - destruct (save_html_fallback_written html pre ty w Hopen)
      as (w' & E & Hf & _).
    rewrite E. split; [reflexivity|exact Hf].
  - cbv [save_html_fallback try_except bind now open_w write ret with_files
         any_exception].
    cbn [fs can_open files browser clock ticks tiers_run].
    fold (fallback_path pre ty (clock w (ticks w))).
    rewrite Hopen. split; reflexivity.
Qed.

(** [save_html_fallback] never raises.  It returns the name of the capture
    when the file can be opened and [None] otherwise; in the first case the
    file holds the three comment lines and the markup, in the second it is
    left as it is.  No file other than the capture and the session log
    changes, and the browser session is left as it is. *)
Theorem save_html_fallback_never_raises (html pre ty : string) (w : world B) :
  fst (save_html_fallback html pre ty w) =
    Val (match can_open (fs w) (fallback_path pre ty (clock w (ticks w))) with
         | Val _ => PStr (fallback_path pre ty (clock w (ticks w)))
         | Raise _ => PNone
         end)
  /\ files (fs (snd (save_html_fallback html pre ty w)))
       !! fallback_path pre ty (clock w (ticks w)) =
       match can_open (fs w) (fallback_path pre ty (clock w (ticks w))) with
       | Val _ =>
           Some (fallback_chunks (page_url (browser w)) html ty (clock w (ticks w)))
       | Raise _ => files (fs w) !! fallback_path pre ty (clock w (ticks w))
       end
  /\ (forall p, p <> fallback_path pre ty (clock w (ticks w)) ->
        p <> log_path ->
        files (fs (snd (save_html_fallback html pre ty w))) !! p = files (fs w) !! p)
  /\ browser (snd (save_html_fallback html pre ty w)) = browser w.
Proof.
  destruct (save_html_fallback_outcome html pre ty w) as [Hr Hf].
  split; [exact Hr|]. split; [|split].
  - rewrite Hf.
    destruct (can_open (fs w) (fallback_path pre ty (clock w (ticks w))));
      [apply lookup_insert_eq | reflexivity].
  - intros p Hp _. rewrite Hf.
    destruct (can_open (fs w) (fallback_path pre ty (clock w (ticks w))));
      [|reflexivity].
    apply lookup_insert_ne. congruence.
  - destruct (can_open (fs w) (fallback_path pre ty (clock w (ticks w))))
      as [[]|e] eqn:Hopen.
    + destruct (save_html_fallback_written html pre ty w Hopen)
        as (w' & E & _ & _ & Hb & _).
      rewrite E. exact Hb.
    + now rewrite (save_html_fallback_unwritable html pre ty w e Hopen).
Qed.

Lemma save_error_log_outcome (search_term error_message page_source : string)
    (w : world B) :
  fst (save_error_log search_term error_message page_source w) =
    Val (match can_open (fs w) (error_log_path search_term (clock w (ticks w))) with
         | Val _ => PStr (error_log_path search_term (clock w (ticks w)))
         | Raise _ => PNone
         end)
  /\ match can_open (fs w) (error_log_path search_term (clock w (ticks w))) with
     | Val _ =>
         files (fs (snd (save_error_log search_term error_message page_source w)))
           !! error_log_path search_term (clock w (ticks w)) =
         Some [JsonText (error_log_record search_term error_message
                           (page_url (browser w)) (clock w (ticks w)))]
     | Raise _ =>
         files (fs (snd (save_error_log search_term error_message page_source w))) =
         files (fs w)
     end.
Proof.
  destruct (can_open (fs w) (error_log_path search_term (clock w (ticks w))))
    as [[]|e] eqn:Hopen.
  - cbv [save_error_log try_except bind now open_w json_dump write ret with_files].
    cbn [fs can_open files browser clock ticks tiers_run json_check].
    fold (error_log_path search_term (clock w (ticks w))).
    rewrite Hopen. cbv beta iota.
    cbn [fs can_open files browser clock ticks tiers_run].
    rewrite lookup_insert_eq. cbn [default app]. rewrite insert_insert_eq.
    destruct (negb (String.eqb page_source "")).
    + match goal with
      | |- context [save_html_fallback ?h ?p ?t ?w0] =>
          pose proof (save_html_fallback_outcome h p t w0) as [Hr Hf];
          destruct (save_html_fallback h p t w0) as [r w1]
      end.
      cbn [fst snd fs can_open files browser clock ticks tiers_run] in Hr, Hf.
      subst r. cbv beta iota.
      split; [reflexivity|]. cbn [snd]. rewrite Hf.
      destruct (can_open (fs w)
                  (fallback_path ("error_" +:+ search_term) "page_capture"
                     (clock w (S (ticks w))))).
      * rewrite lookup_insert_ne
          by (apply not_eq_sym, error_log_path_not_fallback_path).
        apply lookup_insert_eq.
      * apply lookup_insert_eq.
    + split; [reflexivity|]. cbn [snd fs files]. apply lookup_insert_eq.
  - cbv [save_error_log try_except bind now open_w json_dump write ret with_files
         any_exception].
    cbn [fs can_open files browser clock ticks tiers_run].
    fold (error_log_path search_term (clock w (ticks w))).
    rewrite Hopen. split; reflexivity.
Qed.

(** [save_error_log] never raises.  It returns the name of the error record
    when that file can be opened and [None] otherwise.  The record on disk
    holds the search term, the message, the timestamp, the page address and
    the error type: the reference to the markup capture is put into the dict
    only after the dump and does not reach the file.  When the file cannot be
    opened, no capture is taken either: no file other than the session log
    changes. *)
Theorem save_error_log_never_raises (search_term error_message page_source : string)
    (w : world B) :
  fst (save_error_log search_term error_message page_source w) =
    Val (match can_open (fs w) (error_log_path search_term (clock w (ticks w))) with
         | Val _ => PStr (error_log_path search_term (clock w (ticks w)))
         | Raise _ => PNone
         end)
  /\ match can_open (fs w) (error_log_path search_term (clock w (ticks w))) with
     | Val _ =>
         files (fs (snd (save_error_log search_term error_message page_source w)))
           !! error_log_path search_term (clock w (ticks w)) =
         Some [JsonText (error_log_record search_term error_message
                           (page_url (browser w)) (clock w (ticks w)))]
     | Raise _ =>
         apart_from_log (files (fs w))
           (files (fs (snd (save_error_log search_term error_message
                              page_source w))))
     end.
Proof.
  destruct (save_error_log_outcome search_term error_message page_source w)
    as [Hr Hf].
  split; [exact Hr|].
  destruct (can_open (fs w) (error_log_path search_term (clock w (ticks w))));
    [exact Hf|].
  intros p _. now rewrite Hf.
Qed.

End EvidenceStore.

(** * What the field extractor hands to the validation *)

Lemma all_text_set (k v : string) (d : dict) :
  all_text d = true -> all_text (Dict.set k (PStr v) d) = true.
Proof.
  unfold all_text. induction d as [|[k' v'] d IH]; simpl; auto.
  intros Hd. apply andb_true_iff in Hd as [Hv Hd].
  destruct (String.eqb k k'); simpl; [exact Hd|].
  rewrite Hv. simpl. auto.
Qed.

Lemma json_check_all_text (d : dict) :
  all_text d = true -> json_check (PDict d) = Val tt.
Proof.
  unfold all_text. simpl.
  induction d as [|[k v] d IH]; simpl; auto.
  intros Hd. apply andb_true_iff in Hd as [Hv Hd].
  destruct v; try discriminate. simpl. auto.
Qed.

Section TierInvariant.

Context {B El : Type} `{PageDriver B El}.

Variable P : dict -> Prop.
Hypothesis P_empty : P [].
Hypothesis P_set : forall k v d, P d -> P (Dict.set k (PStr v) d).

Lemma table_row_update_keeps (label value : string) (d : dict) :
  P d -> P (table_row_update label value d).
Proof.
  intros Hd. unfold table_row_update.
  destruct (negb (String.eqb label "") && negb (String.eqb value "")); auto.
  destruct (classify label); auto.
Qed.

Lemma scan_row_keeps (row : El) (d d' : dict) (w w' : world B) :
  P d -> scan_row row d w = (Val d', w') -> P d'.
Proof.
  intros Hd. cbv [scan_row bind drive stripped_text ret raise].
  destruct (el_query_selector_all row "td, th" (browser w)) as [[cells|e] b1];
    [|discriminate].
  destruct cells as [|c0 [|c1 cells]];
    try (intros E; apply val_pair_inj in E as [<- _]; exact Hd).
  cbn [browser].
  destruct (text_content c0 b1) as [[[s0|]|e] b2]; cbv beta iota; try discriminate.
  cbn [browser].
  destruct (text_content c1 b2) as [[[s1|]|e] b3]; cbv beta iota; try discriminate.
  intros E. apply val_pair_inj in E as [<- _]. now apply table_row_update_keeps.
Qed.

Lemma scan_rows_keeps (rows : list El) (d d' : dict) (x : option exn)
    (w w' : world B) :
  P d -> scan_rows rows d w = (Val (d', x), w') -> P d'.
Proof.
  revert d w. induction rows as [|row rows IH]; intros d w Hd; cbn [scan_rows].
  - intros E. apply val_pair_inj in E as [E _]. now inversion E; subst.
  - unfold bind, attempt.
    destruct (scan_row row d w) as [[d1|e] w1] eqn:E; cbv beta iota.
    + apply IH. eapply scan_row_keeps; eauto.
    + intros E'. apply val_pair_inj in E' as [E' _]. now inversion E'; subst.
Qed.

Lemma scan_tables_keeps (tables : list El) (d d' : dict) (x : option exn)
    (w w' : world B) :
  P d -> scan_tables tables d w = (Val (d', x), w') -> P d'.
Proof.
  revert d w. induction tables as [|t tables IH]; intros d w Hd; cbn [scan_tables].
  - intros E. apply val_pair_inj in E as [E _]. now inversion E; subst.
  - unfold bind, attempt, drive.
    destruct (el_query_selector_all t "tr" (browser w)) as [[rows|e] b1];
      cbv beta iota.
    + destruct (scan_rows rows d _) as [[[d1 [e|]]|e] w1] eqn:E; cbv beta iota.
      * intros E'. apply val_pair_inj in E' as [E' _]. inversion E'; subst.
        eapply scan_rows_keeps; eauto.
      * apply IH. eapply scan_rows_keeps; eauto.
      * discriminate.
    + intros E'. apply val_pair_inj in E' as [E' _]. now inversion E'; subst.
Qed.

Lemma extract_from_tables_keeps (d : dict) (w w' : world B) :
  extract_from_tables w = (Val d, w') -> P d.
Proof.
  cbv [extract_from_tables bind enter attempt drive ret]. cbn [browser].
  destruct (query_selector_all "table" (browser w)) as [[tables|e] b1];
    cbv beta iota.
  - destruct (scan_tables tables [] _) as [[[d1 x]|e] w1] eqn:E; cbv beta iota;
      [|discriminate].
    intros E'. apply val_pair_inj in E' as [<- _].
    eapply scan_tables_keeps; [|exact E]. exact P_empty.
  - intros E'. apply val_pair_inj in E' as [<- _]. exact P_empty.
Qed.

Lemma scan_text_keeps (fields : list (string * list string)) (page_text : string)
    (d : dict) :
  P d -> P (scan_text fields page_text d).
Proof.
  revert d. induction fields as [|[field pats] fields IH]; intros d Hd;
    cbn [scan_text]; auto.
  destruct (first_match pats page_text); auto.
Qed.

Lemma extract_from_page_text_keeps (d : dict) (w w' : world B) :
  extract_from_page_text w = (Val d, w') -> P d.
Proof.
  cbv [extract_from_page_text bind enter try_except drive ret any_exception].
  cbn [browser].
  destruct (page_content (browser w)) as [[text|e] b1]; cbv beta iota.
  - intros E. apply val_pair_inj in E as [<- _]. now apply scan_text_keeps.
  - intros E. apply val_pair_inj in E as [<- _]. exact P_empty.
Qed.

Lemma fetch_texts_keeps (ids : list (string * string)) (d d' : dict)
    (w w' : world B) :
  P d -> fetch_texts ids d w = (Val d', w') -> P d'.
Proof.
  revert d w. induction ids as [|[key selector] ids IH]; intros d w Hd;
    cbn [fetch_texts].
  - intros E. apply val_pair_inj in E as [<- _]. exact Hd.
  - unfold bind.
    destruct (get_element_text_run selector w) as (w1 & ->).
    apply IH. now apply P_set.
Qed.

Lemma extract_by_element_ids_keeps (d : dict) (w w' : world B) :
  extract_by_element_ids w = (Val d, w') -> P d.
Proof.
  unfold extract_by_element_ids. unfold bind at 1. cbv [enter]. cbv beta iota.
  unfold bind at 1.
  destruct (fetch_texts element_ids [] _) as [[d0|e] w1] eqn:E0; [|discriminate].
  apply fetch_texts_keeps in E0; [|exact P_empty].
  unfold bind at 1.
  destruct (extract_office_address "principal" w1) as [[p|e] w2]; [|discriminate].
  unfold bind.
  destruct (extract_office_address "registered" w2) as [[r|e] w3]; [|discriminate].
  cbv [ret]. intros E. apply val_pair_inj in E as [<- _]. auto.
Qed.

Lemma extract_fields_keeps (d : dict) (w w' : world B) :
  extract_fields w = (Val d, w') -> P d.
Proof.
  destruct (extract_fields_run w)
    as (d1 & w1 & d2 & w2 & d3 & w3 & E1 & E2 & E3 & E).
  rewrite E.
  apply extract_by_element_ids_keeps in E1.
  apply extract_from_tables_keeps in E2.
  apply extract_from_page_text_keeps in E3.
  destruct (has "business_name" d1); [|destruct (has "business_name" d2)];
    intros E'; apply val_pair_inj in E' as [<- _]; assumption.
Qed.

End TierInvariant.

Section SuccessPath.

Context {B El : Type} `{PageDriver B El}.

(** For every behaviour of the browser, the mapping the field extractor
    returns holds strings only, so [json.dumps] accepts it: the
    serialization handler of [safe_extract_json_data] is never entered for a
    mapping that comes from the page. *)
Theorem extracted_values_are_strings (w : world B) :
  exists d w',
    extract_fields w = (Val d, w')
    /\ all_text d = true
    /\ json_check (PDict d) = Val tt.
Proof.
  destruct (returns_extract_fields w) as (d & w' & E).
  exists d, w'. split; [exact E|].
  assert (Ht : all_text d = true).
  { eapply (extract_fields_keeps (fun d => all_text d = true)); eauto.
    intros k v d0. apply all_text_set. }
  split; [exact Ht | now apply json_check_all_text].
Qed.

(** When the extractor found a name and an id, the record returned is the
    extracted mapping with [search_term], [extracted_at] and [status] set.
    [business_name] and [business_id] are as extracted; [status] is
    ['success'] whatever status the page showed for the entity. *)
Theorem successful_extraction_record (search_term : string) (d : dict)
    (w wf : world B) :
  extract_fields w = (Val d, wf) ->
  has "business_name" d && has "business_id" d = true ->
  fst (extract_business_details_robust search_term w) =
    Val (PDict (add_metadata d search_term (clock wf (ticks wf))))
  /\ Dict.get "status" (add_metadata d search_term (clock wf (ticks wf))) =
       Some (PStr "success")
  /\ Dict.get "search_term" (add_metadata d search_term (clock wf (ticks wf))) =
       Some (PStr search_term)
  /\ Dict.get "business_name" (add_metadata d search_term (clock wf (ticks wf))) =
       Dict.get "business_name" d
  /\ Dict.get "business_id" (add_metadata d search_term (clock wf (ticks wf))) =
       Dict.get "business_id" d.
Proof.
  intros Ef Hboth.
  assert (Ht : all_text d = true).
  { eapply (extract_fields_keeps (fun d => all_text d = true)); eauto.
    intros k v d0. apply all_text_set. }
  assert (Hj : json_check (PDict (add_metadata d search_term (clock wf (ticks wf))))
               = Val tt).
  { apply json_check_all_text. unfold add_metadata.
    repeat apply all_text_set. exact Ht. }
  split.
  - unfold extract_business_details_robust, try_except.
    unfold bind at 1. rewrite Ef. cbv beta iota. rewrite Hboth.
    cbv [bind safe_extract_json_data now ret try_except of_result].
    rewrite Hj. reflexivity.
  - unfold add_metadata. repeat split.
    + apply dict_get_set_same.
    + rewrite dict_get_set_other by discriminate.
      rewrite dict_get_set_other by discriminate. apply dict_get_set_same.
    + now rewrite !dict_get_set_other by discriminate.
    + now rewrite !dict_get_set_other by discriminate.
Qed.

End SuccessPath.

(** On the page of [Scenario.two_ids_page] the table scan finds the name and
    the id. *)
Lemma successful_extraction_record_witness :
  fst (extract_business_details_robust "AA"
         (Sim.start Scenario.two_ids_page [] Sim.output_dirs))
  = Val (PDict [("business_id", PStr "2"); ("business_name", PStr "Acme LLC");
                ("search_term", PStr "AA");
                ("extracted_at", PStr "2026-11-04T10:00:00");
                ("status", PStr "success")]).
Proof.
  destruct (successful_extraction_record "AA"
              [("business_id", PStr "2"); ("business_name", PStr "Acme LLC")]
              (Sim.start Scenario.two_ids_page [] Sim.output_dirs)
              (snd (extract_fields
                      (Sim.start Scenario.two_ids_page [] Sim.output_dirs))))
    as (E & _).
  - vm_compute. reflexivity.
  - reflexivity.
  - rewrite E. reflexivity.
Defined.

(** * The result list and the accumulators of the coordinator *)

Section OutcomeFacts.

Context {B : Type}.

Lemma ensures_ret {A} (a : A) (Q : A -> Prop) : Q a -> ensures (ret a : M B A) Q.
Proof. intros Ha w x w' E. apply val_pair_inj in E as [<- _]. exact Ha. Qed.

Lemma ensures_raise {A} (e : exn) (Q : A -> Prop) : ensures (raise e : M B A) Q.
Proof. intros w x w' E. discriminate E. Qed.

Lemma ensures_bind {A C} (c : M B A) (k : A -> M B C) (Q1 : A -> Prop)
    (Q : C -> Prop) :
  ensures c Q1 -> (forall a, Q1 a -> ensures (k a) Q) -> ensures (bind c k) Q.
Proof.
  intros Hc Hk w x w'. unfold bind.
  destruct (c w) as [[a|e] w1] eqn:E; [|discriminate].
  apply Hk. eapply Hc; eauto.
Qed.

Lemma ensures_any {A} (c : M B A) : ensures c (fun _ => True).
Proof. intros w a w' _. exact I. Qed.

Lemma ensures_then {A C} (c : M B A) (k : A -> M B C) (Q : C -> Prop) :
  (forall a, ensures (k a) Q) -> ensures (bind c k) Q.
Proof.
  intros Hk. apply (ensures_bind c k (fun _ => True)); [apply ensures_any|].
  intros a _. apply Hk.
Qed.

Lemma ensures_try {A} (c : M B A) (p : exn -> bool) (handler : exn -> M B A)
    (Q : A -> Prop) :
  ensures c Q -> (forall e, ensures (handler e) Q) ->
  ensures (try_except c p handler) Q.
Proof.
  intros Hc Hh w x w'. unfold try_except.
  destruct (c w) as [[a|e] w1] eqn:E.
  - intros E'. apply val_pair_inj in E' as [<- _]. eapply Hc; eauto.
  - destruct (p e); [apply Hh | discriminate].
Qed.

Lemma ensures_weaken {A} (c : M B A) (Q Q' : A -> Prop) :
  ensures c Q -> (forall a, Q a -> Q' a) -> ensures c Q'.
Proof. intros Hc Hq w a w' E. eauto. Qed.

End OutcomeFacts.

Lemma grows_by_refl (n : nat) (acc : list pyvalue * nat) : grows_by n acc acc.
Proof.
  exists []. rewrite app_nil_r. simpl. repeat split; auto with arith.
Qed.

Lemma grows_by_trans (n m : nat) (a b c : list pyvalue * nat) :
  grows_by n a b -> grows_by m b c -> grows_by (n + m) a c.
Proof.
  intros (x & Hx1 & Hx2 & Hx3 & Hx4) (y & Hy1 & Hy2 & Hy3 & Hy4).
  exists (x ++ y). rewrite Hy1, Hx1, Hy2, Hx2, <- app_assoc, length_app.
  repeat split; [lia | lia |].
  apply List.Forall_app. auto.
Qed.

Lemma grows_by_more (n m : nat) (a b : list pyvalue * nat) :
  n <= m -> grows_by n a b -> grows_by m a b.
Proof.
  intros Hnm (x & H1 & H2 & H3 & H4). exists x. repeat split; auto. lia.
Qed.

Section Coordinator.

Context {B El : Type} `{PageDriver B El}.

Lemma read_result_row_entry (row : El) (i : nat) :
  ensures (read_result_row row i)
    (fun r => match r with
              | Some b => bi_row_index b = i /\ 2 <= String.length (bi_name b)
              | None => True
              end).
Proof.
  unfold read_result_row.
  apply ensures_then. intros cells.
  destruct cells as [|c0 [|c1 [|c2 cells]]]; try (apply ensures_ret; exact I).
  apply ensures_then. intros business_id.
  apply ensures_then. intros business_name.
  apply ensures_ret.
  destruct (negb (String.eqb business_name "")); cbn [andb]; [|exact I].
  destruct (Nat.ltb_spec 1 (String.length business_name)); [|exact I].
  cbn [bi_row_index bi_name]. split; [reflexivity | lia].
Qed.

Lemma collect_rows_entries (rows : list El) (i : nat) (acc : list business_info) :
  ensures (collect_rows rows i acc)
    (fun l => exists new,
       l = acc ++ new
       /\ Forall (fun b => i <= bi_row_index b /\ 2 <= String.length (bi_name b)) new
       /\ StronglySorted lt (map bi_row_index new)).
Proof.
  revert i acc. induction rows as [|row rows IH]; intros i acc; cbn [collect_rows].
  - apply ensures_ret. exists []. rewrite app_nil_r.
    repeat split; constructor.
  - intros w l w'. unfold bind, attempt.
    destruct (read_result_row row i w) as [[[b|]|e] w1] eqn:E; cbv beta iota.
    + intros El'. apply (IH (S i) (acc ++ [b])) in El' as (new & -> & Hall & Hsorted).
      pose proof (read_result_row_entry row i w _ _ E) as [Hidx Hname].
      exists (b :: new). rewrite <- app_assoc. split; [reflexivity|]. split.
      * constructor; [lia|].
        eapply List.Forall_impl; [|exact Hall]. intros x [Hx1 Hx2]. split; [lia|exact Hx2].
      * cbn [map]. constructor; [exact Hsorted|].
        apply List.Forall_map. eapply List.Forall_impl; [|exact Hall].
        intros x [Hx1 _]. lia.
    + intros El'. apply (IH (S i) acc) in El' as (new & -> & Hall & Hsorted).
      exists new. split; [reflexivity|]. split; [|exact Hsorted].
      eapply List.Forall_impl; [|exact Hall]. intros x [Hx1 Hx2]. split; [lia|exact Hx2].
    + intros El'. apply (IH (S i) acc) in El' as (new & -> & Hall & Hsorted).
      exists new. split; [reflexivity|]. split; [|exact Hsorted].
      eapply List.Forall_impl; [|exact Hall]. intros x [Hx1 Hx2]. split; [lia|exact Hx2].
Qed.

(** Every entry of the list that [extract_business_links_from_results]
    returns has a row index of at least 1 (the header row is skipped) and a
    name of at least two characters; the row indices grow strictly along the
    list, so no row is listed twice. *)
Theorem result_links_are_well_formed (search_term : string)
    (businesses : list business_info) (w w' : world B) :
  extract_business_links_from_results search_term w = (Val businesses, w') ->
  well_formed_links businesses.
Proof.
  revert w businesses w'.
  change (ensures (extract_business_links_from_results search_term)
            well_formed_links).
  assert (Hnil : well_formed_links []) by (split; constructor).
  unfold extract_business_links_from_results.
  apply ensures_try.
  - apply ensures_then. intros [table|]; [|apply ensures_ret; exact Hnil].
    apply ensures_then. intros rows.
    eapply ensures_weaken; [apply collect_rows_entries|].
    intros l (new & -> & Hall & Hsorted). cbn [app]. split; assumption.
  - intros e. apply ensures_then. intros src.
    apply ensures_then. intros _. apply ensures_ret. exact Hnil.
Qed.

Lemma process_details_grows (search_term : string) (business : business_info)
    (acc : list pyvalue * nat) :
  ensures (process_details search_term business acc) (grows_by 1 acc).
Proof.
  unfold process_details.
  apply ensures_then. intros details.
  assert (Hskip : ensures
            (page_source <-- drive page_content ;;
             save_error_log search_term ("Invalid data for " +:+ bi_name business)
               page_source ;;;
             ret acc) (grows_by 1 acc)).
  { apply ensures_then. intros src. apply ensures_then. intros _.
    apply ensures_ret, grows_by_refl. }
  destruct details as [| | | | |d|]; try exact Hskip.
  destruct (truthy (PDict d)); [|exact Hskip].
  apply ensures_then. intros filename.
  apply ensures_then. intros _.
  destruct (eq_str (Dict.get_or_none "status" d) "success") eqn:Es.
  - apply ensures_ret. exists [PDict d]. cbn [fst snd length].
    repeat split; [lia | auto |].
    constructor; [|constructor]. exists d. split; [reflexivity|].
    unfold Dict.get_or_none in Es.
    destruct (Dict.get "status" d) as [[| | |s| | |]|]; try discriminate Es.
    cbn [eq_str] in Es. apply String.eqb_eq in Es. now subst.
  - apply ensures_ret, grows_by_refl.
Qed.

Lemma process_rows_grows (search_term : string) (todo : list business_info)
    (acc : list pyvalue * nat) :
  ensures (process_rows search_term todo acc) (grows_by (length todo) acc).
Proof.
  revert acc. induction todo as [|business rest IH]; intros acc;
    cbn [process_rows length].
  - apply ensures_ret, grows_by_refl.
  - apply ensures_then. intros [|].
    + eapply ensures_bind; [apply process_details_grows|].
      intros acc1 H1.
      destruct rest as [|next rest'].
      * apply ensures_ret. eapply grows_by_more; [|exact H1]. lia.
      * apply ensures_then. intros [|].
        -- eapply ensures_weaken; [apply IH|].
           intros acc2 H2. apply (grows_by_trans 1 _ acc acc1 acc2 H1 H2).
        -- apply ensures_ret. eapply grows_by_more; [|exact H1]. lia.
    + eapply ensures_weaken; [apply IH|].
      intros acc2 H2. eapply grows_by_more; [|exact H2]. lia.
Qed.

Lemma process_term_grows (search_term : string) (is_last : bool)
    (acc : list pyvalue * nat) :
  ensures (process_term search_term is_last acc) (grows_by 3 acc).
Proof.
  unfold process_term.
  apply ensures_then. intros ready. destruct (negb ready).
  { apply ensures_then. intros src. apply ensures_then. intros _.
    apply ensures_ret, grows_by_refl. }
  apply ensures_then. intros searched. destruct (negb searched).
  { apply ensures_ret, grows_by_refl. }
  apply ensures_then. intros [|b businesses].
  { apply ensures_then. intros _. apply ensures_ret, grows_by_refl. }
  eapply ensures_bind; [apply process_rows_grows|].
  intros acc1 H1. apply ensures_then. intros _. apply ensures_ret.
  eapply grows_by_more; [|exact H1]. apply firstn_le_length.
Qed.

Lemma process_terms_grows (terms : list string) (last_term : string)
    (acc : list pyvalue * nat) :
  ensures (process_terms terms last_term acc) (grows_by (3 * length terms) acc).
Proof.
  revert acc. induction terms as [|term terms IH]; intros acc;
    cbn [process_terms length].
  - apply ensures_ret, grows_by_refl.
  - eapply ensures_bind; [apply process_term_grows|].
    intros acc1 H1. eapply ensures_weaken; [apply IH|].
    intros acc2 H2.
    eapply grows_by_more; [|exact (grows_by_trans _ _ _ _ _ H1 H2)]. lia.
Qed.

(** The accumulators of [run_fully_automated_crawler] after the loop over
    the search terms: [total_companies_collected] equals the length of
    [all_business_data], at most three records were added per search term,
    and every record collected is tagged ['success']. *)
Theorem collected_records_invariant (terms : list string) (last_term : string)
    (all_business_data : list pyvalue) (total : nat) (w w' : world B) :
  process_terms terms last_term ([], 0) w = (Val (all_business_data, total), w') ->
  total = length all_business_data
  /\ length all_business_data <= 3 * length terms
  /\ Forall tagged_success all_business_data.
Proof.
  intros E. apply process_terms_grows in E as (new & H1 & H2 & H3 & H4).
  cbn [fst snd app] in *. subst. auto.
Qed.

End Coordinator.

(** The result list of [Scenario.results_page] has the one entity, at row 1. *)
Lemma result_links_are_well_formed_witness :
  well_formed_links [BusinessInfo "Acme, LLC" "1234567" 1].
Proof.
  apply (result_links_are_well_formed "AA" _
           (Sim.start Scenario.results_page [] Sim.output_dirs)
           (snd (extract_business_links_from_results "AA"
                   (Sim.start Scenario.results_page [] Sim.output_dirs)))).
  vm_compute. reflexivity.
Defined.

(** On the scripted portal every search term leads to the same entity: eight
    records are collected, and the counter says eight. *)
Lemma collected_records_invariant_witness :
  match fst (process_terms search_terms "KANSAS" ([], 0)
               (Sim.start Scenario.search_page Scenario.portal Sim.output_dirs)) with
  | Val (all_business_data, total) =>
      total = 8 /\ length all_business_data = 8
  | Raise _ => False
  end.
Proof.
  destruct (process_terms search_terms "KANSAS" ([], 0)
              (Sim.start Scenario.search_page Scenario.portal Sim.output_dirs))
    as [[[l n]|e] w'] eqn:E; cbn [fst].
  - destruct (collected_records_invariant _ _ _ _ _ _ E) as (Hn & _ & _).
    assert (Hl : length l = 8).
    { assert (E' : fst (process_terms search_terms "KANSAS" ([], 0)
                          (Sim.start Scenario.search_page Scenario.portal
                             Sim.output_dirs)) = Val (l, n)) by now rewrite E.
      vm_compute in E'. inversion E'. reflexivity. }
    split; [rewrite Hn; exact Hl | exact Hl].
  - assert (E' : fst (process_terms search_terms "KANSAS" ([], 0)
                        (Sim.start Scenario.search_page Scenario.portal
                           Sim.output_dirs)) = Raise e) by now rewrite E.
    vm_compute in E'. discriminate E'.
Defined.

(** * Which stages can raise *)

Section Stages.

Context {B El : Type} `{PageDriver B El}.

Lemma returns_save_error_log (st msg src : string) :
  returns (save_error_log st msg src).
Proof. unfold save_error_log. apply returns_guarded. intros e. apply returns_ret. Qed.

Lemma returns_save_html_fallback (html pre ty : string) :
  returns (save_html_fallback html pre ty).
Proof.
  unfold save_html_fallback. apply returns_guarded. intros e. apply returns_ret.
Qed.

(** The navigation bootstrap, the return to the result list, the closing of
    the browser and the save of the combined artifact never raise, whatever
    the browser, the file system and the clock do: each of them answers every
    exception of its body with a value. *)
Theorem guarded_steps_never_raise :
  returns navigate_to_homepage_first
  /\ returns return_to_search_results
  /\ returns close
  /\ (forall all_business_data, returns (save_combined all_business_data)).
Proof.
  repeat split.
  - unfold navigate_to_homepage_first. apply returns_guarded. intros e.
    apply returns_guarded. intros e'. apply returns_ret.
  - unfold return_to_search_results. apply returns_guarded. intros e.
    apply returns_ret.
  - unfold close. apply returns_guarded. intros e. apply returns_ret.
  - intros [|v l]; cbn [save_combined]; [apply returns_ret|].
    apply returns_bind; [apply returns_now|]. intros t. cbv zeta.
    apply returns_guarded. intros e. apply returns_ret.
Qed.

Lemma returns_read_markup :
  markup_readable -> returns (drive page_content).
Proof.
  intros Hm w. unfold drive.
  destruct (Hm (browser w)) as (html & b' & ->). eexists _, _. reflexivity.
Qed.

(** What every stage does in its [except] clause. *)
Lemma returns_log_and {A} (st : string) (msg : string) (a : A) :
  markup_readable ->
  returns (page_source <-- drive page_content ;;
           save_error_log st msg page_source ;;; ret a).
Proof.
  intros Hm. apply returns_bind; [now apply returns_read_markup|]. intros src.
  apply returns_bind; [apply returns_save_error_log|]. intros _. apply returns_ret.
Qed.

(** When the page markup can be read in every state of the browser, the
    stages between the bootstrap and the persistence never raise: the search
    setup, the search submission, the reading of the result list, the click
    on a row and the extraction of the details each end with a value,
    whatever else the browser and the file system do. *)
Theorem stages_never_raise_with_readable_markup :
  markup_readable ->
  (forall search_term, returns (automated_search_setup search_term))
  /\ (forall search_term, returns (perform_search search_term))
  /\ (forall search_term, returns (extract_business_links_from_results search_term))
  /\ (forall business search_term,
        returns (click_business_by_index business search_term))
  /\ (forall search_term, returns (extract_business_details_robust search_term)).
Proof.
  intros Hm. repeat split; intros.
  - unfold automated_search_setup. apply returns_guarded. intros e.
    now apply returns_log_and.
  - unfold perform_search. apply returns_guarded. intros e.
    now apply returns_log_and.
  - unfold extract_business_links_from_results. apply returns_guarded. intros e.
    now apply returns_log_and.
  - unfold click_business_by_index. apply returns_guarded. intros e.
    now apply returns_log_and.
  - unfold extract_business_details_robust. apply returns_guarded. intros e.
    apply returns_bind; [now apply returns_read_markup|]. intros src.
    apply returns_bind; [apply returns_save_error_log|]. intros _.
    apply returns_bind; [apply returns_now|]. intros t. apply returns_ret.
Qed.

(** The enhanced save returns what the original returns wherever the
    original returns, and raises what the original raises wherever that is
    anything but a [TypeError] or a [ValueError]: only serialization failures
    are treated.  In both cases the two leave the browser in the same state
    and, the session log apart, the same files. *)
Theorem save_with_fallback_extends_save_data (data : pyvalue) (filename : string)
    (w : world B) :
  match save_data data filename w with
  | (Val location, w1) =>
      exists w2,
        save_data_with_fallback data filename w = (Val location, w2)
        /\ browser w2 = browser w1
        /\ apart_from_log (files (fs w1)) (files (fs w2))
  | (Raise e, w1) =>
      is_serialization_error e = false ->
      exists w2,
        save_data_with_fallback data filename w = (Raise e, w2)
        /\ browser w2 = browser w1
        /\ apart_from_log (files (fs w1)) (files (fs w2))
  end.
Proof.
  unfold save_data_with_fallback, try_except, save_data. cbv zeta.
  match goal with
  | |- context [let (r, w') := ?c in _] => destruct c as [[location|e] w1]
  end.
  - exists w1. repeat split.
  - intros ->. exists w1. repeat split.
Qed.

(** Round trip of the original save: when it returns, it returns the path
    [output_dir/filename], the file at that path holds exactly what was
    passed (the text of ['html_content'] when the data carries one, the JSON
    text of the data otherwise) and nothing of what the file held before, and
    no other file and nothing of the browser has changed. *)
Theorem save_data_round_trip (data : pyvalue) (filename : string)
    (w w' : world B) (location : pyvalue) :
  save_data data filename w = (Val location, w') ->
  location = PStr (Path.join output_dir filename)
  /\ files (fs w') !! Path.join output_dir filename = Some [stored data]
  /\ (forall p, p <> Path.join output_dir filename ->
        files (fs w') !! p = files (fs w) !! p)
  /\ browser w' = browser w.
Proof.
  unfold save_data. cbv zeta. set (path := Path.join output_dir filename).
  assert (Hjson : forall v,
            (open_w path ;;; json_dump v path ;;; ret (PStr path)) w
            = (Val location, w') ->
            location = PStr path
            /\ files (fs w') !! path = Some [JsonText v]
            /\ (forall p, p <> path -> files (fs w') !! p = files (fs w) !! p)
            /\ browser w' = browser w).
  { intros v. unfold bind, open_w, json_dump, write, raise, ret, with_files.
    destruct (can_open (fs w) path) as [[]|e]; [|discriminate].
    destruct (json_check v) as [[]|e]; [|discriminate].
    intros E. apply val_pair_inj in E as [<- <-].
    cbn [browser fs files]. repeat split.
    - rewrite !lookup_insert_eq. reflexivity.
    - intros p Hp. rewrite !lookup_insert_ne by congruence. reflexivity. }
  destruct data as [| | | | |d|]; cbn [stored]; try apply Hjson.
  destruct (Dict.get "html_content" d) as [html|]; [|apply Hjson].
  unfold bind, open_w, write_value, write, raise, ret, with_files.
  destruct (can_open (fs w) path) as [[]|e]; [|discriminate].
  destruct html; try discriminate.
  intros E. apply val_pair_inj in E as [<- <-].
  cbn [browser fs files]. repeat split.
  - rewrite !lookup_insert_eq. reflexivity.
  - intros p Hp. rewrite !lookup_insert_ne by congruence. reflexivity.
Qed.

End Stages.

(** On the empty page of [Still] the search setup finds no input field, logs
    that, and returns [False]. *)
Lemma stages_never_raise_with_readable_markup_witness :
  exists ready w', automated_search_setup "AA" Still.start = (Val ready, w').
Proof.
  assert (Hm : markup_readable (B := unit)).
  { intros b. eexists _, _. reflexivity. }
  destruct (stages_never_raise_with_readable_markup Hm) as (Hsetup & _).
  exact (Hsetup "AA" Still.start).
Defined.

(** Without the directory [json/] both saves raise the same [OSError]. *)
Lemma save_with_fallback_extends_save_data_witness :
  fst (save_data_with_fallback (PDict Scenario.first_filing)
         "json/business_Acme_LLC.json"
         (Sim.start Scenario.blank_page [] Scenario.no_json_dir))
  = fst (save_data (PDict Scenario.first_filing) "json/business_Acme_LLC.json"
           (Sim.start Scenario.blank_page [] Scenario.no_json_dir)).
Proof.
  pose proof (save_with_fallback_extends_save_data (PDict Scenario.first_filing)
                "json/business_Acme_LLC.json"
                (Sim.start Scenario.blank_page [] Scenario.no_json_dir)) as T.
  destruct (save_data (PDict Scenario.first_filing) "json/business_Acme_LLC.json"
              (Sim.start Scenario.blank_page [] Scenario.no_json_dir))
    as [[location|e] w'] eqn:E.
  - destruct T as (w2 & -> & _). reflexivity.
  - destruct T as (w2 & -> & _); [|reflexivity].
    assert (E' : fst (save_data (PDict Scenario.first_filing)
                        "json/business_Acme_LLC.json"
                        (Sim.start Scenario.blank_page [] Scenario.no_json_dir))
                 = Raise e) by now rewrite E.
    vm_compute in E'. inversion E'. reflexivity.
Defined.

(** A record saved with every output directory in place. *)
Lemma save_data_round_trip_witness :
  files (fs (snd (save_data (PDict Scenario.first_filing) "json/business_Acme_LLC.json"
                    (Sim.start Scenario.blank_page [] Sim.output_dirs))))
    !! "kansas_business_data/json/business_Acme_LLC.json"
  = Some [JsonText (PDict Scenario.first_filing)].
Proof.
  pose proof (save_data_round_trip (PDict Scenario.first_filing)
                "json/business_Acme_LLC.json"
                (Sim.start Scenario.blank_page [] Sim.output_dirs)) as T.
  assert (E : fst (save_data (PDict Scenario.first_filing)
                     "json/business_Acme_LLC.json"
                     (Sim.start Scenario.blank_page [] Sim.output_dirs))
              = Val (PStr "kansas_business_data/json/business_Acme_LLC.json"))
    by (vm_compute; reflexivity).
  destruct (save_data (PDict Scenario.first_filing) "json/business_Acme_LLC.json"
              (Sim.start Scenario.blank_page [] Sim.output_dirs)) as [r w'].
  cbn [fst snd] in *. subst r.
  exact (proj1 (proj2 (T w' _ eq_refl))).
Defined.

(** * What touches the output directory *)

Section Files.

Context {B El : Type} `{PageDriver B El}.

Variable X : Type.
Variable f : world B -> X.
Hypothesis f_browser : ignores_browser f.
Hypothesis f_trace : ignores_trace f.

Lemma keeps_ret {A} (a : A) : keeps f (ret a : M B A).
Proof. intros w. reflexivity. Qed.

Lemma keeps_raise {A} (e : exn) : keeps f (raise e : M B A).
Proof. intros w. reflexivity. Qed.

Lemma keeps_bind {A C} (c : M B A) (k : A -> M B C) :
  keeps f c -> (forall a, keeps f (k a)) -> keeps f (bind c k).
Proof.
  intros Hc Hk w. unfold bind. specialize (Hc w).
  destruct (c w) as [[a|e] w']; simpl in *.
  - now rewrite Hk.
  - exact Hc.
Qed.

Lemma keeps_try {A} (c : M B A) (p : exn -> bool) (handler : exn -> M B A) :
  keeps f c -> (forall e, keeps f (handler e)) -> keeps f (try_except c p handler).
Proof.
  intros Hc Hh w. unfold try_except. specialize (Hc w).
  destruct (c w) as [[a|e] w']; simpl in *; auto.
  destruct (p e); simpl; auto. now rewrite Hh.
Qed.

Lemma keeps_attempt {A} (c : M B A) : keeps f c -> keeps f (attempt c).
Proof.
  intros Hc w. unfold attempt. specialize (Hc w).
  destruct (c w) as [r w']. exact Hc.
Qed.

Lemma keeps_drive {A} (op : B -> result A * B) : keeps f (drive op).
Proof.
  intros w. unfold drive. destruct (op (browser w)) as [r b']. cbn [snd].
  apply f_browser.
Qed.

Lemma keeps_enter (t : tier) : keeps f (enter t : M B unit).
Proof. intros w. unfold enter. cbn [snd]. apply f_trace. Qed.

Ltac keeps_step :=
  first
    [ apply keeps_ret | apply keeps_raise | apply keeps_enter
    | apply keeps_drive | assumption
    | apply keeps_bind; [| intros ?]
    | apply keeps_try; [| intros ?]
    | apply keeps_attempt
    | match goal with
      | |- keeps _ (match ?x with _ => _ end) => destruct x
      | |- keeps _ (if ?b then _ else _) => destruct b
      end ].

Ltac keeps_auto := cbv zeta; repeat keeps_step.

Lemma keeps_check_and_solve_captcha : keeps f check_and_solve_captcha.
Proof.
  unfold check_and_solve_captcha.
  induction captcha_indicators as [|i rest IH]; cbn [find_indicator].
  - apply keeps_ret.
  - apply keeps_bind; [apply keeps_drive|]. intros [el|]; [apply keeps_ret|exact IH].
Qed.

Lemma keeps_navigate_to_homepage_first : keeps f navigate_to_homepage_first.
Proof.
  pose proof keeps_check_and_solve_captcha.
  unfold navigate_to_homepage_first. keeps_auto.
Qed.

Lemma keeps_return_to_search_results : keeps f return_to_search_results.
Proof. unfold return_to_search_results. keeps_auto. Qed.

Lemma keeps_close : keeps f close.
Proof. unfold close. keeps_auto. Qed.

Lemma keeps_stripped_text (el : El) : keeps f (stripped_text el).
Proof. unfold stripped_text. keeps_auto. Qed.

Lemma keeps_get_element_text (selector : string) :
  keeps f (get_element_text selector).
Proof. unfold get_element_text. keeps_auto; apply keeps_stripped_text. Qed.

Lemma keeps_extract_office_address (office_type : string) :
  keeps f (extract_office_address office_type).
Proof.
  unfold extract_office_address, office_address_parts.
  keeps_auto; apply keeps_get_element_text.
Qed.

Lemma keeps_fetch_texts (ids : list (string * string)) (d : dict) :
  keeps f (fetch_texts ids d).
Proof.
  revert d; induction ids as [|[k sel] ids IH]; intros d; cbn [fetch_texts].
  - apply keeps_ret.
  - apply keeps_bind; [apply keeps_get_element_text | intros; apply IH].
Qed.

Lemma keeps_scan_rows (rows : list El) (d : dict) : keeps f (scan_rows rows d).
Proof.
  revert d; induction rows as [|row rows IH]; intros d; cbn [scan_rows].
  - apply keeps_ret.
  - apply keeps_bind.
    + apply keeps_attempt. unfold scan_row. keeps_auto; apply keeps_stripped_text.
    + intros [d'|e]; [apply IH | apply keeps_ret].
Qed.

Lemma keeps_scan_tables (tables : list El) (d : dict) :
  keeps f (scan_tables tables d).
Proof.
  revert d; induction tables as [|t tables IH]; intros d; cbn [scan_tables].
  - apply keeps_ret.
  - apply keeps_bind; [apply keeps_attempt, keeps_drive|].
    intros [rows|e]; [|apply keeps_ret].
    apply keeps_bind; [apply keeps_scan_rows|].
    intros [d' [e|]]; [apply keeps_ret | apply IH].
Qed.

Lemma keeps_extract_fields : keeps f extract_fields.
Proof.
  assert (H1 : keeps f extract_by_element_ids).
  { unfold extract_by_element_ids.
    keeps_auto; first [apply keeps_fetch_texts | apply keeps_extract_office_address]. }
  assert (H2 : keeps f extract_from_tables).
  { unfold extract_from_tables.
    apply keeps_bind; [apply keeps_enter|]. intros _.
    apply keeps_bind; [apply keeps_attempt, keeps_drive|].
    intros [tables|e]; [|apply keeps_ret].
    apply keeps_bind; [apply keeps_scan_tables | intros; apply keeps_ret]. }
  assert (H3 : keeps f extract_from_page_text).
  { unfold extract_from_page_text. keeps_auto. }
  unfold extract_fields.
  apply keeps_bind; [exact H1 | intros d1].
  apply keeps_bind.
  - destruct (negb (has "business_name" d1)); [exact H2 | apply keeps_ret].
  - intros d2. destruct (negb (has "business_name" d2)); [exact H3 | apply keeps_ret].
Qed.

End Files.

Section BrowserOnly.

Context {B El : Type} `{PageDriver B El}.

Lemma fs_ignores_browser : ignores_browser (fs : world B -> filesystem).
Proof. intros b w. reflexivity. Qed.

Lemma fs_ignores_trace : ignores_trace (fs : world B -> filesystem).
Proof. intros t w. reflexivity. Qed.

Lemma trace_ignores_browser : ignores_browser (tiers_run : world B -> list tier).
Proof. intros b w. reflexivity. Qed.

Lemma same_files_apart_from_log (w w' : world B) :
  fs w' = fs w -> apart_from_log (files (fs w)) (files (fs w')).
Proof. intros E p _. now rewrite E. Qed.

(** The steps that only talk to the browser write no file of their own:
    after the CAPTCHA check, the navigation bootstrap, the return to the
    result list, the closing of the browser and the extraction of the fields
    by the three strategies, the files are what they were, the session log
    apart, whether the step returned or raised. *)
Theorem browser_steps_write_no_file (w : world B) :
  apart_from_log (files (fs w)) (files (fs (snd (check_and_solve_captcha w))))
  /\ apart_from_log (files (fs w)) (files (fs (snd (navigate_to_homepage_first w))))
  /\ apart_from_log (files (fs w)) (files (fs (snd (return_to_search_results w))))
  /\ apart_from_log (files (fs w)) (files (fs (snd (close w))))
  /\ apart_from_log (files (fs w)) (files (fs (snd (extract_fields w)))).
Proof.
  repeat split; apply same_files_apart_from_log.
  - apply (keeps_check_and_solve_captcha _ fs fs_ignores_browser).
  - apply (keeps_navigate_to_homepage_first _ fs fs_ignores_browser).
  - apply (keeps_return_to_search_results _ fs fs_ignores_browser).
  - apply (keeps_close _ fs fs_ignores_browser).
  - apply (keeps_extract_fields _ fs fs_ignores_browser fs_ignores_trace).
Qed.

(** When the navigation bootstrap fails, the crawl ends at once with a
    value: no strategy is entered and, the session log apart, no file is
    written, not even an error record. *)
Theorem failed_bootstrap_leaves_no_trace (w w' : world B) :
  navigate_to_homepage_first w = (Val false, w') ->
  run_fully_automated_crawler w = (Val tt, w')
  /\ apart_from_log (files (fs w)) (files (fs w'))
  /\ tiers_run w' = tiers_run w.
Proof.
  intros E.
  pose proof (keeps_navigate_to_homepage_first _ fs fs_ignores_browser w) as Hf.
  pose proof (keeps_navigate_to_homepage_first _ tiers_run trace_ignores_browser w)
    as Hq.
  rewrite E in Hf, Hq. cbn [snd] in Hf, Hq.
  split; [|split].
  - unfold run_fully_automated_crawler, bind. rewrite E. reflexivity.
  - now apply same_files_apart_from_log.
  - exact Hq.
Qed.

(** [main] never raises, and it always closes the browser last: whatever
    the crawl did, returned or raised (a failed persistence, for one),
    [close] runs on the state the crawl left, and [main] returns [None]. *)
Theorem main_never_raises (w : world B) :
  main w = (Val tt, snd (close (snd (run_fully_automated_crawler w)))).
Proof.
  assert (Hc : forall w1, close w1 = (Val tt, snd (close w1))).
  { intros w1.
    assert (Hr : returns close).
    { unfold close. apply returns_guarded. intros e. apply returns_ret. }
    destruct (Hr w1) as ([] & w2 & E). now rewrite E. }
  unfold main, finally, bind, attempt, try_except, of_result, any_exception, ret.
  destruct (run_fully_automated_crawler w) as [[[]|e] w1]; cbn [snd];
    now rewrite (Hc w1).
Qed.

End BrowserOnly.

(** With no page of the portal reachable, both navigation attempts fail. *)
Lemma failed_bootstrap_leaves_no_trace_witness :
  run_fully_automated_crawler (Sim.start Scenario.blank_page [] Sim.output_dirs)
  = (Val tt, Sim.start Scenario.blank_page [] Sim.output_dirs).
Proof.
  apply (failed_bootstrap_leaves_no_trace
           (Sim.start Scenario.blank_page [] Sim.output_dirs)
           (Sim.start Scenario.blank_page [] Sim.output_dirs)).
  vm_compute. reflexivity.
Defined.

(** * What the records and the names are made of *)

Section Records.

Context {B El : Type} `{PageDriver B El}.

Lemma save_html_fallback_value (html pre ty : string) :
  ensures (save_html_fallback html pre ty)
    (fun v => v = PNone \/ exists s, v = PStr s).
Proof.
  unfold save_html_fallback. apply ensures_try.
  - apply ensures_then. intros t. cbv zeta.
    do 5 (apply ensures_then; intros ?).
    apply ensures_then. intros _. apply ensures_ret. right. eauto.
  - intros e. apply ensures_ret. now left.
Qed.

Lemma json_check_atom (v : pyvalue) :
  v = PNone \/ (exists s, v = PStr s) -> json_check v = Val tt.
Proof. intros [->|[s ->]]; reflexivity. Qed.

Lemma preview_atom (v : pyvalue) :
  preview v = PNone \/ exists s, preview v = PStr s.
Proof. unfold preview. destruct (truthy v); eauto. Qed.

Lemma safe_extract_json_data_checked (business_data : pyvalue)
    (search_term : string) :
  ensures (safe_extract_json_data business_data search_term)
    (fun r => json_check (fst r) = Val tt).
Proof.
  unfold safe_extract_json_data. apply ensures_then. intros data.
  apply ensures_try.
  - intros w r w'. unfold bind, of_result, ret.
    destruct (json_check data) as [[]|e] eqn:E; [|discriminate].
    intros E'. apply val_pair_inj in E' as [<- _]. exact E.
  - intros e. apply ensures_then. intros html.
    eapply ensures_bind; [apply save_html_fallback_value|].
    intros html_file Hfile. apply ensures_then. intros t. cbv zeta.
    apply ensures_ret. cbn [fst].
    apply json_check_atom in Hfile.
    pose proof (json_check_atom _ (preview_atom data)) as Hp.
    cbn. rewrite Hfile, Hp. reflexivity.
Qed.

Lemma add_metadata_tagged (d : dict) (search_term : string) (t : datetime) :
  tagged_record search_term (PDict (add_metadata d search_term t)).
Proof.
  exists (add_metadata d search_term t). split; [reflexivity|].
  unfold add_metadata, Dict.mem. rewrite dict_get_set_same. split; [reflexivity|].
  rewrite !dict_get_set_other by discriminate. apply dict_get_set_same.
Qed.

Lemma safe_extract_json_data_tagged (d0 : dict) (search_term : string) :
  ensures (safe_extract_json_data (PDict d0) search_term)
    (fun r => tagged_record search_term (fst r)).
Proof.
  unfold safe_extract_json_data.
  eapply ensures_bind with (Q1 := tagged_record search_term).
  { apply ensures_then. intros t. apply ensures_ret, add_metadata_tagged. }
  intros data Hdata. apply ensures_try.
  - apply ensures_then. intros _. apply ensures_ret. exact Hdata.
  - intros e. do 3 (apply ensures_then; intros ?). cbv zeta.
    apply ensures_ret. eexists. split; [reflexivity|]. split; reflexivity.
Qed.

(** Whatever [safe_extract_json_data] is given, the record it returns can
    be serialized; and so can every record that
    [extract_business_details_robust] returns, which is a dict with a
    [status] and the search term. *)
Theorem returned_records_are_serializable (search_term : string) :
  (forall (business_data : pyvalue) (w w' : world B) (r : pyvalue * pyvalue),
      safe_extract_json_data business_data search_term w = (Val r, w') ->
      json_check (fst r) = Val tt)
  /\ (forall (w : world B) (record : pyvalue) (w' : world B),
        extract_business_details_robust search_term w = (Val record, w') ->
        json_check record = Val tt /\ tagged_record search_term record).
Proof.
  split.
  { intros data w w' r E. exact (safe_extract_json_data_checked _ _ _ _ _ E). }
  change (ensures (extract_business_details_robust search_term)
            (fun record => json_check record = Val tt
                           /\ tagged_record search_term record)).
  assert (Hsafe : forall d0,
            ensures (r <-- safe_extract_json_data (PDict d0) search_term ;;
                     ret (fst r))
              (fun record => json_check record = Val tt
                             /\ tagged_record search_term record)).
  { intros d0 w record w'. unfold bind, ret.
    destruct (safe_extract_json_data (PDict d0) search_term w) as [[r|e] w1] eqn:E;
      [|discriminate].
    intros E'. apply val_pair_inj in E' as [<- _]. split.
    - exact (safe_extract_json_data_checked _ _ _ _ _ E).
    - exact (safe_extract_json_data_tagged _ _ _ _ _ E). }
  unfold extract_business_details_robust. apply ensures_try.
  - apply ensures_then. intros d.
    destruct (has "business_name" d && has "business_id" d); [apply Hsafe|].
    apply ensures_then. intros html. apply ensures_then. intros t. cbv zeta.
    apply Hsafe.
  - intros e. do 3 (apply ensures_then; intros ?).
    apply ensures_ret. split; [reflexivity|].
    eexists. split; [reflexivity|]. split; reflexivity.
Qed.

End Records.

(** The record of the scripted detail page. *)
Lemma returned_records_are_serializable_witness :
  match fst (extract_business_details_robust "AA"
               (Sim.start Scenario.detail_page [] Sim.output_dirs)) with
  | Val record => json_check record = Val tt
  | Raise _ => False
  end.
Proof.
  destruct (extract_business_details_robust "AA"
              (Sim.start Scenario.detail_page [] Sim.output_dirs))
    as [[record|e] w'] eqn:E; cbn [fst].
  - exact (proj1 (proj2 (returned_records_are_serializable "AA") _ _ _ E)).
  - assert (E' : fst (extract_business_details_robust "AA"
                        (Sim.start Scenario.detail_page [] Sim.output_dirs))
                 = Raise e) by now rewrite E.
    vm_compute in E'. discriminate E'.
Defined.

(** * Strings: reversal, stripping, and the first separator *)

Lemma rev_onto_append (s acc1 acc2 : string) :
  PyStr.rev_onto s (acc1 +:+ acc2) = PyStr.rev_onto s acc1 +:+ acc2.
Proof.
  revert acc1. induction s as [|c s IH]; intros acc1; cbn [PyStr.rev_onto].
  - reflexivity.
  - apply (IH (String c acc1)).
Qed.

Lemma rev_onto_rev (s acc : string) : PyStr.rev_onto s acc = PyStr.rev s +:+ acc.
Proof. unfold PyStr.rev. now rewrite <- rev_onto_append. Qed.

Lemma append_assoc (a b c : string) : (a +:+ b) +:+ c = a +:+ (b +:+ c).
Proof.
  induction a as [|x a IH]; [reflexivity|].
  change (String x ((a +:+ b) +:+ c) = String x (a +:+ (b +:+ c))).
  now rewrite IH.
Qed.

Lemma append_empty (a : string) : a +:+ "" = a.
Proof.
  induction a as [|x a IH]; [reflexivity|].
  change (String x (a +:+ "") = String x a). now rewrite IH.
Qed.

Lemma rev_cons (c : ascii) (s : string) :
  PyStr.rev (String c s) = PyStr.rev s +:+ String c "".
Proof. unfold PyStr.rev at 1. cbn [PyStr.rev_onto]. apply rev_onto_rev. Qed.

Lemma rev_append (a b : string) : PyStr.rev (a +:+ b) = PyStr.rev b +:+ PyStr.rev a.
Proof.
  induction a as [|c a IH].
  - change ("" +:+ b) with b. now rewrite append_empty.
  - change (String c a +:+ b) with (String c (a +:+ b)).
    now rewrite !rev_cons, IH, append_assoc.
Qed.

Lemma rev_involutive (s : string) : PyStr.rev (PyStr.rev s) = s.
Proof.
  induction s as [|c s IH]; [reflexivity|].
  rewrite rev_cons, rev_append, IH. reflexivity.
Qed.

Lemma all_chars_append (p : ascii -> bool) (a b : string) :
  all_chars p (a +:+ b) = all_chars p a && all_chars p b.
Proof.
  induction a as [|c a IH]; [reflexivity|].
  change (String c a +:+ b) with (String c (a +:+ b)). cbn [all_chars].
  now rewrite IH, andb_assoc.
Qed.

Lemma all_chars_rev (p : ascii -> bool) (s : string) :
  all_chars p (PyStr.rev s) = all_chars p s.
Proof.
  induction s as [|c s IH]; [reflexivity|].
  rewrite rev_cons, all_chars_append, IH. cbn [all_chars].
  rewrite andb_true_r. apply andb_comm.
Qed.

Lemma all_chars_impl (p q : ascii -> bool) (s : string) :
  (forall c, p c = true -> q c = true) ->
  all_chars p s = true -> all_chars q s = true.
Proof.
  intros Hpq. induction s as [|c s IH]; cbn [all_chars]; [reflexivity|].
  intros Hs. apply andb_true_iff in Hs as [Hc Hs].
  now rewrite (Hpq c Hc), IH.
Qed.

Lemma all_chars_lstrip (p q : ascii -> bool) (s : string) :
  all_chars q s = true -> all_chars q (PyStr.lstrip_by p s) = true.
Proof.
  induction s as [|c s IH]; cbn [PyStr.lstrip_by all_chars]; [reflexivity|].
  intros Hs. destruct (p c).
  - apply IH. now apply andb_true_iff in Hs as [_ Hs].
  - exact Hs.
Qed.

Lemma all_chars_strip (q : ascii -> bool) (s : string) :
  all_chars q s = true -> all_chars q (PyStr.strip s) = true.
Proof.
  intros Hs. unfold PyStr.strip, PyStr.strip_by.
  rewrite all_chars_rev. apply all_chars_lstrip.
  rewrite all_chars_rev. now apply all_chars_lstrip.
Qed.

Lemma after_first_skips (sep : ascii) (a b : string) :
  all_chars (fun c => negb (Ascii.eqb sep c)) a = true ->
  PyStr.after_first sep (a +:+ String sep b) = Some b.
Proof.
  induction a as [|c a IH].
  - intros _. change ("" +:+ String sep b) with (String sep b).
    cbn [PyStr.after_first]. now rewrite Ascii.eqb_refl.
  - change (String c a +:+ String sep b) with (String c (a +:+ String sep b)).
    cbn [PyStr.after_first all_chars].
    intros Ha. apply andb_true_iff in Ha as [Hc Ha].
    apply negb_true_iff in Hc. rewrite Hc. now apply IH.
Qed.

(** [os.path.dirname] of a directory joined with a file name. *)
Lemma dirname_of_file (dir file : string) :
  all_chars (fun c => negb (Ascii.eqb "/"%char c)) file = true ->
  Path.dirname (dir +:+ String "/"%char file) = dir.
Proof.
  intros Hfile. unfold Path.dirname.
  rewrite rev_append, rev_cons, append_assoc.
  change (String "/"%char "" +:+ PyStr.rev dir) with (String "/"%char (PyStr.rev dir)).
  rewrite after_first_skips by now rewrite all_chars_rev.
  apply rev_involutive.
Qed.

Lemma word_is_no_separator (c : ascii) :
  PyStr.is_word c = true -> negb (Ascii.eqb "/"%char c) = true.
Proof.
  destruct (Ascii.eqb_spec "/"%char c) as [<-|]; [|reflexivity].
  vm_compute. discriminate.
Qed.

Lemma take_all (n : nat) (s : string) :
  String.length s <= n -> PyStr.take n s = s.
Proof.
  revert n. induction s as [|c s IH]; intros [|n]; cbn; try reflexivity; try lia.
  intros Hn. rewrite IH by lia. reflexivity.
Qed.

Lemma sub_non_word_of_words (s : string) :
  all_chars PyStr.is_word s = true -> PyStr.sub_non_word s = s.
Proof.
  unfold PyStr.sub_non_word.
  induction s as [|c s IH]; cbn [all_chars PyStr.map_chars]; [reflexivity|].
  intros Hs. apply andb_true_iff in Hs as [Hc Hs]. now rewrite Hc, IH.
Qed.

(** * The artifact of a record *)

(** Whatever the business name holds (separators, dots, any character at
    all), the artifact of the record lies directly in the directory [json] of
    the output directory; and a name that is already sanitized is left as it
    is. *)
Theorem business_artifact_stays_in_json_directory (business_name : string) :
  Path.dirname
    (Path.join output_dir ("json/business_" +:+ clean_name business_name +:+ ".json"))
  = output_dir +:+ "/json"
  /\ clean_name (clean_name business_name) = clean_name business_name.
Proof.
  assert (Hw : all_chars PyStr.is_word (clean_name business_name) = true).
  { unfold clean_name. apply all_chars_take, sub_non_word_words. }
  split.
  - change (Path.join output_dir
              ("json/business_" +:+ clean_name business_name +:+ ".json"))
      with ((output_dir +:+ "/json") +:+
            String "/"%char ("business_" +:+ clean_name business_name +:+ ".json")).
    apply dirname_of_file.
    rewrite !all_chars_append.
    rewrite (all_chars_impl _ _ _ word_is_no_separator Hw). reflexivity.
  - unfold clean_name at 1.
    rewrite (sub_non_word_of_words _ Hw). apply take_all.
    unfold clean_name. rewrite take_length. apply Nat.le_min_l.
Qed.

(** * The values of the text strategy *)

Lemma span_until_markup_free (s : string) :
  markup_free (PyStr.span_until (Ascii.eqb "<"%char) s) = true.
Proof.
  unfold markup_free.
  induction s as [|c s IH]; cbn [PyStr.span_until all_chars]; [reflexivity|].
  destruct (Ascii.eqb "<"%char c) eqn:E; cbn [all_chars]; [reflexivity|].
  now rewrite E, IH.
Qed.

Lemma match_here_markup_free (lit s g : string) :
  PyStr.match_here lit s = Some g -> markup_free g = true /\ g <> "".
Proof.
  unfold PyStr.match_here.
  destruct (PyStr.starts_with_ci lit s); [|discriminate].
  destruct (PyStr.after_first ">"%char _) as [rest|]; [|discriminate].
  pose proof (span_until_markup_free rest) as Hfree.
  destruct (PyStr.span_until (Ascii.eqb "<"%char) rest) as [|c g']; [discriminate|].
  intros [= <-]. split; [exact Hfree | discriminate].
Qed.

Lemma re_search_markup_free (lit s g : string) :
  PyStr.re_search lit s = Some g -> markup_free g = true.
Proof.
  induction s as [|c s IH]; cbn [PyStr.re_search].
  - destruct (PyStr.match_here lit "") as [g0|] eqn:E; [|discriminate].
    intros [= <-]. now apply match_here_markup_free in E.
  - destruct (PyStr.match_here lit (String c s)) as [g0|] eqn:E; [|exact IH].
    intros [= <-]. now apply match_here_markup_free in E.
Qed.

Lemma first_match_markup_free (field_patterns : list string) (page_text v : string) :
  first_match field_patterns page_text = Some v -> markup_free v = true.
Proof.
  induction field_patterns as [|p rest IH]; cbn [first_match]; [discriminate|].
  destruct (PyStr.re_search p page_text) as [g|] eqn:E; [|exact IH].
  intros [= <-]. apply all_chars_strip. now apply re_search_markup_free in E.
Qed.

Lemma all_values_set (p : string -> bool) (k v : string) (d : dict) :
  p v = true -> all_values p d = true ->
  all_values p (Dict.set k (PStr v) d) = true.
Proof.
  intros Hv. unfold all_values.
  induction d as [|[k' v'] d IH]; cbn [Dict.set forallb snd].
  - now rewrite Hv.
  - intros Hd. apply andb_true_iff in Hd as [Hv' Hd].
    destruct (String.eqb k k'); cbn [forallb snd].
    + now rewrite Hv, Hd.
    + now rewrite Hv', IH.
Qed.

Lemma scan_text_markup_free (fields : list (string * list string))
    (page_text : string) (d : dict) :
  all_values markup_free d = true ->
  all_values markup_free (scan_text fields page_text d) = true.
Proof.
  revert d. induction fields as [|[field pats] fields IH]; intros d Hd;
    cbn [scan_text]; [exact Hd|].
  destruct (first_match pats page_text) as [v|] eqn:E; [|now apply IH].
  apply IH, all_values_set; [|exact Hd].
  now apply first_match_markup_free in E.
Qed.

Section Listing.

Context {B El : Type} `{PageDriver B El}.

(** Whatever the markup of the page, the strategy that reads it returns a
    mapping whose values are strings without any ['<']: what is taken for a
    value ends where the next tag begins. *)
Theorem text_strategy_values_are_markup_free (w : world B) :
  exists d w',
    extract_from_page_text w = (Val d, w')
    /\ all_values markup_free d = true.
Proof.
  cbv [extract_from_page_text bind enter try_except drive ret any_exception].
  cbn [browser].
  destruct (page_content (browser w)) as [[text|e] b1]; cbv beta iota.
  - eexists _, _. split; [reflexivity|]. now apply scan_text_markup_free.
  - eexists _, _. split; reflexivity.
Qed.

Lemma collect_rows_bounds (rows : list El) (i : nat) (acc : list business_info) :
  ensures (collect_rows rows i acc)
    (fun l => exists new,
       l = acc ++ new
       /\ Forall (fun b => bi_row_index b < i + length rows) new
       /\ length new <= length rows).
Proof.
  revert i acc. induction rows as [|row rows IH]; intros i acc;
    cbn [collect_rows length].
  - apply ensures_ret. exists []. rewrite app_nil_r. repeat split; auto.
  - intros w l w'. unfold bind, attempt.
    destruct (read_result_row row i w) as [[[b|]|e] w1] eqn:E; cbv beta iota.
    + intros El'. apply (IH (S i) (acc ++ [b])) in El' as (new & -> & Hall & Hlen).
      pose proof (read_result_row_entry row i w _ _ E) as [Hidx _].
      exists (b :: new). rewrite <- app_assoc. split; [reflexivity|]. split.
      * constructor; [lia|].
        eapply List.Forall_impl; [|exact Hall]. intros x Hx. cbv beta in *. lia.
      * cbn [length]. lia.
    + intros El'. apply (IH (S i) acc) in El' as (new & -> & Hall & Hlen).
      exists new. split; [reflexivity|]. split; [|lia].
      eapply List.Forall_impl; [|exact Hall]. intros x Hx. cbv beta in *. lia.
    + intros El'. apply (IH (S i) acc) in El' as (new & -> & Hall & Hlen).
      exists new. split; [reflexivity|]. split; [|lia].
      eapply List.Forall_impl; [|exact Hall]. intros x Hx. cbv beta in *. lia.
Qed.

(** A non-empty result list comes from a result table that was found and
    whose rows were read: every entry names a row of that table by its
    index, and the table has more rows than the list has entries. *)
Theorem listed_rows_exist (search_term : string) (businesses : list business_info)
    (w w' : world B) :
  extract_business_links_from_results search_term w = (Val businesses, w') ->
  businesses <> [] ->
  exists table b1 rows b2,
    query_selector "table.gvResults" (browser w) = (Val (Some table), b1)
    /\ el_query_selector_all table "tr" b1 = (Val rows, b2)
    /\ Forall (fun b => exists row, nth_error rows (bi_row_index b) = Some row)
         businesses
    /\ length businesses < length rows.
Proof.
  intros E Hne.
  assert (Hhandler : forall e,
            ensures
              (page_source <-- drive page_content ;;
               save_error_log search_term
                 ("Business links extraction error: " +:+ str_of_exn e)
                 page_source ;;;
               ret ([] : list business_info))
              (fun l => l = [])).
  { intros e. do 2 (apply ensures_then; intros ?). now apply ensures_ret. }
  revert E. unfold extract_business_links_from_results, try_except.
  unfold bind at 1. unfold drive at 1.
  destruct (query_selector "table.gvResults" (browser w)) as [[[table|]|e] b1];
    cbv beta iota; cbn [any_exception].
  - unfold bind at 1. unfold drive at 1. cbn [browser].
    destruct (el_query_selector_all table "tr" b1) as [[rows|e] b2] eqn:Erows;
      cbv beta iota.
    + destruct (collect_rows (tl rows) 1 [] _) as [[l|e] w2] eqn:Ec.
      * intros E. apply val_pair_inj in E as [<- _].
        apply collect_rows_bounds in Ec as (new & -> & Hall & Hlen).
        cbn [app] in *.
        exists table, b1, rows, b2.
        split; [reflexivity|]. split; [exact Erows|].
        destruct rows as [|r rows]; cbn [tl length] in Hall, Hlen.
        { destruct new; [congruence | cbn [length] in Hlen; lia]. }
        split; [|cbn [length]; lia].
        eapply List.Forall_impl; [|exact Hall]. intros b Hb. cbv beta in Hb.
        destruct (nth_error (r :: rows) (bi_row_index b)) as [row|] eqn:En;
          [eauto|].
        apply List.nth_error_None in En. cbn [length] in En. lia.
      * intros E. apply Hhandler in E. congruence.
    + intros E. apply Hhandler in E. congruence.
  - intros E. apply val_pair_inj in E as [<- _]. congruence.
  - intros E. apply Hhandler in E. congruence.
Qed.

End Listing.

(** The result list of [Scenario.results_page]: one entry, for row 1 of a
    table of two rows. *)
Lemma listed_rows_exist_witness :
  exists table b1 rows b2,
    query_selector "table.gvResults"
      (browser (Sim.start Scenario.results_page [] Sim.output_dirs))
    = (Val (Some table), b1)
    /\ el_query_selector_all table "tr" b1 = (Val rows, b2)
    /\ Forall (fun b => exists row, nth_error rows (bi_row_index b) = Some row)
         [BusinessInfo "Acme, LLC" "1234567" 1]
    /\ length [BusinessInfo "Acme, LLC" "1234567" 1] < length rows.
Proof.
  apply (listed_rows_exist "AA" _
           (Sim.start Scenario.results_page [] Sim.output_dirs)
           (snd (extract_business_links_from_results "AA"
                   (Sim.start Scenario.results_page [] Sim.output_dirs)))).
  - vm_compute. reflexivity.
  - discriminate.
Defined.

(** * What a [True] from a stage stands for *)

Section Flags.

Context {B El : Type} `{PageDriver B El}.

Lemma log_and_false (search_term msg : string) :
  ensures
    (page_source <-- drive page_content ;;
     save_error_log search_term msg page_source ;;;
     ret false)
    (fun r => r = false).
Proof. do 2 (apply ensures_then; intros ?). now apply ensures_ret. Qed.

Lemma captcha_check_run (w : world B) :
  exists r b',
    check_and_solve_captcha w
    = (r, World b' (fs w) (clock w) (ticks w) (tiers_run w)).
Proof.
  unfold check_and_solve_captcha.
  generalize captcha_indicators. intros indicators. revert w.
  induction indicators as [|i rest IH]; intros w; cbn [find_indicator].
  - exists (Val false), (browser w). destruct w; reflexivity.
  - unfold bind, drive.
    destruct (query_selector i (browser w)) as [[[el|]|e] b1]; cbv beta iota.
    + eexists _, _. reflexivity.
    + destruct (IH (World b1 (fs w) (clock w) (ticks w) (tiers_run w)))
        as (r & b' & E).
      rewrite E. cbn [fs clock ticks tiers_run]. eexists _, _. reflexivity.
    + eexists _, _. reflexivity.
Qed.

(** [click_business_by_index] returns [True] only after the button of the
    row was found and clicked and the element with the entity id was found
    on the page that followed; the row index was an index of the result
    table, and nothing was written in the course of it. *)
Theorem click_true_means_detail_page (business : business_info)
    (search_term : string) (w w' : world B) :
  click_business_by_index business search_term w = (Val true, w') ->
  (exists table b1 rows b2 row,
      query_selector "table.gvResults" (browser w) = (Val (Some table), b1)
      /\ el_query_selector_all table "tr" b1 = (Val rows, b2)
      /\ nth_error rows (bi_row_index business) = Some row
      /\ exists btn b3 b4,
           el_query_selector row "input[value='Select Business']" b2
           = (Val (Some btn), b3)
           /\ click btn b3 = (Val tt, b4))
  /\ (exists b el,
        query_selector "#MainContent_lblEntityID" b = (Val (Some el), browser w'))
  /\ fs w' = fs w.
Proof.
  unfold click_business_by_index, try_except.
  match goal with
  | |- context [match ?c w with _ => _ end] => destruct (c w) as [[r|e] w1] eqn:Eb
  end.
  2:{ cbn [any_exception]. intros E. apply log_and_false in E. discriminate. }
  intros E. apply val_pair_inj in E as [-> ->].
  revert Eb. unfold bind at 1. unfold drive at 1.
  destruct (query_selector "table.gvResults" (browser w)) as [[[table|]|e] b1];
    cbv beta iota; try discriminate.
  unfold bind at 1. unfold drive at 1. cbn [browser fs clock ticks tiers_run].
  destruct (el_query_selector_all table "tr" b1) as [[rows|e] b2] eqn:Erows;
    cbv beta iota; try discriminate.
  destruct (nth_error rows (bi_row_index business)) as [row|] eqn:Erow;
    try discriminate.
  unfold bind at 1. unfold drive at 1. cbn [browser fs clock ticks tiers_run].
  destruct (el_query_selector row "input[value='Select Business']" b2)
    as [[[btn|]|e] b3] eqn:Ebtn; cbv beta iota.
  2:{ intros E. apply log_and_false in E. discriminate. }
  2:{ discriminate. }
  unfold bind at 1. unfold drive at 1. cbn [browser fs clock ticks tiers_run].
  destruct (click btn b3) as [[[]|e] b4] eqn:Eclick; cbv beta iota;
    try discriminate.
  unfold bind at 1.
  match goal with
  | |- context [check_and_solve_captcha ?w0] =>
      destruct (captcha_check_run w0) as (rc & b5 & ->)
  end.
  cbn [browser fs clock ticks tiers_run].
  destruct rc as [c|e]; try discriminate.
  unfold bind at 1. unfold drive at 1. cbn [browser fs clock ticks tiers_run].
  destruct (query_selector "#MainContent_lblEntityID" b5) as [[[el|]|e] b6] eqn:Eid;
    cbv beta iota.
  2:{ intros E. apply log_and_false in E. discriminate. }
  2:{ discriminate. }
  intros E. apply val_pair_inj in E as [_ <-].
  cbn [browser fs]. split; [|split; [|reflexivity]].
  - exists table, b1, rows, b2, row. repeat split; try assumption.
    exists btn, b3, b4. split; assumption.
  - exists b5, el. exact Eid.
Qed.

Lemma select_radio_run (selector : string) (w : world B) :
  exists r b',
    select_radio selector w
    = (r, World b' (fs w) (clock w) (ticks w) (tiers_run w)).
Proof.
  unfold select_radio, bind, drive.
  destruct (query_selector selector (browser w)) as [[[radio|]|e] b1];
    cbv beta iota; cbn [browser fs clock ticks tiers_run].
  - destruct (is_checked radio b1) as [[checked|e] b2]; cbv beta iota;
      cbn [browser fs clock ticks tiers_run].
    + destruct (negb checked).
      * unfold drive. cbn [browser fs clock ticks tiers_run].
        destruct (click radio b2) as [r b3]. eexists _, _. reflexivity.
      * eexists _, _. reflexivity.
    + eexists _, _. reflexivity.
  - exists (Val tt), b1. reflexivity.
  - eexists _, _. reflexivity.
Qed.

(** [automated_search_setup] returns [True] only after the search field was
    found, emptied and filled with the search term, the last thing done in
    the browser; [perform_search] returns [True] only after the search button
    was found and clicked.  Neither has written anything by then. *)
Theorem search_true_means_submitted (search_term : string) (w w' : world B) :
  (automated_search_setup search_term w = (Val true, w') ->
   (exists inp b1 b2 b3,
       query_selector "#MainContent_txtSearchEntityName" b1 = (Val (Some inp), b2)
       /\ fill inp "" b2 = (Val tt, b3)
       /\ fill inp search_term b3 = (Val tt, browser w'))
   /\ fs w' = fs w)
  /\ (perform_search search_term w = (Val true, w') ->
      (exists btn b1 b2 b3,
          query_selector "#MainContent_btnSearchEntity" b1 = (Val (Some btn), b2)
          /\ click btn b2 = (Val tt, b3))
      /\ fs w' = fs w).
Proof.
  split.
  - unfold automated_search_setup, try_except.
    match goal with
    | |- context [match ?c w with _ => _ end] =>
        destruct (c w) as [[r|e] w1] eqn:Eb
    end.
    2:{ cbn [any_exception]. intros E. apply log_and_false in E. discriminate. }
    intros E. apply val_pair_inj in E as [-> ->].
    revert Eb. unfold bind at 1.
    destruct (select_radio_run "#MainContent_rblSearchType_0" w) as (r1 & b1 & ->).
    destruct r1 as [[]|e]; try discriminate.
    unfold bind at 1.
    match goal with
    | |- context [select_radio ?s ?w0] =>
        destruct (select_radio_run s w0) as (r2 & b2 & ->)
    end.
    cbn [browser fs clock ticks tiers_run].
    destruct r2 as [[]|e]; try discriminate.
    unfold bind at 1. unfold drive at 1. cbn [browser fs clock ticks tiers_run].
    destruct (query_selector "#MainContent_txtSearchEntityName" b2)
      as [[[inp|]|e] b3] eqn:Einp; cbv beta iota.
    2:{ intros E. apply log_and_false in E. discriminate. }
    2:{ discriminate. }
    unfold bind at 1. unfold drive at 1. cbn [browser fs clock ticks tiers_run].
    destruct (fill inp "" b3) as [[[]|e] b4] eqn:Eclear; cbv beta iota;
      try discriminate.
    unfold bind at 1. unfold drive at 1. cbn [browser fs clock ticks tiers_run].
    destruct (fill inp search_term b4) as [[[]|e] b5] eqn:Efill; cbv beta iota;
      try discriminate.
    intros E. apply val_pair_inj in E as [_ <-]. cbn [browser fs].
    split; [|reflexivity]. exists inp, b2, b3, b4. repeat split; assumption.
  - unfold perform_search, try_except.
    match goal with
    | |- context [match ?c w with _ => _ end] =>
        destruct (c w) as [[r|e] w1] eqn:Eb
    end.
    2:{ cbn [any_exception]. intros E. apply log_and_false in E. discriminate. }
    intros E. apply val_pair_inj in E as [-> ->].
    revert Eb. unfold bind at 1.
    destruct (captcha_check_run w) as (r1 & b1 & ->).
    destruct r1 as [c1|e]; try discriminate.
    unfold bind at 1. unfold drive at 1. cbn [browser fs clock ticks tiers_run].
    destruct (query_selector "#MainContent_btnSearchEntity" b1)
      as [[[btn|]|e] b2] eqn:Ebtn; cbv beta iota.
    2:{ intros E. apply log_and_false in E. discriminate. }
    2:{ discriminate. }
    unfold bind at 1. unfold drive at 1. cbn [browser fs clock ticks tiers_run].
    destruct (click btn b2) as [[[]|e] b3] eqn:Eclick; cbv beta iota;
      try discriminate.
    unfold bind at 1.
    match goal with
    | |- context [check_and_solve_captcha ?w0] =>
        destruct (captcha_check_run w0) as (r2 & b4 & ->)
    end.
    cbn [browser fs clock ticks tiers_run].
    destruct r2 as [c2|e]; try discriminate.
    intros E. apply val_pair_inj in E as [_ <-]. cbn [browser fs].
    split; [|reflexivity]. exists btn, b1, b2, b3. split; assumption.
Qed.

End Flags.

(** On the scripted result list the button of row 1 leads to the detail
    page. *)
Lemma click_true_means_detail_page_witness :
  exists b el,
    query_selector "#MainContent_lblEntityID" b
    = (Val (Some el),
       browser (snd (click_business_by_index (BusinessInfo "Acme, LLC" "1234567" 1)
                       "AA" (Sim.start Scenario.results_page [] Sim.output_dirs)))).
Proof.
  refine (proj1 (proj2 (click_true_means_detail_page
                          (BusinessInfo "Acme, LLC" "1234567" 1) "AA"
                          (Sim.start Scenario.results_page [] Sim.output_dirs) _ _))).
  vm_compute. reflexivity.
Defined.

(** On the scripted search page the term is typed into the search field. *)
Lemma search_true_means_submitted_witness :
  fs (snd (automated_search_setup "AA"
             (Sim.start Scenario.search_page Scenario.portal Sim.output_dirs)))
  = fs (Sim.start Scenario.search_page Scenario.portal Sim.output_dirs).
Proof.
  refine (proj2 (proj1 (search_true_means_submitted "AA"
                          (Sim.start Scenario.search_page Scenario.portal
                             Sim.output_dirs) _) _)).
  vm_compute. reflexivity.
Defined.
